(** * Epidemic grid: the Population transition engine

    A shallow embedding of [Person] and of the [Population] class (the
    version with vaccination and [countStates]): the constructor, the
    accessors and mutators, [countStates], [Update], [colorForState] and
    [draw]; of the simulation loop, the CSV rows and the frame names of
    main.cpp; of the random seeding of the other driver; and of the earlier
    header's constructor and [Update]. *)

From Stdlib Require Import ZArith String Bool Lia.
From Stdlib Require Import Floats.SpecFloat.
From stdpp Require Import base list strings pretty list_numbers.

Local Open Scope Z_scope.

(** ** Machine numbers *)

(** [int] is a 32-bit two's complement integer; arithmetic that leaves the
    range is written with its wrap-around. *)
Module Int.
Definition INT_MAX : Z := 2147483647.
Definition INT_MIN : Z := -2147483648.
Definition wrap (z : Z) : Z := (z + 2147483648) mod 4294967296 - 2147483648.
Definition in_range (z : Z) : Prop := INT_MIN <= z <= INT_MAX.
Definition add (a b : Z) : Z := wrap (a + b).
Definition mul (a b : Z) : Z := wrap (a * b).
Definition incr (a : Z) : Z := add a 1.
End Int.

(** [float] is IEEE binary32: 24 bits of precision, maximal exponent 128.
    The operations are the executable ones of the standard library's
    specification of floating-point numbers, rounding to nearest even. *)
Module F32.
Definition prec : Z := 24.
Definition emax : Z := 128.
Definition t : Type := spec_float.
Definition add : t -> t -> t := SFadd prec emax.
Definition sub : t -> t -> t := SFsub prec emax.
Definition mul : t -> t -> t := SFmul prec emax.
Definition div : t -> t -> t := SFdiv prec emax.
Definition ltb : t -> t -> bool := SFltb.
Definition leb : t -> t -> bool := SFleb.
(** [static_cast<float>(k)] and the implicit conversion of an [int]. *)
Definition of_int (k : Z) : t := binary_normalize prec emax k 0 false.
(** The literal [1.0f]. *)
Definition one : t := of_int 1.
Definition zero : t := S754_zero false.
(** A finite positive value [m * 2^e] already in binary32 format. *)
Definition lit (m : positive) (e : Z) : t := S754_finite false m e.
(** The conversion of a [double] to [float] ([float seed = dis(gen)]). *)
Definition of_double (d : spec_float) : t :=
  match d with
  | S754_finite s m e => binary_normalize prec emax (cond_Zopp s (Zpos m)) e s
  | _ => d
  end.
End F32.

(** ** Outcomes of calls

    A call returns, throws, or has undefined behaviour (an unchecked access
    outside a vector). *)
Inductive exn : Type :=
| length_error
| out_of_range.

Inductive outcome (A : Type) : Type :=
| Ok (a : A)
| Throws (e : exn)
| Undefined.
Arguments Ok {A} a.
Arguments Throws {A} e.
Arguments Undefined {A}.

Definition bind {A B : Type} (c : outcome A) (k : A -> outcome B) : outcome B :=
  match c with
  | Ok a => k a
  | Throws e => Throws e
  | Undefined => Undefined
  end.

Declare Scope outcome_scope.
Delimit Scope outcome_scope with outcome.
Notation "x <- c ;; k" := (bind c (fun x => k))
  (at level 100, c at next level, right associativity) : outcome_scope.
Local Open Scope outcome_scope.

(** ** std::vector *)
Module Vec.
(** [v[i]]: no bounds check; the index is converted to [size_type], so a
    negative [int] is out of range too. *)
Definition index {A : Type} (v : list A) (i : Z) : outcome A :=
  if 0 <=? i then
    match v !! Z.to_nat i with
    | Some x => Ok x
    | None => Undefined
    end
  else Undefined.

(** [v[i].f()] for a mutator [f] of the element. *)
Definition modify {A : Type} (v : list A) (i : Z) (f : A -> outcome A)
  : outcome (list A) :=
  x <- index v i ;;
  y <- f x ;;
  Ok (<[Z.to_nat i := y]> v).

(** [std::vector<T>(n, x)]: the count is converted to [size_type]; a negative
    [int] becomes a count above [max_size()] and the constructor throws. *)
Definition make {A : Type} (n : Z) (x : A) : outcome (list A) :=
  if n <? 0 then Throws length_error else Ok (replicate (Z.to_nat n) x).
End Vec.

(** ** Loops *)

(** [count] iterations of [body], the index starting at [lo]. *)
Fixpoint for_range {S : Type} (lo : Z) (count : nat)
    (body : Z -> S -> outcome S) (s : S) : outcome S :=
  match count with
  | O => Ok s
  | Datatypes.S c => s' <- body lo s ;; for_range (lo + 1) c body s'
  end.

(** [for (int i = 0; i < n; ++i) body]. *)
Definition for_loop {S : Type} (n : Z) (body : Z -> S -> outcome S) (s : S)
  : outcome S :=
  for_range 0 (Z.to_nat n) body s.

(** ** Person *)
Module Person.
Record t : Type := { _state : string }.

Definition ctor : t := {| _state := "susceptible" |}.
Definition getState (p : t) : string := _state p.
Definition set_sus (p : t) : t := {| _state := "susceptible" |}.
Definition set_inf (p : t) : t := {| _state := "infected" |}.
Definition set_rec (p : t) : t := {| _state := "recovered" |}.
Definition set_vac (p : t) : t := {| _state := "vaccinated" |}.
End Person.

(** ** Population *)
Module Population.

Record t : Type := {
  _m : list (list Person.t);
  _n : Z;
  _ri : F32.t;
  _rr : F32.t;
  _rm : F32.t;
  _rv : F32.t;
  _rvh : F32.t;
  _t : Z;
  _tv : Z
}.

Definition with_m (p : t) (m : list (list Person.t)) : t :=
  {| _m := m; _n := _n p; _ri := _ri p; _rr := _rr p; _rm := _rm p;
     _rv := _rv p; _rvh := _rvh p; _t := _t p; _tv := _tv p |}.

Definition with_t (p : t) (d : Z) : t :=
  {| _m := _m p; _n := _n p; _ri := _ri p; _rr := _rr p; _rm := _rm p;
     _rv := _rv p; _rvh := _rvh p; _t := d; _tv := _tv p |}.

Record Counts : Type := {
  susceptible : Z;
  infected : Z;
  recovered : Z;
  vaccinated : Z
}.

(** The member initialisers, each a [double] literal or quotient converted
    to [float]: 0.20, 1.0/20.0, 1.0/200.0, 1.0/1000.0 and 0.2. *)
Definition ri_default : F32.t := F32.lit 13421773 (-26).
Definition rr_default : F32.t := F32.lit 13421773 (-28).
Definition rm_default : F32.t := F32.lit 10737418 (-31).
Definition rv_default : F32.t := F32.lit 8589935 (-33).
Definition rvh_default : F32.t := F32.lit 13421773 (-26).

(** [explicit Population(int n) : _m(n, std::vector<Person>(n)), _n(n) {}] *)
Definition ctor (n : Z) : outcome t :=
  row <- Vec.make n Person.ctor ;;
  m <- Vec.make n row ;;
  Ok {| _m := m; _n := n; _ri := ri_default; _rr := rr_default;
        _rm := rm_default; _rv := rv_default; _rvh := rvh_default;
        _t := 0; _tv := 200 |}.

(** [_m[i][j]] read. *)
Definition cell (m : list (list Person.t)) (i j : Z) : outcome Person.t :=
  row <- Vec.index m i ;; Vec.index row j.

(** [_m[i][j].f()] for a mutator [f] of [Person]. *)
Definition set_cell (m : list (list Person.t)) (i j : Z)
    (f : Person.t -> Person.t) : outcome (list (list Person.t)) :=
  Vec.modify m i (fun row => Vec.modify row j (fun x => Ok (f x))).

Definition getPerson (p : t) (i j : Z) : outcome Person.t := cell (_m p) i j.

Definition getState (p : t) (i j : Z) : outcome string :=
  x <- cell (_m p) i j ;; Ok (Person.getState x).

Definition size (p : t) : Z := _n p.

Definition set_sus (p : t) (i j : Z) : outcome t :=
  m <- set_cell (_m p) i j Person.set_sus ;; Ok (with_m p m).
Definition set_inf (p : t) (i j : Z) : outcome t :=
  m <- set_cell (_m p) i j Person.set_inf ;; Ok (with_m p m).
Definition set_rec (p : t) (i j : Z) : outcome t :=
  m <- set_cell (_m p) i j Person.set_rec ;; Ok (with_m p m).
Definition set_vac (p : t) (i j : Z) : outcome t :=
  m <- set_cell (_m p) i j Person.set_vac ;; Ok (with_m p m).

Definition Counts_zero : Counts :=
  {| susceptible := 0; infected := 0; recovered := 0; vaccinated := 0 |}.

(** The if/else-if chain of [countStates]: a state that is none of the four
    strings is counted nowhere. *)
Definition count_one (s : string) (c : Counts) : Counts :=
  if String.eqb s "susceptible" then
    {| susceptible := Int.incr (susceptible c); infected := infected c;
       recovered := recovered c; vaccinated := vaccinated c |}
  else if String.eqb s "infected" then
    {| susceptible := susceptible c; infected := Int.incr (infected c);
       recovered := recovered c; vaccinated := vaccinated c |}
  else if String.eqb s "recovered" then
    {| susceptible := susceptible c; infected := infected c;
       recovered := Int.incr (recovered c); vaccinated := vaccinated c |}
  else if String.eqb s "vaccinated" then
    {| susceptible := susceptible c; infected := infected c;
       recovered := recovered c; vaccinated := Int.incr (vaccinated c) |}
  else c.

Definition countStates (p : t) : outcome Counts :=
  for_loop (_n p) (fun i c =>
    for_loop (_n p) (fun j c =>
      x <- cell (_m p) i j ;;
      Ok (count_one (Person.getState x) c)) c) Counts_zero.

(** One conjunct [guard && mOld[i][j].getState() == "infected"] of the
    neighbour count: the vector is read only when the guard holds. *)
Definition infected_neighbour (guard : bool) (mOld : list (list Person.t))
    (i j : Z) : outcome bool :=
  if guard then
    x <- cell mOld i j ;; Ok (String.eqb (Person.getState x) "infected")
  else Ok false.

(** The body of the inner loop of [Update] for the cell [(i, j)]. The state
    is the grid [_m] being written and the number of draws taken so far from
    the generator [gen], whose successive values are [draws 0], [draws 1],
    ... The neighbour count [sum] stays between 0 and 4, and [i - 1],
    [i + 1] stay in range because [0 <= i < _n]. *)
Definition Update_cell (p : t) (allowVaccination : bool)
    (mOld : list (list Person.t)) (draws : nat -> spec_float) (i j : Z)
    (st : list (list Person.t) * nat) : outcome (list (list Person.t) * nat) :=
  let m := fst st in
  let seed := F32.of_double (draws (snd st)) in
  old <- cell mOld i j ;;
  m <- (if String.eqb (Person.getState old) "susceptible" then
          up <- infected_neighbour (i - 1 >=? 0) mOld (i - 1) j ;;
          let sum := if up : bool then 1 else 0 in
          left <- infected_neighbour (j - 1 >=? 0) mOld i (j - 1) ;;
          let sum := if left : bool then sum + 1 else sum in
          down <- infected_neighbour (i + 1 <? _n p) mOld (i + 1) j ;;
          let sum := if down : bool then sum + 1 else sum in
          right <- infected_neighbour (j + 1 <? _n p) mOld i (j + 1) ;;
          let sum := if right : bool then sum + 1 else sum in
          let chance_inf := F32.mul (F32.of_int sum) (_ri p) in
          if F32.ltb seed chance_inf then set_cell m i j Person.set_inf
          else if (_t p >=? _tv p) && allowVaccination then
            if F32.ltb chance_inf seed
               && F32.ltb seed (F32.add chance_inf (_rv p))
            then set_cell m i j Person.set_vac
            else Ok m
          else Ok m
        else Ok m) ;;
  old <- cell mOld i j ;;
  m <- (if String.eqb (Person.getState old) "infected" then
          if F32.ltb seed (_rr p) then set_cell m i j Person.set_rec
          else Ok m
        else Ok m) ;;
  old <- cell mOld i j ;;
  m <- (if String.eqb (Person.getState old) "recovered" then
          if F32.ltb seed (_rm p) then set_cell m i j Person.set_sus
          else if (_t p >? _tv p) && allowVaccination then
            if F32.ltb (_rm p) seed && F32.ltb seed (F32.add (_rm p) (_rv p))
            then set_cell m i j Person.set_vac
            else Ok m
          else Ok m
        else Ok m) ;;
  Ok (m, S (snd st)).

(** [Update]. The generator is created inside the call and seeded from
    [std::random_device]; [draws] is the sequence of values it yields in
    this call. *)
Definition Update (draws : nat -> spec_float) (p0 : t) : outcome t :=
  let p := with_t p0 (Int.incr (_t p0)) in
  c <- countStates p ;;
  let total := Int.mul (_n p) (_n p) in
  let fracVaccinated :=
    F32.div (F32.of_int (vaccinated c)) (F32.of_int total) in
  let allowVaccination := F32.ltb fracVaccinated (F32.sub F32.one (_rvh p)) in
  let mOld := _m p in
  st <- for_loop (_n p) (fun i st =>
          for_loop (_n p) (fun j st =>
            Update_cell p allowVaccination mOld draws i j st) st)
        (_m p, 0%nat) ;;
  Ok (with_m p (fst st)).

End Population.

Import Population.

(** ** The grid as a table *)

Abbreviation grid := (list (list Person.t)).

(** The grid is [n] rows of [n] cells. *)
Definition dims (n : nat) (m : grid) : Prop :=
  length m = n /\ Forall (fun row => length row = n) m.

(** The class invariant the constructor establishes: [_n] is the side of
    the square grid [_m]. *)
Definition wf (p : t) : Prop :=
  0 <= _n p /\ dims (Z.to_nat (_n p)) (_m p).

(** The cell in row [a], column [b], if the grid has one. *)
Definition at2 (m : grid) (a b : nat) : option Person.t :=
  match m !! a with
  | Some row => row !! b
  | None => None
  end.

(** The four state strings a [Person] can hold. *)
Definition known (s : string) : Prop :=
  s = "susceptible"%string \/ s = "infected"%string \/
  s = "recovered"%string \/ s = "vaccinated"%string.

Definition known_grid (m : grid) : Prop :=
  Forall (Forall (fun x => known (Person.getState x))) m.

(** Whether [(i, j)] is a cell of the grid, and infected. *)
Definition infected_at (m : grid) (i j : Z) : bool :=
  if (0 <=? i) && (0 <=? j) then
    match at2 m (Z.to_nat i) (Z.to_nat j) with
    | Some x => String.eqb (Person.getState x) "infected"
    | None => false
    end
  else false.

(** The number of cells of the grid among the up, left, down and right
    neighbours of [(i, j)] that are infected. *)
Definition infected_neighbours (m : grid) (i j : Z) : Z :=
  Z.b2z (infected_at m (i - 1) j) + Z.b2z (infected_at m i (j - 1)) +
  Z.b2z (infected_at m (i + 1) j) + Z.b2z (infected_at m i (j + 1)).

(** The number of neighbours [(i, j)] has inside an [n] by [n] grid. *)
Definition neighbours_in_grid (n i j : Z) : Z :=
  Z.b2z (0 <=? i - 1) + Z.b2z (0 <=? j - 1) +
  Z.b2z (i + 1 <? n) + Z.b2z (j + 1 <? n).

(** The values [fracVaccinated], [1.0f - _rvh] and [allowVaccination] take
    in [Update] when [countStates] returns [c]. *)
Definition frac_vaccinated (p : t) (c : Counts) : F32.t :=
  F32.div (F32.of_int (vaccinated c)) (F32.of_int (Int.mul (_n p) (_n p))).

Definition ceiling (p : t) : F32.t := F32.sub F32.one (_rvh p).

Definition allow_of (p : t) (c : Counts) : bool :=
  F32.ltb (frac_vaccinated p c) (ceiling p).

(** The draw the cell [(i, j)] receives: the loops of [Update] visit the
    cells row by row and take one value each. *)
Definition seed_of (draws : nat -> spec_float) (n i j : Z) : F32.t :=
  F32.of_double (draws (Z.to_nat (i * n + j))).

(** What the three [if] statements of the loop body make of a cell, as a
    function of its state in [mOld], of the number [k] of infected
    neighbours, of the draw, and of [_t] as already incremented. *)
Definition next_person (p : t) (day : Z) (allow : bool) (k : Z)
    (seed : F32.t) (old : Person.t) : Person.t :=
  if String.eqb (Person.getState old) "susceptible" then
    let chance_inf := F32.mul (F32.of_int k) (_ri p) in
    if F32.ltb seed chance_inf then Person.set_inf old
    else if (day >=? _tv p) && allow
            && F32.ltb chance_inf seed
            && F32.ltb seed (F32.add chance_inf (_rv p))
         then Person.set_vac old
         else old
  else if String.eqb (Person.getState old) "infected" then
    if F32.ltb seed (_rr p) then Person.set_rec old else old
  else if String.eqb (Person.getState old) "recovered" then
    if F32.ltb seed (_rm p) then Person.set_sus old
    else if (day >? _tv p) && allow
            && F32.ltb (_rm p) seed
            && F32.ltb seed (F32.add (_rm p) (_rv p))
         then Person.set_vac old
         else old
  else old.

(** The cell [(a, b)] of the grid after a step from [mOld]. *)
Definition next_at (p : t) (day : Z) (allow : bool)
    (draws : nat -> spec_float) (mOld : grid) (a b : nat) : option Person.t :=
  match at2 mOld a b with
  | Some old =>
      Some (next_person p day allow
              (infected_neighbours mOld (Z.of_nat a) (Z.of_nat b))
              (seed_of draws (_n p) (Z.of_nat a) (Z.of_nat b)) old)
  | None => None
  end.

(** The same on state strings. *)
Definition next_state (p : t) (day : Z) (allow : bool) (k : Z)
    (seed : F32.t) (s : string) : string :=
  Person.getState (next_person p day allow k seed {| Person._state := s |}).

(** The tallies of a list of cells, taken in order as [countStates] does. *)
Definition count_list (l : list Person.t) : Counts :=
  fold_left (fun c x => count_one (Person.getState x) c) l Counts_zero.

(** How many cells of a list are in state [s]. *)
Definition tally (s : string) (l : list Person.t) : Z :=
  Z.of_nat (length (filter (fun x => Person.getState x = s) l)).

(** ** Drivers

    What a driver does with a population: it overrides cells and advances
    days, each day with the draws of that day's generator. *)
Inductive state : Type :=
| Susceptible
| Infected
| Recovered
| Vaccinated.

Definition state_name (st : state) : string :=
  match st with
  | Susceptible => "susceptible"
  | Infected => "infected"
  | Recovered => "recovered"
  | Vaccinated => "vaccinated"
  end.

(** Overriding a cell is one of the four mutators. *)
Definition forceState (p : t) (i j : Z) (st : state) : outcome t :=
  match st with
  | Susceptible => set_sus p i j
  | Infected => set_inf p i j
  | Recovered => set_rec p i j
  | Vaccinated => set_vac p i j
  end.

Inductive op : Type :=
| Force (i j : Z) (st : state)
| Advance (draws : nat -> spec_float).

Definition apply_op (o : op) (p : t) : outcome t :=
  match o with
  | Force i j st => forceState p i j st
  | Advance draws => Update draws p
  end.

Fixpoint run (ops : list op) (p : t) : outcome t :=
  match ops with
  | [] => Ok p
  | o :: rest => p' <- apply_op o p ;; run rest p'
  end.

Definition is_advance (o : op) : bool :=
  match o with
  | Advance _ => true
  | Force _ _ _ => false
  end.

(** [days] successive calls of [Update], with the draws of each day. *)
Fixpoint advance_days (days : list (nat -> spec_float)) (p : t) : outcome t :=
  match days with
  | [] => Ok p
  | d :: rest => p' <- Update d p ;; advance_days rest p'
  end.

(** What every population a driver can hold satisfies. *)
Definition inv (p : t) : Prop := wf p /\ known_grid (_m p).

(** ** The rules as the specification words them

    For a susceptible cell: infected if [seed < p_inf]; otherwise
    vaccinated if [t >= tv], vaccination is allowed and
    [p_inf <= seed < p_inf + rv]; otherwise unchanged. *)
Definition spec_susceptible_rule (p : t) (day : Z) (allow : bool) (k : Z)
    (seed : F32.t) : string :=
  let p_inf := F32.mul (F32.of_int k) (_ri p) in
  if F32.ltb seed p_inf then "infected"
  else if (day >=? _tv p) && allow
          && F32.leb p_inf seed && F32.ltb seed (F32.add p_inf (_rv p))
       then "vaccinated"
       else "susceptible".

(** For a recovered cell: susceptible if [seed < rm]; otherwise vaccinated
    if [t > tv], vaccination is allowed and [rm <= seed < rm + rv];
    otherwise unchanged. *)
Definition spec_recovered_rule (p : t) (day : Z) (allow : bool)
    (seed : F32.t) : string :=
  if F32.ltb seed (_rm p) then "susceptible"
  else if (day >? _tv p) && allow
          && F32.leb (_rm p) seed && F32.ltb seed (F32.add (_rm p) (_rv p))
       then "vaccinated"
       else "recovered".

(** ** Sample populations and draws *)

Definition const_draws (d : spec_float) : nat -> spec_float := fun _ => d.

(** The doubles 0.5, 0.125 and 2^-11, and the doubles that are exactly the
    floats 0.2f and 0.005f. *)
Definition d_half : spec_float := S754_finite false 1 (-1).
Definition d_eighth : spec_float := S754_finite false 1 (-3).
Definition d_tiny : spec_float := S754_finite false 1 (-11).
Definition d_ri : spec_float := S754_finite false 13421773 (-26).
Definition d_rm : spec_float := S754_finite false 10737418 (-31).

Definition sus : Person.t := {| Person._state := "susceptible" |}.
Definition inf : Person.t := {| Person._state := "infected" |}.
Definition rec : Person.t := {| Person._state := "recovered" |}.
Definition vac : Person.t := {| Person._state := "vaccinated" |}.

(** A population with the constructor's parameters, a given grid and day. *)
Definition sample (n : Z) (m : grid) (day : Z) : t :=
  {| _m := m; _n := n; _ri := ri_default; _rr := rr_default;
     _rm := rm_default; _rv := rv_default; _rvh := rvh_default;
     _t := day; _tv := 200 |}.

(** Two by two, one infected corner, 199 days elapsed. *)
Definition corner_199 : t := sample 2 [[inf; sus]; [sus; sus]] 199.

(** One recovered cell, 200 days elapsed. *)
Definition lone_recovered_200 : t := sample 1 [[rec]] 200.

(** One recovered cell, 199 days elapsed. *)
Definition lone_recovered_199 : t := sample 1 [[rec]] 199.

(** Two by two, all susceptible, 199 days elapsed. *)
Definition fresh_199 : t := sample 2 [[sus; sus]; [sus; sus]] 199.

(** Two by two, all vaccinated, 199 days elapsed. *)
Definition full_199 : t := sample 2 [[vac; vac]; [vac; vac]] 199.

(** The double 11811160 * 2^-31, about 0.0055, between 0.005f and
    0.005f + 0.001f. *)
Definition d_mid : spec_float := S754_finite false 11811160 (-31).

(** Draws that differ from [const_draws d_eighth] from the fifth on. *)
Definition draws_then_half : nat -> spec_float :=
  fun k => if (k <? 4)%nat then d_eighth else d_half.

(** Three by three with a vaccinated corner and a recovered centre. *)
Definition mixed_3 : t :=
  sample 3 [[vac; sus; sus]; [sus; rec; inf]; [sus; sus; sus]] 5.

(** Draws agree cell by cell on a grid of side [n]. *)
Definition same_draws (n : Z) (d1 d2 : nat -> spec_float) : Prop :=
  forall i j, 0 <= i < n -> 0 <= j < n -> seed_of d1 n i j = seed_of d2 n i j.

(** The number of days a driver advances. *)
Definition count_advances (ops : list op) : Z :=
  Z.of_nat (length (filter (fun o => is_advance o = true) ops)).

(** What the specification asks of an access outside the grid: a failure
    that reports the index, as a checked access ([at]) gives. *)
Definition fails_out_of_bounds {A : Type} (o : outcome A) : Prop :=
  o = Throws out_of_range.

(** What the specification asks of the constructor: it fails exactly on a
    size that is not positive. *)
Definition spec_ctor_fails (n : Z) : Prop :=
  (exists e, ctor n = Throws e) <-> n <= 0.

(** ** The earlier constructor

    The header without [countStates] has
    [Population(int n) : _n(n) { std::vector<Person> vec(n, Person());
    std::vector<std::vector<Person>> _m(n, vec); }]: the grid it builds is a
    local variable of the body, and the member [_m] stays empty. *)
Module Legacy.
Record t : Type := {
  _m : list (list Person.t);
  _n : Z;
  _ri : F32.t;
  _rr : F32.t;
  _rm : F32.t
}.

Definition ctor (n : Z) : outcome t :=
  vec <- Vec.make n Person.ctor ;;
  local_m <- Vec.make n vec ;;
  Ok {| _m := []; _n := n; _ri := ri_default; _rr := rr_default;
        _rm := rm_default |}.

Definition with_m (p : t) (m : list (list Person.t)) : t :=
  {| _m := m; _n := _n p; _ri := _ri p; _rr := _rr p; _rm := _rm p |}.

Definition getPerson (p : t) (i j : Z) : outcome Person.t :=
  Population.cell (_m p) i j.

Definition getState (p : t) (i j : Z) : outcome string :=
  x <- Population.cell (_m p) i j ;; Ok (Person.getState x).

Definition size (p : t) : Z := _n p.

Definition set_sus (p : t) (i j : Z) : outcome t :=
  m <- Population.set_cell (_m p) i j Person.set_sus ;; Ok (with_m p m).
Definition set_inf (p : t) (i j : Z) : outcome t :=
  m <- Population.set_cell (_m p) i j Person.set_inf ;; Ok (with_m p m).
Definition set_rec (p : t) (i j : Z) : outcome t :=
  m <- Population.set_cell (_m p) i j Person.set_rec ;; Ok (with_m p m).
Definition set_vac (p : t) (i j : Z) : outcome t :=
  m <- Population.set_cell (_m p) i j Person.set_vac ;; Ok (with_m p m).

(** The body of the inner loop of the earlier [Update]. Each branch calls
    [dis(gen)] itself, so a cell takes a draw only when one of the three
    tests holds; the draw is a [double] and is compared as such. *)
Definition Update_cell (p : t) (mOld : list (list Person.t))
    (draws : nat -> spec_float) (i j : Z)
    (st : list (list Person.t) * nat) : outcome (list (list Person.t) * nat) :=
  old <- Population.cell mOld i j ;;
  st <- (if String.eqb (Person.getState old) "susceptible" then
           up <- Population.infected_neighbour (i - 1 >=? 0) mOld (i - 1) j ;;
           let sum := if up : bool then 1 else 0 in
           left <- Population.infected_neighbour (j - 1 >=? 0) mOld i (j - 1) ;;
           let sum := if left : bool then sum + 1 else sum in
           down <- Population.infected_neighbour (i + 1 <? _n p) mOld (i + 1) j ;;
           let sum := if down : bool then sum + 1 else sum in
           right <- Population.infected_neighbour (j + 1 <? _n p) mOld i (j + 1) ;;
           let sum := if right : bool then sum + 1 else sum in
           let chance := F32.mul (F32.of_int sum) (_ri p) in
           if SFltb (draws (snd st)) chance then
             m <- Population.set_cell (fst st) i j Person.set_inf ;;
             Ok (m, S (snd st))
           else Ok (fst st, S (snd st))
         else Ok st) ;;
  old <- Population.cell mOld i j ;;
  st <- (if String.eqb (Person.getState old) "infected" then
           if SFltb (draws (snd st)) (_rr p) then
             m <- Population.set_cell (fst st) i j Person.set_rec ;;
             Ok (m, S (snd st))
           else Ok (fst st, S (snd st))
         else Ok st) ;;
  old <- Population.cell mOld i j ;;
  st <- (if String.eqb (Person.getState old) "recovered" then
           if SFltb (draws (snd st)) (_rm p) then
             m <- Population.set_cell (fst st) i j Person.set_sus ;;
             Ok (m, S (snd st))
           else Ok (fst st, S (snd st))
         else Ok st) ;;
  Ok st.

Definition Update (draws : nat -> spec_float) (p : t) : outcome t :=
  let mOld := _m p in
  st <- for_loop (_n p) (fun i st =>
          for_loop (_n p) (fun j st =>
            Update_cell p mOld draws i j st) st)
        (_m p, 0%nat) ;;
  Ok (with_m p (fst st)).
End Legacy.

(** ** Draws of a uniform distribution on [0, 1)

    No value of [dis(gen)] is negative: as a [float] it is never below
    zero. *)
Definition nonneg_draws (draws : nat -> spec_float) : Prop :=
  forall k, F32.ltb (F32.of_double (draws k)) F32.zero = false.

(** Two by two, susceptible and vaccinated cells only, 10 days elapsed. *)
Definition mixed_quiet : t := sample 2 [[sus; vac]; [sus; sus]] 10.

(** The tally [countStates] reports for a state. *)
Definition tally_of (c : Counts) (st : state) : Z :=
  match st with
  | Susceptible => susceptible c
  | Infected => infected c
  | Recovered => recovered c
  | Vaccinated => vaccinated c
  end.

(** ** Rendering

    [sf::Color(r, g, b)], opaque. *)
Module Color.
Record t : Type := { r : Z; g : Z; b : Z }.
End Color.

(** [Population::colorForState]. *)
Definition colorForState (s : string) : Color.t :=
  if String.eqb s "infected" then {| Color.r := 255; Color.g := 182; Color.b := 193 |}
  else if String.eqb s "recovered" then {| Color.r := 173; Color.g := 216; Color.b := 230 |}
  else if String.eqb s "susceptible" then {| Color.r := 255; Color.g := 239; Color.b := 186 |}
  else if String.eqb s "vaccinated" then {| Color.r := 152; Color.g := 251; Color.b := 152 |}
  else {| Color.r := 240; Color.g := 240; Color.b := 240 |}.

(** The fallback of [colorForState], light gray. *)
Definition gray : Color.t := {| Color.r := 240; Color.g := 240; Color.b := 240 |}.

(** [sf::RectangleShape] as far as [draw] sets it, and what a window
    receives. *)
Record RectangleShape : Type := {
  shape_size : F32.t * F32.t;
  shape_position : F32.t * F32.t;
  shape_fill : Color.t
}.

Inductive render : Type :=
| Clear (c : Color.t)
| Draw (shape : RectangleShape).

Definition setPosition (c : RectangleShape) (xy : F32.t * F32.t) : RectangleShape :=
  {| shape_size := shape_size c; shape_position := xy; shape_fill := shape_fill c |}.

Definition setFillColor (c : RectangleShape) (col : Color.t) : RectangleShape :=
  {| shape_size := shape_size c; shape_position := shape_position c;
     shape_fill := col |}.

(** [sf::RectangleShape cell({cellSize, cellSize})]: at the origin, white. *)
Definition new_cell (cellSize : F32.t) : RectangleShape :=
  {| shape_size := (cellSize, cellSize);
     shape_position := (F32.zero, F32.zero);
     shape_fill := {| Color.r := 255; Color.g := 255; Color.b := 255 |} |}.

(** [Population::draw(window, cellSize, gap)]: the window is the list of
    what it has received; the one shape [cell] is moved and recoloured for
    every cell of the grid. *)
Definition draw (p : t) (window : list render) (cellSize gap : F32.t)
  : outcome (list render) :=
  let window :=
    window ++ [Clear {| Color.r := 40; Color.g := 40; Color.b := 40 |}] in
  st <- for_loop (_n p) (fun i st =>
          for_loop (_n p) (fun j (st : list render * RectangleShape) =>
            let x := F32.add gap (F32.mul (F32.of_int j) (F32.add cellSize gap)) in
            let y := F32.add gap (F32.mul (F32.of_int i) (F32.add cellSize gap)) in
            let cell0 := setPosition (snd st) (x, y) in
            person <- cell (_m p) i j ;;
            let cell1 :=
              setFillColor cell0 (colorForState (Person.getState person)) in
            Ok (fst st ++ [Draw cell1], cell1)) st)
        (window, new_cell cellSize) ;;
  Ok (fst st).

(** The shape [draw] sends for the cell [(i, j)] in state [s]. *)
Definition cell_shape (cellSize gap : F32.t) (i j : Z) (s : string)
  : RectangleShape :=
  {| shape_size := (cellSize, cellSize);
     shape_position :=
       (F32.add gap (F32.mul (F32.of_int j) (F32.add cellSize gap)),
        F32.add gap (F32.mul (F32.of_int i) (F32.add cellSize gap)));
     shape_fill := colorForState s |}.

(** ** The driver of main.cpp *)
Module Main.

(** The lambda [stateColor] of [drawLegend]. *)
Definition stateColor (s : string) : Color.t :=
  if String.eqb s "infected" then {| Color.r := 255; Color.g := 182; Color.b := 193 |}
  else if String.eqb s "recovered" then {| Color.r := 173; Color.g := 216; Color.b := 230 |}
  else if String.eqb s "susceptible" then {| Color.r := 255; Color.g := 239; Color.b := 186 |}
  else if String.eqb s "vaccinated" then {| Color.r := 152; Color.g := 251; Color.b := 152 |}
  else {| Color.r := 240; Color.g := 240; Color.b := 240 |}.

Definition gridSize : Z := 30.
Definition maxSteps : Z := 1000.
(** [cellSize = 20.f] and [gap = 1.f]. *)
Definition cellSize : F32.t := F32.of_int 20.
Definition gap : F32.t := F32.of_int 1.

Definition newline : string := String (Ascii.ascii_of_nat 10) EmptyString.

(** [out << k] for an [int]. *)
Definition put_int (k : Z) : string := pretty k.

(** [out << std::setw(w) << std::setfill(c) << k]: filled on the left up to
    [w] characters. *)
Definition put_int_padded (w : nat) (c : Ascii.ascii) (k : Z) : string :=
  String.append
    (string_of_list_ascii (replicate (w - String.length (put_int k)) c))
    (put_int k).

Definition csv_header : string :=
  String.append "step,susceptible,infected,recovered,vaccinated" newline.

(** [csv << step << ',' << c.susceptible << ',' << c.infected << ','
    << c.recovered << ',' << c.vaccinated << newline]. *)
Definition csv_row (step : Z) (c : Counts) : string :=
  String.concat ","
    [put_int step; put_int (susceptible c); put_int (infected c);
     put_int (recovered c); String.append (put_int (vaccinated c)) newline].

(** [name << "frame_" << std::setw(4) << std::setfill('0') << step
    << ".png"]. *)
Definition frame_name (step : Z) : string :=
  String.append "frame_"
    (String.append (put_int_padded 4 (Ascii.ascii_of_nat 48) step) ".png").

(** What the loop of [main] carries from one iteration to the next: the
    population, the step, the text written to the CSV stream (taken to have
    opened), the flag, and the names under which frames have been written
    so far, whether or not the file system accepted them. *)
Record sim : Type := {
  pop : t;
  step : Z;
  csv : string;
  shouldSaveFrame : bool;
  frames : list string
}.

(** From the construction of the population to the loop: three cells are
    infected, the header and the row of step 0 are written. *)
Definition start : outcome sim :=
  pop <- ctor gridSize ;;
  pop <- set_inf pop 15 15 ;;
  pop <- set_inf pop 15 16 ;;
  pop <- set_inf pop 16 15 ;;
  c0 <- countStates pop ;;
  Ok {| pop := pop; step := 0;
        csv := String.append csv_header (csv_row 0 c0);
        shouldSaveFrame := true; frames := [] |}.

(** One iteration of [while (window.isOpen())]. [elapsed] is what
    [stepClock.getElapsedTime().asSeconds() >= stepSeconds] gives in this
    iteration and [draws] the values of the generator if [Update] is
    called; the events of the window only decide whether there is a next
    iteration. The drawing calls are kept for their outcome. *)
Definition iteration (elapsed : bool) (draws : nat -> spec_float) (s : sim)
  : outcome sim :=
  s <- (if (step s <? maxSteps) && elapsed then
          pop <- Update draws (pop s) ;;
          let step := Int.incr (step s) in
          c <- countStates pop ;;
          Ok {| pop := pop; step := step;
                csv := String.append (csv s) (csv_row step c);
                shouldSaveFrame := true; frames := frames s |}
        else Ok s) ;;
  _ <- draw (pop s) [] cellSize gap ;;
  _ <- countStates (pop s) ;;
  if shouldSaveFrame s then
    Ok {| pop := pop s; step := step s; csv := csv s;
          shouldSaveFrame := false;
          frames := frames s ++ [frame_name (step s)] |}
  else Ok s.

(** The iterations of a run of the loop, each with its clock reading and
    draws. *)
Fixpoint iterations (its : list (bool * (nat -> spec_float))) (s : sim)
  : outcome sim :=
  match its with
  | [] => Ok s
  | (elapsed, draws) :: rest =>
      s' <- iteration elapsed draws s ;; iterations rest s'
  end.

End Main.

(** The shapes [draw] sends for a row and for a grid, in the order it sends
    them. *)
Definition row_shapes (cellSize gap : F32.t) (i : nat) (row : list Person.t)
  : list RectangleShape :=
  imap (fun j person =>
          cell_shape cellSize gap (Z.of_nat i) (Z.of_nat j)
            (Person.getState person)) row.

Definition grid_shapes (cellSize gap : F32.t) (m : grid)
  : list RectangleShape :=
  concat (imap (row_shapes cellSize gap) m).

(** The iterations of the loop in which the clock has run out. *)
Definition elapsed_count (its : list (bool * (nat -> spec_float))) : Z :=
  Z.of_nat (length (filter (fun it => fst it = true) its)).

(** Pieces of text one after the other. *)
Definition text_of (pieces : list string) : string :=
  fold_right String.append EmptyString pieces.

Definition row_total (c : Counts) : Z :=
  susceptible c + infected c + recovered c + vaccinated c.

(** What holds of the loop's state between iterations. *)
Definition Main_ok (s : Main.sim) : Prop :=
  inv (Main.pop s) /\ _n (Main.pop s) = Main.gridSize /\
  0 <= Main.step s <= Main.maxSteps /\ _t (Main.pop s) = Main.step s.

(** The rows written so far are those of the steps 0 to [step], each with
    tallies of the whole grid. *)
Definition Csv_ok (s : Main.sim) : Prop :=
  exists cs : list Counts,
    Z.of_nat (length cs) = Main.step s + 1 /\
    Main.csv s =
      String.append Main.csv_header
        (text_of (imap (fun k c => Main.csv_row (Z.of_nat k) c) cs)) /\
    Forall (fun c => row_total c = Main.gridSize * Main.gridSize /\
                     0 <= susceptible c /\ 0 <= infected c /\
                     0 <= recovered c /\ 0 <= vaccinated c) cs.

(** The frames saved so far are those of the steps [first] to [step], once
    each, and none is pending. *)
Definition Frames_ok (first : Z) (s : Main.sim) : Prop :=
  Main.shouldSaveFrame s = false /\ first <= Main.step s /\
  Main.frames s =
    map Main.frame_name (seqZ first (Main.step s - first + 1)).

(** Whether each string of a list is below the next in the order of
    [std::string]. *)
Fixpoint increasing (l : list string) : bool :=
  match l with
  | a :: ((b :: _) as rest) => String.ltb a b && increasing rest
  | _ => true
  end.

(** ** The seeding of the other driver

    The [main] that starts from a random outbreak: every cell of the block
    of rows and columns [start] to [end - 1] is infected when its draw, a
    [float] of a uniform distribution, is below [infectionProbability]. *)
Module Outbreak.
Definition gridSize : Z := 100.
(** [0.75], exact as a [float]. *)
Definition infectionProbability : F32.t := F32.lit 12582912 (-24).

Definition seed_block (start end_ : Z) (draws : nat -> F32.t) (p : t)
  : outcome (t * nat) :=
  for_range start (Z.to_nat (end_ - start)) (fun i st =>
    for_range start (Z.to_nat (end_ - start)) (fun j (st : t * nat) =>
      if F32.ltb (draws (snd st)) infectionProbability then
        pop <- set_inf (fst st) i j ;; Ok (pop, S (snd st))
      else Ok (fst st, S (snd st))) st)
    (p, 0%nat).

(** [Population pop(gridSize)] and the two loops with [start = 25] and
    [end = 75]. *)
Definition seeded (draws : nat -> F32.t) : outcome t :=
  pop <- ctor gridSize ;;
  st <- seed_block 25 75 draws pop ;;
  Ok (fst st).

(** The draw the cell [(i, j)] of the block receives. *)
Definition draw_of (start end_ : Z) (draws : nat -> F32.t) (i j : Z) : F32.t :=
  draws (Z.to_nat ((i - start) * (end_ - start) + (j - start))).

Definition in_block (start end_ i j : Z) : bool :=
  (start <=? i) && (i <? end_) && (start <=? j) && (j <? end_).

(** The cells infected once the loops have done [a] rows of the block and
    [b] cells of the next row. *)
Definition marked (start end_ : Z) (draws : nat -> F32.t) (a b i j : Z)
  : bool :=
  in_block start end_ i j
  && ((i - start <? a) || ((i - start =? a) && (j - start <? b)))
  && F32.ltb (draw_of start end_ draws i j) infectionProbability.
End Outbreak.

(** ** Proof steps *)

(** Case analysis on the comparisons of a state string with literals. *)
Ltac string_cases s :=
  repeat match goal with
  | |- context [String.eqb s ?k] =>
      destruct (String.eqb_spec s k); [subst s |]
  end.

(** The class invariant of a population given as a literal. *)
Ltac solve_wf :=
  split; [vm_compute; discriminate | split; [reflexivity | repeat constructor]].

(** * Properties *)

(** ** Integers *)

Lemma wrap_in_range z : Int.in_range z -> Int.wrap z = z.
Proof.
  unfold Int.in_range, Int.INT_MIN, Int.INT_MAX, Int.wrap. intros Hz.
  rewrite Z.mod_small by lia. lia.
Qed.

Lemma wrap_plus_1 z : Int.wrap (Int.wrap z + 1) = Int.wrap (z + 1).
Proof.
  unfold Int.wrap.
  replace ((z + 2147483648) mod 4294967296 - 2147483648 + 1 + 2147483648)
    with ((z + 2147483648) mod 4294967296 + 1) by lia.
  replace (z + 1 + 2147483648) with (z + 2147483648 + 1) by lia.
  now rewrite Zplus_mod_idemp_l.
Qed.

Lemma incr_in_range z : Int.INT_MIN <= z < Int.INT_MAX -> Int.incr z = z + 1.
Proof.
  intros Hz. unfold Int.incr, Int.add. apply wrap_in_range.
  unfold Int.in_range, Int.INT_MIN, Int.INT_MAX in *. lia.
Qed.

(** ** Loops *)

(** The invariant rule: an invariant indexed by the number of completed
    iterations that every iteration re-establishes holds when the loop
    ends, and the loop does end with a value. *)
Lemma for_range_inv {S : Type} (I : nat -> S -> Prop) (count : nat) :
  forall (lo : Z) (body : Z -> S -> outcome S) (s : S),
    I 0%nat s ->
    (forall (k : nat) (s1 : S), (k < count)%nat -> I k s1 ->
       exists s2, body (lo + Z.of_nat k) s1 = Ok s2 /\ I (Datatypes.S k) s2) ->
    exists s', for_range lo count body s = Ok s' /\ I count s'.
Proof.
  revert I. induction count as [|c IH]; intros I lo body s H0 Hstep.
  - exists s. split; [reflexivity | exact H0].
  - destruct (Hstep 0%nat s ltac:(lia) H0) as (s1 & Hb & H1).
    rewrite Z.add_0_r in Hb. cbn [for_range]. rewrite Hb. cbn [bind].
    apply (IH (fun k => I (Datatypes.S k))); [exact H1 |].
    intros k s2 Hk Hs2.
    destruct (Hstep (Datatypes.S k) s2 ltac:(lia) Hs2) as (s3 & Hb3 & H3).
    exists s3. split; [| exact H3].
    rewrite <- Hb3. f_equal. lia.
Qed.

Lemma for_loop_inv {S : Type} (I : nat -> S -> Prop) (n : Z)
    (body : Z -> S -> outcome S) (s : S) :
  I 0%nat s ->
  (forall (k : nat) (s1 : S), (k < Z.to_nat n)%nat -> I k s1 ->
     exists s2, body (Z.of_nat k) s1 = Ok s2 /\ I (Datatypes.S k) s2) ->
  exists s', for_loop n body s = Ok s' /\ I (Z.to_nat n) s'.
Proof.
  intros H0 Hstep. unfold for_loop. apply for_range_inv; [exact H0 |].
  intros k s1 Hk Hs1. rewrite Z.add_0_l. now apply Hstep.
Qed.

(** ** Vectors *)

Lemma index_Ok {A : Type} (v : list A) (k : nat) (x : A) :
  v !! k = Some x -> Vec.index v (Z.of_nat k) = Ok x.
Proof.
  intros H. unfold Vec.index.
  destruct (Z.leb_spec 0 (Z.of_nat k)); [| lia].
  now rewrite Nat2Z.id, H.
Qed.

Lemma index_Ok_inv {A : Type} (v : list A) (i : Z) (x : A) :
  Vec.index v i = Ok x -> 0 <= i /\ v !! Z.to_nat i = Some x.
Proof.
  unfold Vec.index. destruct (Z.leb_spec 0 i); [| discriminate].
  destruct (v !! Z.to_nat i) eqn:E; [| discriminate].
  intros [= ->]. auto.
Qed.

Lemma index_out_of_range {A : Type} (v : list A) (i : Z) :
  i < 0 \/ Z.of_nat (length v) <= i -> Vec.index v i = Undefined.
Proof.
  intros H. unfold Vec.index. destruct (Z.leb_spec 0 i); [| reflexivity].
  rewrite lookup_ge_None_2; [reflexivity | lia].
Qed.

(** ** Grids *)

Lemma dims_lookup n (m : grid) a row :
  dims n m -> m !! a = Some row -> length row = n.
Proof.
  intros [_ Hrows] Ha. rewrite Forall_lookup in Hrows. exact (Hrows a row Ha).
Qed.

Lemma dims_at2 n (m : grid) a b :
  dims n m -> (a < n)%nat -> (b < n)%nat -> exists x, at2 m a b = Some x.
Proof.
  intros Hd Ha Hb. unfold at2.
  destruct (lookup_lt_is_Some_2 m a) as [row Hrow]; [destruct Hd; lia |].
  rewrite Hrow. apply lookup_lt_is_Some_2.
  rewrite (dims_lookup n m a row Hd Hrow). exact Hb.
Qed.

Lemma at2_bounds n (m : grid) a b x :
  dims n m -> at2 m a b = Some x -> (a < n)%nat /\ (b < n)%nat.
Proof.
  intros Hd. unfold at2. destruct (m !! a) as [row|] eqn:Hrow; [| discriminate].
  intros Hb. split.
  - apply lookup_lt_Some in Hrow. destruct Hd. lia.
  - apply lookup_lt_Some in Hb. now rewrite (dims_lookup n m a row Hd Hrow) in Hb.
Qed.

Lemma cell_Ok (m : grid) a b x :
  at2 m a b = Some x -> cell m (Z.of_nat a) (Z.of_nat b) = Ok x.
Proof.
  unfold at2, cell. destruct (m !! a) as [row|] eqn:Hrow; [| discriminate].
  intros Hb. rewrite (index_Ok m a row Hrow). cbn [bind]. now apply index_Ok.
Qed.

Lemma cell_Ok_inv (m : grid) i j x :
  cell m i j = Ok x ->
  0 <= i /\ 0 <= j /\ at2 m (Z.to_nat i) (Z.to_nat j) = Some x.
Proof.
  unfold cell, at2. destruct (Vec.index m i) as [row| |] eqn:Hi; try discriminate.
  cbn [bind]. intros Hj.
  apply index_Ok_inv in Hi as [Hi0 Hi]. apply index_Ok_inv in Hj as [Hj0 Hj].
  now rewrite Hi.
Qed.

Lemma cell_out_of_range n (m : grid) i j :
  dims n m ->
  i < 0 \/ Z.of_nat n <= i \/ j < 0 \/ Z.of_nat n <= j ->
  cell m i j = Undefined.
Proof.
  intros Hd Hout. unfold cell.
  destruct (Vec.index m i) as [row| |] eqn:Hi; try reflexivity.
  - cbn [bind]. apply index_Ok_inv in Hi as [Hi0 Hi].
    pose proof (dims_lookup n m _ row Hd Hi) as Hlen.
    apply lookup_lt_Some in Hi. destruct Hd as [Hlm _].
    apply index_out_of_range. lia.
  - exfalso. unfold Vec.index in Hi.
    destruct (0 <=? i); [destruct (m !! Z.to_nat i) |]; discriminate.
Qed.

Lemma set_cell_Ok n (m : grid) a b x f :
  dims n m -> at2 m a b = Some x ->
  exists m', set_cell m (Z.of_nat a) (Z.of_nat b) f = Ok m' /\ dims n m' /\
    at2 m' a b = Some (f x) /\
    forall a' b', (a', b') <> (a, b) -> at2 m' a' b' = at2 m a' b'.
Proof.
  intros Hd Hx. unfold at2 in Hx.
  destruct (m !! a) as [row|] eqn:Hrow; [| discriminate].
  exists (<[a := <[b := f x]> row]> m). repeat split.
  - unfold set_cell, Vec.modify. rewrite (index_Ok m a row Hrow). cbn [bind].
    rewrite (index_Ok row b x Hx). cbn [bind]. now rewrite !Nat2Z.id.
  - rewrite length_insert. apply Hd.
  - apply Forall_insert; [apply Hd |]. rewrite length_insert.
    exact (dims_lookup n m a row Hd Hrow).
  - unfold at2. rewrite list_lookup_insert_eq by (eapply lookup_lt_Some; eauto).
    apply list_lookup_insert_eq. eapply lookup_lt_Some; eauto.
  - intros a' b' Hne. unfold at2.
    destruct (decide (a' = a)) as [->|Ha].
    + rewrite list_lookup_insert_eq by (eapply lookup_lt_Some; eauto).
      rewrite Hrow. apply list_lookup_insert_ne. congruence.
    + now rewrite list_lookup_insert_ne by congruence.
Qed.

Lemma grid_ext n (m1 m2 : grid) :
  dims n m1 -> dims n m2 ->
  (forall a b, (a < n)%nat -> (b < n)%nat -> at2 m1 a b = at2 m2 a b) ->
  m1 = m2.
Proof.
  intros Hd1 Hd2 Heq. apply list_eq. intros a.
  destruct (decide (a < n)%nat) as [Ha|Ha].
  - destruct (lookup_lt_is_Some_2 m1 a) as [r1 Hr1]; [destruct Hd1; lia |].
    destruct (lookup_lt_is_Some_2 m2 a) as [r2 Hr2]; [destruct Hd2; lia |].
    rewrite Hr1, Hr2. f_equal. apply list_eq. intros b.
    destruct (decide (b < n)%nat) as [Hb|Hb].
    + specialize (Heq a b Ha Hb). unfold at2 in Heq. now rewrite Hr1, Hr2 in Heq.
    + rewrite !lookup_ge_None_2; [reflexivity | |].
      * rewrite (dims_lookup n m2 a r2 Hd2 Hr2). lia.
      * rewrite (dims_lookup n m1 a r1 Hd1 Hr1). lia.
  - rewrite !lookup_ge_None_2; [reflexivity | |]; [destruct Hd2 | destruct Hd1]; lia.
Qed.

(** ** Counting *)

Lemma count_list_snoc l x :
  count_list (l ++ [x]) = count_one (Person.getState x) (count_list l).
Proof. unfold count_list. now rewrite fold_left_app. Qed.

Lemma fold_count_take (row : list Person.t) (j : nat) x c0 :
  row !! j = Some x ->
  fold_left (fun c y => count_one (Person.getState y) c) (take (S j) row) c0 =
  count_one (Person.getState x)
    (fold_left (fun c y => count_one (Person.getState y) c) (take j row) c0).
Proof. intros Hx. rewrite (take_S_r row j x Hx). now rewrite fold_left_app. Qed.

Lemma count_list_app l1 l2 :
  count_list (l1 ++ l2) =
  fold_left (fun c y => count_one (Person.getState y) c) l2 (count_list l1).
Proof. unfold count_list. now rewrite fold_left_app. Qed.

(** [countStates] returns on every square grid, with the tallies of the
    cells taken row by row. *)
Lemma countStates_count_list p :
  wf p -> countStates p = Ok (count_list (concat (_m p))).
Proof.
  intros [Hn Hd]. unfold countStates.
  destruct (for_loop_inv
    (fun i c => c = count_list (concat (take i (_m p)))) (_n p)
    (fun i c => for_loop (_n p) (fun j c =>
       x <- cell (_m p) i j ;; Ok (count_one (Person.getState x) c)) c)
    Counts_zero) as (c & Hc & Hinv).
  - reflexivity.
  - intros i c Hi ->.
    destruct (lookup_lt_is_Some_2 (_m p) i) as [row Hrow]; [destruct Hd; lia |].
    pose proof (dims_lookup _ _ _ _ Hd Hrow) as Hlen.
    destruct (for_loop_inv
      (fun j c => c = fold_left (fun c y => count_one (Person.getState y) c)
                        (take j row) (count_list (concat (take i (_m p)))))
      (_n p)
      (fun j c => x <- cell (_m p) (Z.of_nat i) j ;;
                  Ok (count_one (Person.getState x) c))
      (count_list (concat (take i (_m p))))) as (c' & Hc' & Hinv').
    + reflexivity.
    + intros j c Hj ->.
      destruct (lookup_lt_is_Some_2 row j) as [x Hx]; [lia |].
      exists (count_one (Person.getState x)
                (fold_left (fun c y => count_one (Person.getState y) c)
                   (take j row) (count_list (concat (take i (_m p)))))).
      split.
      * rewrite (cell_Ok (_m p) i j x); [reflexivity |].
        unfold at2. now rewrite Hrow.
      * symmetry. now apply fold_count_take.
    + exists c'. split; [exact Hc' |].
      rewrite Hinv'. rewrite (take_S_r _ _ _ Hrow), concat_app, count_list_app.
      cbn [concat]. rewrite app_nil_r.
      now rewrite take_ge by lia.
  - rewrite Hc. f_equal. rewrite Hinv. f_equal. f_equal.
    apply take_ge. destruct Hd. lia.
Qed.

Lemma tally_snoc s l x :
  tally s (l ++ [x]) =
  tally s l + (if decide (Person.getState x = s) then 1 else 0).
Proof.
  unfold tally. rewrite filter_app, length_app.
  cbn [filter list_filter]. destruct (decide (Person.getState x = s)); cbn [length]; lia.
Qed.

Lemma tally_nonneg s l : 0 <= tally s l.
Proof. unfold tally. lia. Qed.

Lemma tally_le_length s l : tally s l <= Z.of_nat (length l).
Proof. unfold tally. pose proof (length_filter (fun x => Person.getState x = s) l). lia. Qed.

Lemma count_one_fields s c :
  susceptible (count_one s c) =
    (if decide (s = "susceptible"%string) then Int.incr (susceptible c) else susceptible c) /\
  infected (count_one s c) =
    (if decide (s = "infected"%string) then Int.incr (infected c) else infected c) /\
  recovered (count_one s c) =
    (if decide (s = "recovered"%string) then Int.incr (recovered c) else recovered c) /\
  vaccinated (count_one s c) =
    (if decide (s = "vaccinated"%string) then Int.incr (vaccinated c) else vaccinated c).
Proof.
  unfold count_one. string_cases s; cbn;
    repeat match goal with |- context [decide ?P] => destruct (decide P) end;
    try congruence; auto.
Qed.

(** Each tally is the number of cells in that state, reduced to [int]. *)
Lemma count_list_tally l :
  susceptible (count_list l) = Int.wrap (tally "susceptible" l) /\
  infected (count_list l) = Int.wrap (tally "infected" l) /\
  recovered (count_list l) = Int.wrap (tally "recovered" l) /\
  vaccinated (count_list l) = Int.wrap (tally "vaccinated" l).
Proof.
  induction l as [|x l IH] using rev_ind.
  - repeat split.
  - destruct IH as (Hs & Hi & Hr & Hv).
    rewrite count_list_snoc, !tally_snoc.
    destruct (count_one_fields (Person.getState x) (count_list l))
      as (Es & Ei & Er & Ev).
    rewrite Es, Ei, Er, Ev, Hs, Hi, Hr, Hv. unfold Int.incr, Int.add.
    repeat split;
      match goal with |- context [decide ?P] => destruct (decide P) end;
      rewrite ?wrap_plus_1, ?Z.add_0_r; reflexivity.
Qed.

Lemma tally_total l :
  Forall (fun x => known (Person.getState x)) l ->
  tally "susceptible" l + tally "infected" l +
  tally "recovered" l + tally "vaccinated" l = Z.of_nat (length l).
Proof.
  induction l as [|x l IH] using rev_ind; [reflexivity |].
  intros Hk. apply Forall_app in Hk as [Hl Hx].
  specialize (IH Hl). rewrite Forall_singleton in Hx.
  rewrite !tally_snoc, length_app. cbn [length].
  unfold known in Hx. destruct Hx as [E | [E | [E | E]]]; rewrite E;
    repeat match goal with |- context [decide ?P] => destruct (decide P) end;
    try discriminate; try congruence; lia.
Qed.

Lemma length_concat_rows k (m : grid) :
  Forall (fun row => length row = k) m ->
  length (concat m) = (length m * k)%nat.
Proof.
  induction 1 as [|row rest Hrow _ IH]; [reflexivity |].
  cbn [concat length]. rewrite length_app, IH, Hrow. lia.
Qed.

Lemma length_concat_dims n (m : grid) :
  dims n m -> length (concat m) = (n * n)%nat.
Proof.
  intros [Hlen Hrows]. rewrite (length_concat_rows n m Hrows). now rewrite Hlen.
Qed.

(** ** One cell of a step *)

Lemma infected_at_out n (m : grid) i j :
  dims n m -> ~ (0 <= i < Z.of_nat n /\ 0 <= j < Z.of_nat n) ->
  infected_at m i j = false.
Proof.
  intros Hd Hout. unfold infected_at.
  destruct (Z.leb_spec 0 i); [| reflexivity].
  destruct (Z.leb_spec 0 j); [| reflexivity]. cbn [andb].
  destruct (at2 m (Z.to_nat i) (Z.to_nat j)) as [x|] eqn:Hx; [| reflexivity].
  apply (at2_bounds n) in Hx; [| exact Hd]. lia.
Qed.

Lemma infected_neighbour_spec n (mOld : grid) (guard : bool) i j :
  dims n mOld ->
  (guard = true <-> 0 <= i < Z.of_nat n /\ 0 <= j < Z.of_nat n) ->
  infected_neighbour guard mOld i j = Ok (infected_at mOld i j).
Proof.
  intros Hd Hg. unfold infected_neighbour. destruct guard.
  - destruct Hg as [Hg _]. specialize (Hg eq_refl) as [Hi Hj].
    destruct (dims_at2 n mOld (Z.to_nat i) (Z.to_nat j) Hd) as [x Hx]; [lia | lia |].
    pose proof (cell_Ok _ _ _ _ Hx) as Hc. rewrite !Z2Nat.id in Hc by lia.
    rewrite Hc. cbn [bind]. unfold infected_at.
    destruct (Z.leb_spec 0 i); [| lia]. destruct (Z.leb_spec 0 j); [| lia].
    cbn [andb]. now rewrite Hx.
  - rewrite (infected_at_out n); [reflexivity | exact Hd |].
    intros H. apply Hg in H. discriminate.
Qed.

(** A conditional write to the cell [(a, b)]. *)
Lemma set_cell_if n (m : grid) a b x (c : bool) f :
  dims n m -> at2 m a b = Some x ->
  exists m',
    (if c then set_cell m (Z.of_nat a) (Z.of_nat b) f else Ok m) = Ok m' /\
    dims n m' /\
    at2 m' a b = Some (if c then f x else x) /\
    forall a' b', (a', b') <> (a, b) -> at2 m' a' b' = at2 m a' b'.
Proof.
  intros Hd Hx. destruct c.
  - now apply set_cell_Ok.
  - exists m. auto.
Qed.

(** The loop body writes the cell it visits, and no other, with the state
    [next_person] gives; it takes one draw. *)
Lemma Update_cell_spec (p : t) (allow : bool) (mOld m : grid)
    (draws : nat -> spec_float) (a b k : nat) (old : Person.t) :
  0 <= _n p ->
  dims (Z.to_nat (_n p)) mOld -> dims (Z.to_nat (_n p)) m ->
  at2 mOld a b = Some old -> at2 m a b = Some old ->
  exists m',
    Update_cell p allow mOld draws (Z.of_nat a) (Z.of_nat b) (m, k)
      = Ok (m', S k) /\
    dims (Z.to_nat (_n p)) m' /\
    at2 m' a b =
      Some (next_person p (_t p) allow
              (infected_neighbours mOld (Z.of_nat a) (Z.of_nat b))
              (F32.of_double (draws k)) old) /\
    forall a' b', (a', b') <> (a, b) -> at2 m' a' b' = at2 m a' b'.
Proof.
  intros Hn HdOld Hd HOld Hm.
  destruct (at2_bounds _ _ _ _ _ HdOld HOld) as [Ha Hb].
  set (i := Z.of_nat a). set (j := Z.of_nat b).
  set (seed := F32.of_double (draws k)).
  assert (infected_neighbour (i - 1 >=? 0) mOld (i - 1) j
          = Ok (infected_at mOld (i - 1) j)) as Hup.
  { apply (infected_neighbour_spec (Z.to_nat (_n p))); [exact HdOld |].
    rewrite Z.geb_le. subst i j. lia. }
  assert (infected_neighbour (j - 1 >=? 0) mOld i (j - 1)
          = Ok (infected_at mOld i (j - 1))) as Hleft.
  { apply (infected_neighbour_spec (Z.to_nat (_n p))); [exact HdOld |].
    rewrite Z.geb_le. subst i j. lia. }
  assert (infected_neighbour (i + 1 <? _n p) mOld (i + 1) j
          = Ok (infected_at mOld (i + 1) j)) as Hdown.
  { apply (infected_neighbour_spec (Z.to_nat (_n p))); [exact HdOld |].
    rewrite Z.ltb_lt. subst i j. lia. }
  assert (infected_neighbour (j + 1 <? _n p) mOld i (j + 1)
          = Ok (infected_at mOld i (j + 1))) as Hright.
  { apply (infected_neighbour_spec (Z.to_nat (_n p))); [exact HdOld |].
    rewrite Z.ltb_lt. subst i j. lia. }
  pose proof (cell_Ok mOld a b old HOld) as Hcell. fold i j in Hcell.
  unfold Update_cell. cbn [fst snd]. fold i j seed.
  rewrite Hcell. cbn [bind].
  unfold next_person. fold seed.
  destruct (String.eqb_spec (Person.getState old) "susceptible") as [Es|Es].
  - rewrite Hup. cbn [bind]. rewrite Hleft. cbn [bind].
    rewrite Hdown. cbn [bind]. rewrite Hright. cbn [bind].
    set (sum := if infected_at mOld i (j + 1) then _ else _).
    assert (sum = infected_neighbours mOld i j) as ->.
    { subst sum. unfold infected_neighbours.
      destruct (infected_at mOld (i - 1) j), (infected_at mOld i (j - 1)),
        (infected_at mOld (i + 1) j), (infected_at mOld i (j + 1)); reflexivity. }
    set (chance_inf := F32.mul _ _).
    rewrite Es. cbn [String.eqb Ascii.eqb Bool.eqb].
    destruct (F32.ltb seed chance_inf).
    + destruct (set_cell_Ok _ m a b old Person.set_inf Hd Hm)
        as (m' & Hs & Hd' & Hab & Hother).
      fold i j in Hs. rewrite Hs. cbn [bind]. eauto 10.
    + destruct ((_t p >=? _tv p) && allow) eqn:Egate; cbn [andb].
      * destruct (set_cell_if _ m a b old
                    (F32.ltb chance_inf seed
                     && F32.ltb seed (F32.add chance_inf (_rv p)))
                    Person.set_vac Hd Hm) as (m' & Hs & Hd' & Hab & Hother).
        fold i j in Hs. rewrite Hs. cbn [bind]. eauto 10.
      * cbn [bind]. eauto 10.
  - cbn [bind].
    destruct (String.eqb_spec (Person.getState old) "infected") as [Ei|Ei].
    + destruct (set_cell_if _ m a b old (F32.ltb seed (_rr p))
                  Person.set_rec Hd Hm) as (m' & Hs & Hd' & Hab & Hother).
      fold i j in Hs. rewrite Hs. cbn [bind].
      rewrite Ei. cbn [String.eqb Ascii.eqb Bool.eqb bind]. eauto 10.
    + cbn [bind].
      destruct (String.eqb_spec (Person.getState old) "recovered") as [Er|Er];
        [| cbn [bind]; eauto 10].
      destruct (F32.ltb seed (_rm p)).
      * destruct (set_cell_Ok _ m a b old Person.set_sus Hd Hm)
          as (m' & Hs & Hd' & Hab & Hother).
        fold i j in Hs. rewrite Hs. cbn [bind]. eauto 10.
      * destruct ((_t p >? _tv p) && allow) eqn:Egate; cbn [andb].
        -- destruct (set_cell_if _ m a b old
                      (F32.ltb (_rm p) seed
                       && F32.ltb seed (F32.add (_rm p) (_rv p)))
                      Person.set_vac Hd Hm) as (m' & Hs & Hd' & Hab & Hother).
           fold i j in Hs. rewrite Hs. cbn [bind]. eauto 10.
        -- cbn [bind]. eauto 10.
Qed.

(** ** One step *)

Lemma draw_index (n : Z) (a b : nat) :
  0 <= n -> Z.to_nat (Z.of_nat a * n + Z.of_nat b) = (a * Z.to_nat n + b)%nat.
Proof.
  intros Hn. rewrite <- (Z2Nat.id n) at 1 by exact Hn.
  rewrite <- Nat2Z.inj_mul, <- Nat2Z.inj_add. apply Nat2Z.id.
Qed.

(** The two loops of [Update], started on a copy [mOld] of the grid, end
    with every cell rewritten from [mOld] and one draw taken per cell, row
    by row. *)
Lemma Update_loops_spec (p : t) (allow : bool) (draws : nat -> spec_float)
    (mOld : grid) :
  0 <= _n p -> dims (Z.to_nat (_n p)) mOld ->
  exists m',
    for_loop (_n p) (fun i st =>
      for_loop (_n p) (fun j st =>
        Update_cell p allow mOld draws i j st) st) (mOld, 0%nat)
      = Ok (m', (Z.to_nat (_n p) * Z.to_nat (_n p))%nat) /\
    dims (Z.to_nat (_n p)) m' /\
    forall a b, (a < Z.to_nat (_n p))%nat -> (b < Z.to_nat (_n p))%nat ->
      at2 m' a b = next_at p (_t p) allow draws mOld a b.
Proof.
  intros Hn HdOld. set (n := Z.to_nat (_n p)) in *.
  set (new := next_at p (_t p) allow draws mOld).
  destruct (for_loop_inv
    (fun i (st : grid * nat) =>
       snd st = (i * n)%nat /\ dims n (fst st) /\
       forall a b, (a < n)%nat -> (b < n)%nat ->
         at2 (fst st) a b = if (a <? i)%nat then new a b else at2 mOld a b)
    (_n p)
    (fun i st => for_loop (_n p) (fun j st =>
       Update_cell p allow mOld draws i j st) st)
    (mOld, 0%nat)) as ([m' k'] & Hrun & Hk & Hd' & Hcells).
  - cbn [fst snd]. split; [lia |]. split; [exact HdOld |].
    intros a b _ _. destruct (Nat.ltb_spec a 0); [lia | reflexivity].
  - intros i [m k] Hi (Hk & Hd & Hcells). cbn [fst snd] in Hk, Hd, Hcells.
    fold n in Hi.
    destruct (for_loop_inv
      (fun j (st : grid * nat) =>
         snd st = (i * n + j)%nat /\ dims n (fst st) /\
         forall a b, (a < n)%nat -> (b < n)%nat ->
           at2 (fst st) a b =
             if (a <? i)%nat || ((a =? i)%nat && (b <? j)%nat)
             then new a b else at2 mOld a b)
      (_n p)
      (fun j st => Update_cell p allow mOld draws (Z.of_nat i) j st)
      (m, k)) as ([m1 k1] & Hrun1 & Hk1 & Hd1 & Hcells1).
    + cbn [fst snd]. split; [lia |]. split; [exact Hd |].
      intros a b Ha Hb. rewrite (Hcells a b Ha Hb).
      destruct (Nat.ltb_spec b 0); [lia |]. now rewrite andb_false_r, orb_false_r.
    + intros j [m2 k2] Hj (Hk2 & Hd2 & Hcells2).
      cbn [fst snd] in Hk2, Hd2, Hcells2. fold n in Hj.
      destruct (dims_at2 n mOld i j HdOld Hi Hj) as [old Hold].
      assert (at2 m2 i j = Some old) as Hm2.
      { rewrite (Hcells2 i j Hi Hj).
        destruct (Nat.ltb_spec i i); [lia |]. cbn [orb].
        destruct (Nat.ltb_spec j j); [lia |]. now rewrite andb_false_r. }
      destruct (Update_cell_spec p allow mOld m2 draws i j k2 old
                  Hn HdOld Hd2 Hold Hm2) as (m3 & Hrun3 & Hd3 & Hij & Hother).
      exists (m3, S k2). cbn [fst snd].
      split; [exact Hrun3 |]. split; [lia |]. split; [exact Hd3 |].
      intros a b Ha Hb.
      destruct (decide ((a, b) = (i, j))) as [[= -> ->]|Hne].
      * rewrite Hij. destruct (Nat.ltb_spec i i); [lia |]. cbn [orb].
        rewrite Nat.eqb_refl. destruct (Nat.ltb_spec j (S j)); [| lia].
        cbn [andb]. subst new. unfold next_at. rewrite Hold. f_equal.
        f_equal. unfold seed_of. f_equal. f_equal.
        rewrite draw_index by exact Hn. fold n. lia.
      * rewrite (Hother a b Hne), (Hcells2 a b Ha Hb).
        destruct (Nat.ltb_spec a i); [reflexivity |]. cbn [orb].
        destruct (Nat.eqb_spec a i) as [->|]; [| reflexivity]. cbn [andb].
        destruct (Nat.ltb_spec b j), (Nat.ltb_spec b (S j));
          try reflexivity; try lia.
        exfalso. apply Hne. f_equal. lia.
    + exists (m1, k1). split; [exact Hrun1 |].
      cbn [fst snd] in Hk1, Hd1, Hcells1 |- *. fold n in Hcells1, Hk1, Hd1 |- *.
      split; [lia |]. split; [exact Hd1 |].
      intros a b Ha Hb. rewrite (Hcells1 a b Ha Hb).
      destruct (Nat.ltb_spec a i), (Nat.ltb_spec a (S i)); cbn [orb];
        try reflexivity; try lia.
      * destruct (Nat.eqb_spec a i); [| lia].
        destruct (Nat.ltb_spec b n); [reflexivity | lia].
      * destruct (Nat.eqb_spec a i); [lia | reflexivity].
  - cbn [fst snd] in Hk, Hd', Hcells. fold n in Hk, Hd', Hcells, Hrun |- *.
    subst k'. exists m'.
    split; [exact Hrun |]. split; [exact Hd' |].
    intros a b Ha Hb. rewrite (Hcells a b Ha Hb).
    destruct (Nat.ltb_spec a n); [reflexivity | lia].
Qed.

Lemma countStates_with_t p d : countStates (with_t p d) = countStates p.
Proof. reflexivity. Qed.

Lemma next_at_with_t p d day allow draws mOld a b :
  next_at (with_t p d) day allow draws mOld a b
  = next_at p day allow draws mOld a b.
Proof. reflexivity. Qed.

(** [Update] returns on every square grid: the day counter is incremented,
    [allowVaccination] is taken from the tallies of the grid as it was, and
    every cell is rewritten from the grid as it was. *)
Lemma Update_spec (draws : nat -> spec_float) (p : t) :
  wf p ->
  exists m',
    Update draws p = Ok (with_m (with_t p (Int.incr (_t p))) m') /\
    dims (Z.to_nat (_n p)) m' /\
    forall a b, (a < Z.to_nat (_n p))%nat -> (b < Z.to_nat (_n p))%nat ->
      at2 m' a b =
        next_at p (Int.incr (_t p))
          (allow_of p (count_list (concat (_m p)))) draws (_m p) a b.
Proof.
  intros Hwf. pose proof Hwf as [Hn Hd]. unfold Update.
  rewrite countStates_with_t, (countStates_count_list p Hwf). cbn [bind].
  set (p1 := with_t p (Int.incr (_t p))).
  set (allow := F32.ltb _ _).
  destruct (Update_loops_spec p1 allow draws (_m p) Hn Hd)
    as (m' & Hrun & Hd' & Hcells).
  change (_m p1) with (_m p). change (_n p1) with (_n p) in Hrun |- *.
  rewrite Hrun. cbn [bind fst]. exists m'.
  split; [reflexivity |]. split; [exact Hd' |].
  intros a b Ha Hb. rewrite (Hcells a b Ha Hb). reflexivity.
Qed.

Lemma getState_at2 (p : t) (a b : nat) (x : Person.t) :
  at2 (_m p) a b = Some x ->
  getState p (Z.of_nat a) (Z.of_nat b) = Ok (Person.getState x).
Proof. intros H. unfold getState. now rewrite (cell_Ok _ _ _ _ H). Qed.

Lemma getState_Ok_inv (p : t) (i j : Z) (s : string) :
  getState p i j = Ok s ->
  0 <= i /\ 0 <= j /\
  at2 (_m p) (Z.to_nat i) (Z.to_nat j) = Some {| Person._state := s |}.
Proof.
  unfold getState. destruct (cell (_m p) i j) as [x| |] eqn:Hc; try discriminate.
  cbn [bind]. intros [= <-]. destruct x as [s]. now apply cell_Ok_inv.
Qed.

Lemma getState_in_range (p : t) (i j : Z) :
  wf p -> 0 <= i < _n p -> 0 <= j < _n p -> exists s, getState p i j = Ok s.
Proof.
  intros [Hn Hd] Hi Hj.
  destruct (dims_at2 _ (_m p) (Z.to_nat i) (Z.to_nat j) Hd) as [x Hx]; [lia | lia |].
  exists (Person.getState x). rewrite <- (Z2Nat.id i), <- (Z2Nat.id j) by lia.
  now apply getState_at2.
Qed.

Lemma getState_out_of_range (p : t) (i j : Z) :
  wf p -> i < 0 \/ _n p <= i \/ j < 0 \/ _n p <= j ->
  getState p i j = Undefined.
Proof.
  intros [Hn Hd] Hout. unfold getState.
  rewrite (cell_out_of_range _ _ i j Hd); [reflexivity | lia].
Qed.

(** [Update] keeps the class invariant. *)
Lemma Update_total (draws : nat -> spec_float) (p : t) :
  wf p -> exists p', Update draws p = Ok p' /\ wf p'.
Proof.
  intros Hwf. destruct (Update_spec draws p Hwf) as (m' & Hrun & Hd' & _).
  eexists. split; [exact Hrun |]. split; [apply Hwf | exact Hd'].
Qed.

Lemma Update_frame (draws : nat -> spec_float) (p p' : t) :
  wf p -> Update draws p = Ok p' ->
  wf p' /\ _n p' = _n p /\ _t p' = Int.incr (_t p) /\ _tv p' = _tv p /\
  _ri p' = _ri p /\ _rr p' = _rr p /\ _rm p' = _rm p /\
  _rv p' = _rv p /\ _rvh p' = _rvh p.
Proof.
  intros Hwf Hrun. destruct (Update_spec draws p Hwf) as (m' & Hrun' & Hd' & _).
  rewrite Hrun in Hrun'. injection Hrun' as ->.
  split; [split; [apply Hwf | exact Hd'] |]. cbn. auto 10.
Qed.

(** The state of a cell after a step, from its state before. *)
Lemma Update_getState (draws : nat -> spec_float) (p p' : t) (c : Counts)
    (i j : Z) (s : string) :
  wf p -> Update draws p = Ok p' -> countStates p = Ok c ->
  getState p i j = Ok s ->
  getState p' i j =
    Ok (next_state p (_t p') (allow_of p c)
          (infected_neighbours (_m p) i j) (seed_of draws (_n p) i j) s).
Proof.
  intros Hwf Hrun Hc Hs.
  destruct (Update_spec draws p Hwf) as (m' & Hrun' & Hd' & Hcells).
  rewrite Hrun in Hrun'. injection Hrun' as ->.
  rewrite (countStates_count_list p Hwf) in Hc. injection Hc as <-.
  apply getState_Ok_inv in Hs as (Hi & Hj & Hx).
  destruct (at2_bounds _ _ _ _ _ (proj2 Hwf) Hx) as [Ha Hb].
  specialize (Hcells _ _ Ha Hb). unfold next_at in Hcells.
  rewrite Hx, !Z2Nat.id in Hcells by lia.
  rewrite <- (Z2Nat.id i), <- (Z2Nat.id j) at 1 by lia.
  rewrite (getState_at2 (with_m (with_t p (Int.incr (_t p))) m') _ _ _ Hcells).
  reflexivity.
Qed.

(** ** Reading the grid *)

Lemma getState_unfold (p : t) (i j : Z) :
  getState p i j =
  if (0 <=? i) && (0 <=? j) then
    match at2 (_m p) (Z.to_nat i) (Z.to_nat j) with
    | Some x => Ok (Person.getState x)
    | None => Undefined
    end
  else Undefined.
Proof.
  unfold getState, cell, Vec.index, at2.
  destruct (0 <=? i); [| reflexivity]. cbn [andb].
  destruct (_m p !! Z.to_nat i) as [row|]; cbn [bind].
  - destruct (0 <=? j); [| reflexivity].
    now destruct (row !! Z.to_nat j).
  - now destruct (0 <=? j).
Qed.

Lemma known_grid_at2 (m : grid) :
  known_grid m <->
  forall a b x, at2 m a b = Some x -> known (Person.getState x).
Proof.
  unfold known_grid, at2. split.
  - intros Hk a b x. destruct (m !! a) as [row|] eqn:Hrow; [| discriminate].
    intros Hx. rewrite Forall_lookup in Hk. specialize (Hk a row Hrow).
    rewrite Forall_lookup in Hk. exact (Hk b x Hx).
  - intros Hk. apply Forall_lookup. intros a row Hrow.
    apply Forall_lookup. intros b x Hx. apply (Hk a b x). now rewrite Hrow.
Qed.

Lemma known_state_name st : known (state_name st).
Proof. unfold known. destruct st; cbn; auto. Qed.

(** ** The constructor *)

Lemma ctor_Ok (n : Z) :
  0 <= n ->
  exists p, ctor n = Ok p /\ wf p /\ known_grid (_m p) /\ _n p = n /\
    _t p = 0 /\
    forall a b, (a < Z.to_nat n)%nat -> (b < Z.to_nat n)%nat ->
      at2 (_m p) a b = Some Person.ctor.
Proof.
  intros Hn. unfold ctor, Vec.make.
  destruct (Z.ltb_spec n 0); [lia |]. cbn [bind].
  eexists. split; [reflexivity |]. cbn [_m _n _t].
  split; [| split; [| split; [reflexivity | split; [reflexivity |]]]].
  - split; [exact Hn |]. split; cbn [_m _n].
    + apply length_replicate.
    + apply Forall_replicate. apply length_replicate.
  - apply Forall_replicate, Forall_replicate. unfold known. cbn. auto.
  - intros a b Ha Hb. unfold at2.
    rewrite lookup_replicate_2 by exact Ha. now apply lookup_replicate_2.
Qed.

Lemma ctor_negative (n : Z) : n < 0 -> ctor n = Throws length_error.
Proof.
  intros Hn. unfold ctor, Vec.make. now destruct (Z.ltb_spec n 0); [| lia].
Qed.

(** ** Overriding a cell *)

Lemma set_cell_Ok_inv n (m m' : grid) i j f :
  dims n m -> set_cell m i j f = Ok m' ->
  0 <= i < Z.of_nat n /\ 0 <= j < Z.of_nat n.
Proof.
  intros Hd. unfold set_cell, Vec.modify.
  destruct (Vec.index m i) as [row| |] eqn:Hi; try discriminate. cbn [bind].
  destruct (Vec.index row j) as [x| |] eqn:Hj; try discriminate. intros _.
  apply index_Ok_inv in Hi as [Hi0 Hi]. apply index_Ok_inv in Hj as [Hj0 Hj].
  pose proof (dims_lookup _ _ _ _ Hd Hi) as Hlen.
  apply lookup_lt_Some in Hi, Hj. destruct Hd as [Hlm _]. lia.
Qed.

Lemma set_cell_out_of_range n (m : grid) i j f :
  dims n m -> i < 0 \/ Z.of_nat n <= i \/ j < 0 \/ Z.of_nat n <= j ->
  set_cell m i j f = Undefined.
Proof.
  intros Hd Hout. unfold set_cell, Vec.modify.
  destruct (Vec.index m i) as [row| |] eqn:Hi; cbn [bind]; try reflexivity.
  - destruct (Vec.index row j) as [x| |] eqn:Hj; cbn [bind]; try reflexivity.
    + apply index_Ok_inv in Hi as [Hi0 Hi]. apply index_Ok_inv in Hj as [Hj0 Hj].
      pose proof (dims_lookup _ _ _ _ Hd Hi) as Hlen.
      apply lookup_lt_Some in Hi, Hj. destruct Hd as [Hlm _]. lia.
    + exfalso. unfold Vec.index in Hj.
      destruct (0 <=? j); [destruct (row !! Z.to_nat j) |]; discriminate.
  - exfalso. unfold Vec.index in Hi.
    destruct (0 <=? i); [destruct (m !! Z.to_nat i) |]; discriminate.
Qed.

Lemma forceState_unfold (p : t) (i j : Z) (st : state) :
  forceState p i j st =
  (m <- set_cell (_m p) i j (fun _ => {| Person._state := state_name st |}) ;;
   Ok (with_m p m)).
Proof. destruct st; reflexivity. Qed.

(** Inside the grid a mutator returns and writes the one cell. *)
Lemma forceState_in_range (p : t) (i j : Z) (st : state) :
  wf p -> 0 <= i < _n p -> 0 <= j < _n p ->
  exists m', forceState p i j st = Ok (with_m p m') /\
    dims (Z.to_nat (_n p)) m' /\
    at2 m' (Z.to_nat i) (Z.to_nat j) = Some {| Person._state := state_name st |} /\
    forall a b, (a, b) <> (Z.to_nat i, Z.to_nat j) -> at2 m' a b = at2 (_m p) a b.
Proof.
  intros [Hn Hd] Hi Hj. rewrite forceState_unfold.
  destruct (dims_at2 _ (_m p) (Z.to_nat i) (Z.to_nat j) Hd) as [x Hx]; [lia | lia |].
  destruct (set_cell_Ok _ _ _ _ x
              (fun _ => {| Person._state := state_name st |}) Hd Hx)
    as (m' & Hs & Hd' & Hij & Hother).
  rewrite !Z2Nat.id in Hs by lia. rewrite Hs. cbn [bind]. eauto.
Qed.

Lemma forceState_out_of_range (p : t) (i j : Z) (st : state) :
  wf p -> i < 0 \/ _n p <= i \/ j < 0 \/ _n p <= j ->
  forceState p i j st = Undefined.
Proof.
  intros [Hn Hd] Hout. rewrite forceState_unfold.
  rewrite (set_cell_out_of_range _ _ i j _ Hd); [reflexivity | lia].
Qed.

Lemma forceState_Ok_inv (p p' : t) (i j : Z) (st : state) :
  wf p -> forceState p i j st = Ok p' -> 0 <= i < _n p /\ 0 <= j < _n p.
Proof.
  intros Hwf Hrun.
  destruct (Z_lt_dec i 0) as [H1|H1];
    [rewrite forceState_out_of_range in Hrun by (auto; lia); discriminate |].
  destruct (Z_le_dec (_n p) i) as [H2|H2];
    [rewrite forceState_out_of_range in Hrun by (auto; lia); discriminate |].
  destruct (Z_lt_dec j 0) as [H3|H3];
    [rewrite forceState_out_of_range in Hrun by (auto; lia); discriminate |].
  destruct (Z_le_dec (_n p) j) as [H4|H4];
    [rewrite forceState_out_of_range in Hrun by (auto; lia); discriminate |].
  lia.
Qed.

(** ** Invariants of the operations *)

Lemma next_person_known p day allow k seed old :
  known (Person.getState old) ->
  known (Person.getState (next_person p day allow k seed old)).
Proof.
  intros Hk. unfold next_person.
  repeat match goal with
  | |- context [if ?c then _ else _] => destruct c
  end; try exact Hk; unfold known; cbn; auto.
Qed.

Lemma forceState_inv (p p' : t) (i j : Z) (st : state) :
  inv p -> forceState p i j st = Ok p' -> inv p' /\ _n p' = _n p.
Proof.
  intros [Hwf Hk] Hrun.
  destruct (forceState_Ok_inv p p' i j st Hwf Hrun) as [Hi Hj].
  destruct (forceState_in_range p i j st Hwf Hi Hj)
    as (m' & Hrun' & Hd' & Hij & Hother).
  rewrite Hrun in Hrun'. injection Hrun' as ->.
  split; [| reflexivity]. split; [split; [apply Hwf | exact Hd'] |].
  cbn [_m with_m]. apply known_grid_at2. intros a b x Hx.
  destruct (decide ((a, b) = (Z.to_nat i, Z.to_nat j))) as [[= -> ->]|Hne].
  - rewrite Hij in Hx. injection Hx as <-. apply known_state_name.
  - rewrite (Hother a b Hne) in Hx.
    exact (proj1 (known_grid_at2 (_m p)) Hk a b x Hx).
Qed.

Lemma Update_inv (draws : nat -> spec_float) (p p' : t) :
  inv p -> Update draws p = Ok p' -> inv p' /\ _n p' = _n p.
Proof.
  intros [Hwf Hk] Hrun.
  destruct (Update_spec draws p Hwf) as (m' & Hrun' & Hd' & Hcells).
  rewrite Hrun in Hrun'. injection Hrun' as ->.
  split; [| reflexivity]. split; [split; [apply Hwf | exact Hd'] |].
  cbn [_m with_m]. apply known_grid_at2. intros a b x Hx.
  destruct (at2_bounds _ _ _ _ _ Hd' Hx) as [Ha Hb].
  rewrite (Hcells a b Ha Hb) in Hx. unfold next_at in Hx.
  destruct (at2 (_m p) a b) as [old|] eqn:Hold; [| discriminate].
  injection Hx as <-. apply next_person_known.
  exact (proj1 (known_grid_at2 (_m p)) Hk a b old Hold).
Qed.

Lemma run_inv (ops : list op) : forall p p',
  inv p -> run ops p = Ok p' -> inv p' /\ _n p' = _n p.
Proof.
  induction ops as [|o ops IH]; intros p p' Hinv Hrun.
  - injection Hrun as <-. auto.
  - cbn [run] in Hrun.
    destruct (apply_op o p) as [p1| |] eqn:Hop; try discriminate.
    cbn [bind] in Hrun.
    assert (inv p1 /\ _n p1 = _n p) as [Hinv1 Hn1].
    { destruct o as [i j st|draws]; cbn [apply_op] in Hop.
      - exact (forceState_inv _ _ _ _ _ Hinv Hop).
      - exact (Update_inv _ _ _ Hinv Hop). }
    destruct (IH p1 p' Hinv1 Hrun) as [Hinv' Hn']. split; [exact Hinv' | congruence].
Qed.

(** On a population of known states whose cells fit an [int], the tallies
    are the numbers of cells in each state. *)
Lemma countStates_tally (p : t) :
  inv p -> _n p * _n p <= Int.INT_MAX ->
  exists c, countStates p = Ok c /\
    susceptible c = tally "susceptible" (concat (_m p)) /\
    infected c = tally "infected" (concat (_m p)) /\
    recovered c = tally "recovered" (concat (_m p)) /\
    vaccinated c = tally "vaccinated" (concat (_m p)) /\
    susceptible c + infected c + recovered c + vaccinated c = _n p * _n p.
Proof.
  intros [Hwf Hk] Hmax. exists (count_list (concat (_m p))).
  split; [exact (countStates_count_list p Hwf) |].
  destruct (count_list_tally (concat (_m p))) as (Es & Ei & Er & Ev).
  pose proof (length_concat_dims _ _ (proj2 Hwf)) as Hlen.
  assert (Z.of_nat (length (concat (_m p))) = _n p * _n p) as HlenZ.
  { rewrite Hlen, Nat2Z.inj_mul, Z2Nat.id by apply Hwf. reflexivity. }
  assert (forall s, Int.wrap (tally s (concat (_m p))) = tally s (concat (_m p)))
    as Hwrap.
  { intros s. apply wrap_in_range.
    pose proof (tally_nonneg s (concat (_m p))).
    pose proof (tally_le_length s (concat (_m p))).
    unfold Int.in_range, Int.INT_MIN, Int.INT_MAX in *. lia. }
  rewrite Es, Ei, Er, Ev, !Hwrap. repeat (split; [reflexivity |]).
  rewrite <- HlenZ. apply tally_total.
  unfold known_grid in Hk. clear -Hk.
  induction Hk as [|row m Hrow _ IH]; [constructor |].
  cbn [concat]. apply Forall_app. auto.
Qed.

(** ** Claims *)

(** C1. Conservation: on a grid built by the constructor with a side
    [n > 0] whose [n * n] cells fit an [int], after any sequence of cell
    overrides and days that runs, [countStates] returns four tallies, none
    negative, whose sum is [n * n]: each is the number of cells in its state
    and every cell is in one of the four states. *)
Theorem countStates_conservation (n : Z) (ops : list op) (p0 p : t) :
  0 < n -> n * n <= Int.INT_MAX ->
  ctor n = Ok p0 -> run ops p0 = Ok p ->
  exists c, countStates p = Ok c /\
    0 <= susceptible c /\ 0 <= infected c /\
    0 <= recovered c /\ 0 <= vaccinated c /\
    susceptible c + infected c + recovered c + vaccinated c = n * n /\
    susceptible c = tally "susceptible" (concat (_m p)) /\
    infected c = tally "infected" (concat (_m p)) /\
    recovered c = tally "recovered" (concat (_m p)) /\
    vaccinated c = tally "vaccinated" (concat (_m p)).
Proof.
  intros Hn Hmax Hctor Hrun.
  destruct (ctor_Ok n ltac:(lia)) as (q & Hq & Hwf & Hk & Hnq & _).
  rewrite Hctor in Hq. injection Hq as <-.
  destruct (run_inv ops p0 p (conj Hwf Hk) Hrun) as [Hinv Hnp].
  destruct (countStates_tally p Hinv ltac:(rewrite Hnp, Hnq; exact Hmax))
    as (c & Hc & Es & Ei & Er & Ev & Hsum).
  exists c. split; [exact Hc |].
  rewrite Hnp, Hnq in Hsum. rewrite Es, Ei, Er, Ev in *.
  pose proof (tally_nonneg "susceptible" (concat (_m p))).
  pose proof (tally_nonneg "infected" (concat (_m p))).
  pose proof (tally_nonneg "recovered" (concat (_m p))).
  pose proof (tally_nonneg "vaccinated" (concat (_m p))).
  repeat (split; [assumption || reflexivity |]). reflexivity.
Qed.

Lemma countStates_conservation_witness :
  0 < 3 /\ 3 * 3 <= Int.INT_MAX /\
  ctor 3 = Ok (sample 3 [[sus; sus; sus]; [sus; sus; sus]; [sus; sus; sus]] 0) /\
  run [Force 1 1 Infected; Advance (const_draws d_eighth);
       Force 0 0 Vaccinated; Force 2 2 Recovered;
       Advance (const_draws d_tiny)]
      (sample 3 [[sus; sus; sus]; [sus; sus; sus]; [sus; sus; sus]] 0)
    = Ok (sample 3 [[vac; rec; inf]; [rec; rec; rec]; [inf; rec; sus]] 2) /\
  exists c,
    countStates (sample 3 [[vac; rec; inf]; [rec; rec; rec]; [inf; rec; sus]] 2)
      = Ok c /\
    susceptible c + infected c + recovered c + vaccinated c = 3 * 3.
Proof.
  assert (0 < 3) as Hn by lia.
  assert (3 * 3 <= Int.INT_MAX) as Hmax by (unfold Int.INT_MAX; lia).
  assert (ctor 3 =
    Ok (sample 3 [[sus; sus; sus]; [sus; sus; sus]; [sus; sus; sus]] 0))
    as Hctor by reflexivity.
  assert (run [Force 1 1 Infected; Advance (const_draws d_eighth);
               Force 0 0 Vaccinated; Force 2 2 Recovered;
               Advance (const_draws d_tiny)]
              (sample 3 [[sus; sus; sus]; [sus; sus; sus]; [sus; sus; sus]] 0)
    = Ok (sample 3 [[vac; rec; inf]; [rec; rec; rec]; [inf; rec; sus]] 2))
    as Hrun by (vm_compute; reflexivity).
  repeat (split; [assumption |]).
  destruct (countStates_conservation 3 _ _ _ Hn Hmax Hctor Hrun)
    as (c & Hc & _ & _ & _ & _ & Hsum & _).
  exists c. split; [exact Hc | exact Hsum].
Defined.

Lemma next_state_susceptible p day allow k seed :
  next_state p day allow k seed "susceptible" =
  let p_inf := F32.mul (F32.of_int k) (_ri p) in
  if F32.ltb seed p_inf then "infected"%string
  else if (day >=? _tv p) && allow
          && F32.ltb p_inf seed && F32.ltb seed (F32.add p_inf (_rv p))
       then "vaccinated"%string
       else "susceptible"%string.
Proof.
  unfold next_state, next_person. cbn.
  destruct (F32.ltb seed _); [reflexivity |].
  now destruct (_ && _).
Qed.

Lemma next_state_infected p day allow k seed :
  next_state p day allow k seed "infected" =
  if F32.ltb seed (_rr p) then "recovered"%string else "infected"%string.
Proof.
  unfold next_state, next_person. cbn. now destruct (F32.ltb seed _).
Qed.

Lemma next_state_recovered p day allow k seed :
  next_state p day allow k seed "recovered" =
  if F32.ltb seed (_rm p) then "susceptible"%string
  else if (day >? _tv p) && allow
          && F32.ltb (_rm p) seed && F32.ltb seed (F32.add (_rm p) (_rv p))
       then "vaccinated"%string
       else "recovered"%string.
Proof.
  unfold next_state, next_person. cbn.
  destruct (F32.ltb seed _); [reflexivity |].
  now destruct (_ && _).
Qed.

Lemma next_state_vaccinated p day allow k seed :
  next_state p day allow k seed "vaccinated" = "vaccinated"%string.
Proof. reflexivity. Qed.

Lemma infected_at_true_in n (m : grid) i j :
  dims n m -> infected_at m i j = true ->
  0 <= i < Z.of_nat n /\ 0 <= j < Z.of_nat n.
Proof.
  intros Hd Ht.
  destruct (Z_le_dec 0 i), (Z_lt_dec i (Z.of_nat n)), (Z_le_dec 0 j),
    (Z_lt_dec j (Z.of_nat n)); try lia;
    rewrite (infected_at_out n m i j Hd) in Ht by lia; discriminate.
Qed.

(** Only cells of the grid are counted as neighbours. *)
Lemma infected_neighbours_bound (p : t) (i j : Z) :
  wf p -> 0 <= i < _n p -> 0 <= j < _n p ->
  0 <= infected_neighbours (_m p) i j <= neighbours_in_grid (_n p) i j.
Proof.
  intros [Hn Hd] Hi Hj. unfold infected_neighbours, neighbours_in_grid.
  assert (forall a b, Z.b2z (infected_at (_m p) a b) = 1 ->
            0 <= a < _n p /\ 0 <= b < _n p) as Hin.
  { intros a b Hab. destruct (infected_at (_m p) a b) eqn:E; [| discriminate].
    apply (infected_at_true_in _ _ _ _ Hd) in E. lia. }
  assert (forall a b (c : bool), (Z.b2z (infected_at (_m p) a b) = 1 -> c = true) ->
            0 <= Z.b2z (infected_at (_m p) a b) <= Z.b2z c) as Hle.
  { intros a b c Hc. destruct (infected_at (_m p) a b); cbn in *.
    - rewrite Hc by reflexivity. cbn. lia.
    - destruct c; cbn; lia. }
  assert (Z.b2z (infected_at (_m p) (i - 1) j) = 1 -> (0 <=? i - 1) = true) as H1
    by (intros E; apply Hin in E; apply Z.leb_le; lia).
  apply Hle in H1.
  assert (Z.b2z (infected_at (_m p) i (j - 1)) = 1 -> (0 <=? j - 1) = true) as H2
    by (intros E; apply Hin in E; apply Z.leb_le; lia).
  apply Hle in H2.
  assert (Z.b2z (infected_at (_m p) (i + 1) j) = 1 -> (i + 1 <? _n p) = true) as H3
    by (intros E; apply Hin in E; apply Z.ltb_lt; lia).
  apply Hle in H3.
  assert (Z.b2z (infected_at (_m p) i (j + 1)) = 1 -> (j + 1 <? _n p) = true) as H4
    by (intros E; apply Hin in E; apply Z.ltb_lt; lia).
  apply Hle in H4.
  lia.
Qed.

Lemma neighbours_in_grid_bounds (n i j : Z) :
  0 <= i < n -> 0 <= j < n ->
  neighbours_in_grid n i j <= 4 /\
  (i = 0 \/ i = n - 1 \/ j = 0 \/ j = n - 1 -> neighbours_in_grid n i j <= 3) /\
  ((i = 0 \/ i = n - 1) /\ (j = 0 \/ j = n - 1) -> neighbours_in_grid n i j <= 2) /\
  (0 < i < n - 1 /\ 0 < j < n - 1 -> neighbours_in_grid n i j = 4).
Proof.
  intros Hi Hj. unfold neighbours_in_grid.
  destruct (Z.leb_spec 0 (i - 1)), (Z.leb_spec 0 (j - 1)),
    (Z.ltb_spec (i + 1) n), (Z.ltb_spec (j + 1) n); cbn; lia.
Qed.

Lemma getState_Ok_range (p : t) (i j : Z) (s : string) :
  wf p -> getState p i j = Ok s -> 0 <= i < _n p /\ 0 <= j < _n p.
Proof.
  intros [Hn Hd] Hs. apply getState_Ok_inv in Hs as (Hi & Hj & Hx).
  apply (at2_bounds _ _ _ _ _ Hd) in Hx. lia.
Qed.

(** The neighbour count reads the grid as [getState] does: a position
    counts when it is a cell of the grid in state infected. *)
Lemma infected_at_getState (p : t) (i j : Z) :
  infected_at (_m p) i j = true <-> getState p i j = Ok "infected"%string.
Proof.
  rewrite getState_unfold. unfold infected_at.
  destruct ((0 <=? i) && (0 <=? j)); [| split; discriminate].
  destruct (at2 (_m p) (Z.to_nat i) (Z.to_nat j)) as [x|]; [| split; discriminate].
  rewrite String.eqb_eq. split; [intros -> | intros [= ->]]; reflexivity.
Qed.

(** C2, amended. A cell that is susceptible before the step has [k]
    infected cells among its up, left, down and right neighbours inside the
    grid (a position counts when [getState] finds it infected), at most 4,
    at most 3 on an edge and at most 2 in a corner; with
    [p_inf = k * ri] and the cell's draw [seed], after the step it is
    infected if [seed < p_inf]; otherwise vaccinated if the incremented day
    counter is at least [tv], vaccination is allowed, and
    [p_inf < seed < p_inf + rv] (both bounds strict); otherwise it is still
    susceptible. *)
Theorem Update_susceptible (draws : nat -> spec_float) (p p' : t)
    (c : Counts) (i j : Z) :
  wf p -> countStates p = Ok c -> Update draws p = Ok p' ->
  getState p i j = Ok "susceptible"%string ->
  let k := infected_neighbours (_m p) i j in
  let p_inf := F32.mul (F32.of_int k) (_ri p) in
  let seed := seed_of draws (_n p) i j in
  (forall a b, infected_at (_m p) a b = true <->
               getState p a b = Ok "infected"%string) /\
  0 <= k <= neighbours_in_grid (_n p) i j /\
  neighbours_in_grid (_n p) i j <= 4 /\
  (i = 0 \/ i = _n p - 1 \/ j = 0 \/ j = _n p - 1 ->
     neighbours_in_grid (_n p) i j <= 3) /\
  ((i = 0 \/ i = _n p - 1) /\ (j = 0 \/ j = _n p - 1) ->
     neighbours_in_grid (_n p) i j <= 2) /\
  getState p' i j =
    Ok (if F32.ltb seed p_inf then "infected"%string
        else if (_t p' >=? _tv p) && allow_of p c
                && F32.ltb p_inf seed && F32.ltb seed (F32.add p_inf (_rv p))
             then "vaccinated"%string
             else "susceptible"%string).
Proof.
  intros Hwf Hc Hrun Hs k p_inf seed.
  destruct (getState_Ok_range p i j _ Hwf Hs) as [Hi Hj].
  destruct (neighbours_in_grid_bounds (_n p) i j Hi Hj) as (H4 & H3 & H2 & _).
  split; [exact (infected_at_getState p) |].
  split; [exact (infected_neighbours_bound p i j Hwf Hi Hj) |].
  split; [exact H4 |]. split; [exact H3 |]. split; [exact H2 |].
  rewrite (Update_getState draws p p' c i j _ Hwf Hrun Hc Hs).
  now rewrite next_state_susceptible.
Qed.

Lemma Update_susceptible_witness :
  wf corner_199 /\
  countStates corner_199 =
    Ok {| susceptible := 3; infected := 1; recovered := 0; vaccinated := 0 |} /\
  Update (const_draws d_eighth) corner_199
    = Ok (sample 2 [[inf; inf]; [inf; sus]] 200) /\
  getState corner_199 0 1 = Ok "susceptible"%string /\
  infected_neighbours (_m corner_199) 0 1 = 1 /\
  getState (sample 2 [[inf; inf]; [inf; sus]] 200) 0 1 = Ok "infected"%string.
Proof.
  assert (wf corner_199) as Hwf by solve_wf.
  assert (countStates corner_199 =
    Ok {| susceptible := 3; infected := 1; recovered := 0; vaccinated := 0 |})
    as Hc by reflexivity.
  assert (Update (const_draws d_eighth) corner_199
    = Ok (sample 2 [[inf; inf]; [inf; sus]] 200)) as Hrun by (vm_compute; reflexivity).
  assert (getState corner_199 0 1 = Ok "susceptible"%string) as Hs by reflexivity.
  pose proof (Update_susceptible _ _ _ _ 0 1 Hwf Hc Hrun Hs) as H.
  cbv zeta in H. destruct H as (_ & _ & _ & _ & _ & H).
  repeat (split; [assumption || reflexivity |]).
  rewrite H. vm_compute. reflexivity.
Defined.

(** C2 as stated fails when the draw equals [p_inf]: on day 200, with
    vaccination allowed, the susceptible cell [(0, 1)] next to one infected
    cell draws exactly [1 * 0.2f]; the rule with [p_inf <= seed] makes it
    vaccinated, [Update] leaves it susceptible. *)
Lemma susceptible_draw_equal_p_inf :
  getState corner_199 0 1 = Ok "susceptible"%string /\
  seed_of (const_draws d_ri) 2 0 1
    = F32.mul (F32.of_int (infected_neighbours (_m corner_199) 0 1)) ri_default /\
  Update (const_draws d_ri) corner_199
    = Ok (sample 2 [[inf; sus]; [sus; sus]] 200) /\
  countStates corner_199
    = Ok {| susceptible := 3; infected := 1; recovered := 0; vaccinated := 0 |} /\
  spec_susceptible_rule corner_199 200
    (allow_of corner_199
       {| susceptible := 3; infected := 1; recovered := 0; vaccinated := 0 |})
    (infected_neighbours (_m corner_199) 0 1)
    (seed_of (const_draws d_ri) 2 0 1) = "vaccinated"%string /\
  getState (sample 2 [[inf; sus]; [sus; sus]] 200) 0 1
    <> Ok "vaccinated"%string.
Proof.
  repeat (split; [vm_compute; reflexivity |]). vm_compute. discriminate.
Qed.

(** C3, amended. A cell that is recovered before the step is susceptible
    after it if [seed < rm]; otherwise vaccinated if the incremented day
    counter is strictly above [tv], vaccination is allowed, and
    [rm < seed < rm + rv] (both bounds strict); otherwise it is still
    recovered. *)
Theorem Update_recovered (draws : nat -> spec_float) (p p' : t)
    (c : Counts) (i j : Z) :
  wf p -> countStates p = Ok c -> Update draws p = Ok p' ->
  getState p i j = Ok "recovered"%string ->
  let seed := seed_of draws (_n p) i j in
  getState p' i j =
    Ok (if F32.ltb seed (_rm p) then "susceptible"%string
        else if (_t p' >? _tv p) && allow_of p c
                && F32.ltb (_rm p) seed
                && F32.ltb seed (F32.add (_rm p) (_rv p))
             then "vaccinated"%string
             else "recovered"%string).
Proof.
  intros Hwf Hc Hrun Hs seed.
  rewrite (Update_getState draws p p' c i j _ Hwf Hrun Hc Hs).
  now rewrite next_state_recovered.
Qed.

Lemma Update_recovered_witness :
  wf lone_recovered_200 /\
  countStates lone_recovered_200 =
    Ok {| susceptible := 0; infected := 0; recovered := 1; vaccinated := 0 |} /\
  Update (const_draws d_tiny) lone_recovered_200
    = Ok (sample 1 [[sus]] 201) /\
  getState lone_recovered_200 0 0 = Ok "recovered"%string /\
  getState (sample 1 [[sus]] 201) 0 0 = Ok "susceptible"%string.
Proof.
  assert (wf lone_recovered_200) as Hwf by solve_wf.
  assert (countStates lone_recovered_200 =
    Ok {| susceptible := 0; infected := 0; recovered := 1; vaccinated := 0 |})
    as Hc by reflexivity.
  assert (Update (const_draws d_tiny) lone_recovered_200
    = Ok (sample 1 [[sus]] 201)) as Hrun by (vm_compute; reflexivity).
  assert (getState lone_recovered_200 0 0 = Ok "recovered"%string) as Hs
    by reflexivity.
  pose proof (Update_recovered _ _ _ _ 0 0 Hwf Hc Hrun Hs) as H.
  cbv zeta in H.
  repeat (split; [assumption || reflexivity |]).
  rewrite H. vm_compute. reflexivity.
Defined.

(** C3 as stated fails when the draw equals [rm]: on day 201, with
    vaccination allowed, a recovered cell draws exactly [0.005f]; the rule
    with [rm <= seed] makes it vaccinated, [Update] leaves it recovered. *)
Lemma recovered_draw_equal_rm :
  getState lone_recovered_200 0 0 = Ok "recovered"%string /\
  seed_of (const_draws d_rm) 1 0 0 = rm_default /\
  Update (const_draws d_rm) lone_recovered_200
    = Ok (sample 1 [[rec]] 201) /\
  countStates lone_recovered_200
    = Ok {| susceptible := 0; infected := 0; recovered := 1; vaccinated := 0 |} /\
  spec_recovered_rule lone_recovered_200 201
    (allow_of lone_recovered_200
       {| susceptible := 0; infected := 0; recovered := 1; vaccinated := 0 |})
    (seed_of (const_draws d_rm) 1 0 0) = "vaccinated"%string /\
  getState (sample 1 [[rec]] 201) 0 0 <> Ok "vaccinated"%string.
Proof.
  repeat (split; [vm_compute; reflexivity |]). vm_compute. discriminate.
Qed.

(** ** Several days *)

Lemma countStates_total (p : t) : wf p -> exists c, countStates p = Ok c.
Proof. intros Hwf. eexists. exact (countStates_count_list p Hwf). Qed.

(** C4. Absorption: a cell that is vaccinated is vaccinated after every
    further day, whatever the draws of those days; the days do run. *)
Theorem vaccinated_absorbing (days : list (nat -> spec_float)) :
  forall (p : t) (i j : Z),
    wf p -> getState p i j = Ok "vaccinated"%string ->
    exists p', advance_days days p = Ok p' /\
      getState p' i j = Ok "vaccinated"%string.
Proof.
  induction days as [|d days IH]; intros p i j Hwf Hv.
  - exists p. split; [reflexivity | exact Hv].
  - destruct (Update_total d p Hwf) as (p1 & Hrun & Hwf1).
    destruct (countStates_total p Hwf) as [c Hc].
    pose proof (Update_getState d p p1 c i j _ Hwf Hrun Hc Hv) as Hv1.
    rewrite next_state_vaccinated in Hv1.
    destruct (IH p1 i j Hwf1 Hv1) as (p' & Hrun' & Hv').
    exists p'. split; [| exact Hv']. cbn [advance_days]. now rewrite Hrun.
Qed.

Lemma vaccinated_absorbing_witness :
  wf mixed_3 /\ getState mixed_3 0 0 = Ok "vaccinated"%string /\
  exists p',
    advance_days [const_draws d_tiny; const_draws d_eighth; const_draws d_half]
      mixed_3 = Ok p' /\
    getState p' 0 0 = Ok "vaccinated"%string.
Proof.
  assert (wf mixed_3) as Hwf by solve_wf.
  assert (getState mixed_3 0 0 = Ok "vaccinated"%string) as Hv by reflexivity.
  split; [exact Hwf |]. split; [exact Hv |].
  exact (vaccinated_absorbing _ mixed_3 0 0 Hwf Hv).
Defined.

(** How a cell can come to be vaccinated in a step. *)
Lemma next_state_vaccinated_inv p day allow k seed s :
  next_state p day allow k seed s = "vaccinated"%string ->
  s = "vaccinated"%string \/
  (s = "susceptible"%string /\ _tv p <= day /\ allow = true) \/
  (s = "recovered"%string /\ _tv p < day /\ allow = true).
Proof.
  unfold next_state, next_person. cbn [Person.getState Person._state].
  destruct (String.eqb_spec s "susceptible") as [->|Hs].
  - destruct (F32.ltb seed _); [discriminate |].
    destruct (Z.geb_spec day (_tv p)); cbn [andb]; [| discriminate].
    destruct allow; cbn [andb]; [| discriminate].
    intros _. right. left. repeat split. lia.
  - destruct (String.eqb_spec s "infected") as [->|Hi].
    + destruct (F32.ltb seed _); discriminate.
    + destruct (String.eqb_spec s "recovered") as [->|Hr]; [| now left].
      destruct (F32.ltb seed _); [discriminate |].
      destruct (Z.gtb_spec day (_tv p)); cbn [andb]; [| discriminate].
      destruct allow; cbn [andb]; [| discriminate].
      intros _. right. right. repeat split. lia.
Qed.

Lemma tally_Forall2 s (l l' : list Person.t) :
  Forall2 (fun x x' => Person.getState x = s <-> Person.getState x' = s) l l' ->
  tally s l = tally s l'.
Proof.
  unfold tally. induction 1 as [|x x' l l' Hx _ IH]; [reflexivity |].
  rewrite !filter_cons.
  destruct (decide (Person.getState x = s)) as [E|E],
           (decide (Person.getState x' = s)) as [E'|E'];
    cbn [length]; try lia; tauto.
Qed.

Lemma Forall2_concat_rows {A : Type} (R : A -> A -> Prop) (m m' : list (list A)) :
  Forall2 (Forall2 R) m m' -> Forall2 R (concat m) (concat m').
Proof.
  induction 1 as [|row row' m m' Hrow _ IH]; [constructor |].
  cbn [concat]. now apply Forall2_app.
Qed.

(** Two grids whose cells agree on being in state [s] have the same number
    of cells in state [s]. *)
Lemma tally_pointwise s n (m m' : grid) :
  dims n m -> dims n m' ->
  (forall a b x x', at2 m a b = Some x -> at2 m' a b = Some x' ->
     (Person.getState x = s <-> Person.getState x' = s)) ->
  tally s (concat m) = tally s (concat m').
Proof.
  intros Hd Hd' Hcells. apply tally_Forall2, Forall2_concat_rows.
  apply Forall2_same_length_lookup. split; [destruct Hd, Hd'; congruence |].
  intros a row row' Hrow Hrow'.
  apply Forall2_same_length_lookup. split.
  - rewrite (dims_lookup _ _ _ _ Hd Hrow), (dims_lookup _ _ _ _ Hd' Hrow').
    reflexivity.
  - intros b x x' Hx Hx'. apply (Hcells a b); unfold at2.
    + now rewrite Hrow.
    + now rewrite Hrow'.
Qed.

(** A step with vaccination not allowed vaccinates nobody, and leaves
    vaccination not allowed. *)
Lemma Update_closed_gate (draws : nat -> spec_float) (p p' : t) (c : Counts) :
  wf p -> countStates p = Ok c -> allow_of p c = false ->
  Update draws p = Ok p' ->
  (forall i j, getState p' i j = Ok "vaccinated"%string <->
               getState p i j = Ok "vaccinated"%string) /\
  exists c', countStates p' = Ok c' /\ allow_of p' c' = false.
Proof.
  intros Hwf Hc Hgate Hrun.
  destruct (Update_frame draws p p' Hwf Hrun)
    as (Hwf' & Hn' & _ & _ & _ & _ & _ & _ & Hrvh').
  assert (forall i j, getState p' i j = Ok "vaccinated"%string <->
                      getState p i j = Ok "vaccinated"%string) as Hiff.
  { intros i j. split; intros Hv.
    - destruct (getState_Ok_range p' i j _ Hwf' Hv) as [Hi Hj].
      rewrite Hn' in Hi, Hj.
      destruct (getState_in_range p i j Hwf Hi Hj) as [s Hs].
      rewrite (Update_getState draws p p' c i j s Hwf Hrun Hc Hs) in Hv.
      injection Hv as Hv. apply next_state_vaccinated_inv in Hv.
      destruct Hv as [-> | [(_ & _ & Ha) | (_ & _ & Ha)]];
        [exact Hs | congruence | congruence].
    - rewrite (Update_getState draws p p' c i j _ Hwf Hrun Hc Hv).
      now rewrite next_state_vaccinated. }
  split; [exact Hiff |].
  exists (count_list (concat (_m p'))).
  split; [exact (countStates_count_list p' Hwf') |].
  rewrite (countStates_count_list p Hwf) in Hc. injection Hc as <-.
  unfold allow_of, frac_vaccinated, ceiling in *. rewrite Hn', Hrvh'.
  destruct (count_list_tally (concat (_m p'))) as (_ & _ & _ & ->).
  destruct (count_list_tally (concat (_m p))) as (_ & _ & _ & Ev).
  rewrite Ev in Hgate.
  rewrite (tally_pointwise "vaccinated" (Z.to_nat (_n p)) (_m p') (_m p));
    [exact Hgate | rewrite <- Hn'; apply Hwf' | apply Hwf |].
  intros a b x x' Hx Hx'.
  pose proof (getState_at2 p' a b x Hx) as Gx.
  pose proof (getState_at2 p a b x' Hx') as Gx'.
  specialize (Hiff (Z.of_nat a) (Z.of_nat b)). rewrite Gx, Gx' in Hiff.
  split; intros E.
  - rewrite E in Hiff. destruct Hiff as [Hiff _].
    specialize (Hiff eq_refl). congruence.
  - rewrite E in Hiff. destruct Hiff as [_ Hiff].
    specialize (Hiff eq_refl). congruence.
Qed.

Lemma advance_days_closed_gate (days : list (nat -> spec_float)) :
  forall (p : t) (c : Counts),
    wf p -> countStates p = Ok c -> allow_of p c = false ->
    exists q, advance_days days p = Ok q /\
      forall i j, getState q i j = Ok "vaccinated"%string <->
                  getState p i j = Ok "vaccinated"%string.
Proof.
  induction days as [|d days IH]; intros p c Hwf Hc Hgate.
  - exists p. split; [reflexivity | tauto].
  - destruct (Update_total d p Hwf) as (p1 & Hrun & Hwf1).
    destruct (Update_closed_gate d p p1 c Hwf Hc Hgate Hrun)
      as (Hiff & c1 & Hc1 & Hgate1).
    destruct (IH p1 c1 Hwf1 Hc1 Hgate1) as (q & Hq & Hiffq).
    exists q. split; [cbn [advance_days]; now rewrite Hrun |].
    intros i j. rewrite Hiffq. apply Hiff.
Qed.

(** C5. Vaccination gating, the day of a step being the day counter as the
    step increments it. In a step of a day before [tv] no cell becomes
    vaccinated, whatever the draws. From day [tv] on a susceptible cell with
    a favourable draw is vaccinated when vaccination is allowed. On day [tv]
    itself no recovered cell is vaccinated; from day [tv + 1] on a recovered
    cell with a favourable draw is, when vaccination is allowed. Once the
    vaccinated fraction is not below [1 - rvh], no cell is vaccinated on any
    later day, whatever the draws. *)
Theorem vaccination_gating (draws : nat -> spec_float) (p p' : t) (c : Counts) :
  wf p -> countStates p = Ok c -> Update draws p = Ok p' ->
  (_t p' < _tv p ->
     forall i j, getState p' i j = Ok "vaccinated"%string ->
                 getState p i j = Ok "vaccinated"%string) /\
  (_tv p <= _t p' -> allow_of p c = true ->
     forall i j, getState p i j = Ok "susceptible"%string ->
       let p_inf :=
         F32.mul (F32.of_int (infected_neighbours (_m p) i j)) (_ri p) in
       let seed := seed_of draws (_n p) i j in
       F32.ltb seed p_inf = false -> F32.ltb p_inf seed = true ->
       F32.ltb seed (F32.add p_inf (_rv p)) = true ->
       getState p' i j = Ok "vaccinated"%string) /\
  (_t p' = _tv p ->
     forall i j, getState p i j = Ok "recovered"%string ->
                 getState p' i j <> Ok "vaccinated"%string) /\
  (_tv p < _t p' -> allow_of p c = true ->
     forall i j, getState p i j = Ok "recovered"%string ->
       let seed := seed_of draws (_n p) i j in
       F32.ltb seed (_rm p) = false -> F32.ltb (_rm p) seed = true ->
       F32.ltb seed (F32.add (_rm p) (_rv p)) = true ->
       getState p' i j = Ok "vaccinated"%string) /\
  (F32.ltb (frac_vaccinated p c) (ceiling p) = false ->
     forall days, exists q, advance_days days p = Ok q /\
       forall i j, getState q i j = Ok "vaccinated"%string <->
                   getState p i j = Ok "vaccinated"%string).
Proof.
  intros Hwf Hc Hrun.
  pose proof (Update_frame draws p p' Hwf Hrun) as (Hwf' & Hn' & _).
  split; [| split; [| split; [| split]]].
  - intros Hday i j Hv.
    destruct (getState_Ok_range p' i j _ Hwf' Hv) as [Hi Hj].
    rewrite Hn' in Hi, Hj.
    destruct (getState_in_range p i j Hwf Hi Hj) as [s Hs].
    rewrite (Update_getState draws p p' c i j s Hwf Hrun Hc Hs) in Hv.
    injection Hv as Hv. apply next_state_vaccinated_inv in Hv.
    destruct Hv as [-> | [(_ & Hge & _) | (_ & Hgt & _)]]; [exact Hs | lia | lia].
  - intros Hday Hallow i j Hs p_inf seed H1 H2 H3.
    rewrite (Update_getState draws p p' c i j _ Hwf Hrun Hc Hs).
    rewrite next_state_susceptible. cbv zeta. fold p_inf seed.
    rewrite H1, H2, H3, Hallow.
    destruct (Z.geb_spec (_t p') (_tv p)); [reflexivity | lia].
  - intros Hday i j Hs Hv.
    rewrite (Update_getState draws p p' c i j _ Hwf Hrun Hc Hs) in Hv.
    injection Hv as Hv. apply next_state_vaccinated_inv in Hv.
    destruct Hv as [Hv | [(Hv & _) | (_ & Hgt & _)]];
      [discriminate | discriminate | lia].
  - intros Hday Hallow i j Hs seed H1 H2 H3.
    rewrite (Update_getState draws p p' c i j _ Hwf Hrun Hc Hs).
    rewrite next_state_recovered. fold seed.
    rewrite H1, H2, H3, Hallow.
    destruct (Z.gtb_spec (_t p') (_tv p)); [reflexivity | lia].
  - intros Hgate days.
    exact (advance_days_closed_gate days p c Hwf Hc Hgate).
Qed.

Lemma vaccination_gating_witness :
  wf fresh_199 /\
  countStates fresh_199 =
    Ok {| susceptible := 4; infected := 0; recovered := 0; vaccinated := 0 |} /\
  Update (const_draws d_tiny) fresh_199
    = Ok (sample 2 [[vac; vac]; [vac; vac]] 200) /\
  getState (sample 2 [[vac; vac]; [vac; vac]] 200) 1 0
    = Ok "vaccinated"%string.
Proof.
  assert (wf fresh_199) as Hwf by solve_wf.
  assert (countStates fresh_199 =
    Ok {| susceptible := 4; infected := 0; recovered := 0; vaccinated := 0 |})
    as Hc by reflexivity.
  assert (Update (const_draws d_tiny) fresh_199
    = Ok (sample 2 [[vac; vac]; [vac; vac]] 200)) as Hrun
    by (vm_compute; reflexivity).
  repeat (split; [assumption |]).
  destruct (vaccination_gating _ _ _ _ Hwf Hc Hrun) as (_ & HS & _).
  apply HS; vm_compute; reflexivity || discriminate.
Defined.

(** The parameters are the floats nearest to 1/5, 1/20, 1/200 and 1/1000. *)
Example parameter_values :
  ri_default = F32.div (F32.of_int 1) (F32.of_int 5) /\
  rr_default = F32.div (F32.of_int 1) (F32.of_int 20) /\
  rm_default = F32.div (F32.of_int 1) (F32.of_int 200) /\
  rv_default = F32.div (F32.of_int 1) (F32.of_int 1000) /\
  rvh_default = ri_default.
Proof. repeat split; vm_compute; reflexivity. Qed.

Example recovered_not_on_day_tv :
  Update (const_draws d_mid) lone_recovered_199 = Ok (sample 1 [[rec]] 200).
Proof. vm_compute. reflexivity. Qed.

Example recovered_on_day_after_tv :
  Update (const_draws d_mid) lone_recovered_200 = Ok (sample 1 [[vac]] 201).
Proof. vm_compute. reflexivity. Qed.

Example closed_gate_full :
  countStates full_199 =
    Ok {| susceptible := 0; infected := 0; recovered := 0; vaccinated := 4 |} /\
  F32.ltb (frac_vaccinated full_199
             {| susceptible := 0; infected := 0; recovered := 0; vaccinated := 4 |})
          (ceiling full_199) = false.
Proof. split; vm_compute; reflexivity. Qed.

(** The sample populations are states a driver reaches. *)
Example corner_199_reached :
  (p <- ctor 2 ;;
   run (Force 0 0 Infected :: replicate 199 (Advance (const_draws d_half))) p)
  = Ok corner_199.
Proof. vm_compute. reflexivity. Qed.

Example lone_recovered_200_reached :
  (p <- ctor 1 ;;
   run (Force 0 0 Recovered :: replicate 200 (Advance (const_draws d_half))) p)
  = Ok lone_recovered_200.
Proof. vm_compute. reflexivity. Qed.

Example fresh_199_reached :
  (p <- ctor 2 ;; advance_days (replicate 199 (const_draws d_half)) p)
  = Ok fresh_199.
Proof. vm_compute. reflexivity. Qed.

(** C10. The gate is one value per step: every cell of a step is rewritten
    with the same [allowVaccination], computed from the tallies of the grid
    as it was before the step. So the ceiling [1 - rvh] does not bound the
    vaccinated fraction: the two by two grid the constructor builds, left
    alone for 199 days, has fraction 0, below the ceiling, and with four
    favourable draws on day 200 all four cells are vaccinated in that one
    step, fraction 1, above the ceiling. *)
Theorem gate_once_per_step :
  (forall (draws : nat -> spec_float) (p p' : t) (c : Counts) (i j : Z)
          (s : string),
     wf p -> countStates p = Ok c -> Update draws p = Ok p' ->
     getState p i j = Ok s ->
     getState p' i j =
       Ok (next_state p (_t p') (allow_of p c)
             (infected_neighbours (_m p) i j) (seed_of draws (_n p) i j) s)) /\
  exists (p0 p p' : t) (c c' : Counts),
    ctor 2 = Ok p0 /\
    advance_days (replicate 199 (const_draws d_half)) p0 = Ok p /\
    countStates p = Ok c /\
    F32.ltb (frac_vaccinated p c) (ceiling p) = true /\
    Update (const_draws d_tiny) p = Ok p' /\
    countStates p' = Ok c' /\
    F32.ltb (ceiling p') (frac_vaccinated p' c') = true.
Proof.
  split.
  - intros draws p p' c i j s Hwf Hc Hrun Hs.
    exact (Update_getState draws p p' c i j s Hwf Hrun Hc Hs).
  - exists (sample 2 [[sus; sus]; [sus; sus]] 0), fresh_199,
      (sample 2 [[vac; vac]; [vac; vac]] 200),
      {| susceptible := 4; infected := 0; recovered := 0; vaccinated := 0 |},
      {| susceptible := 0; infected := 0; recovered := 0; vaccinated := 4 |}.
    repeat split; vm_compute; reflexivity.
Qed.

Lemma gate_once_per_step_witness :
  wf corner_199 /\
  getState (sample 2 [[inf; inf]; [inf; sus]] 200) 1 1 = Ok "susceptible"%string.
Proof.
  assert (wf corner_199) as Hwf by solve_wf.
  split; [exact Hwf |].
  rewrite (proj1 gate_once_per_step (const_draws d_eighth) corner_199
             (sample 2 [[inf; inf]; [inf; sus]] 200)
             {| susceptible := 3; infected := 1; recovered := 0; vaccinated := 0 |}
             1 1 "susceptible" Hwf);
    vm_compute; reflexivity.
Defined.

(** ** Determinism *)

Lemma Update_same_draws (d1 d2 : nat -> spec_float) (p : t) :
  wf p -> same_draws (_n p) d1 d2 -> Update d1 p = Update d2 p.
Proof.
  intros Hwf Hsame.
  destruct (Update_spec d1 p Hwf) as (m1 & Hrun1 & Hd1 & Hcells1).
  destruct (Update_spec d2 p Hwf) as (m2 & Hrun2 & Hd2 & Hcells2).
  rewrite Hrun1, Hrun2. do 2 f_equal.
  apply (grid_ext _ _ _ Hd1 Hd2). intros a b Ha Hb.
  rewrite (Hcells1 a b Ha Hb), (Hcells2 a b Ha Hb). unfold next_at.
  destruct (at2 (_m p) a b) as [old|]; [| reflexivity].
  rewrite (Hsame (Z.of_nat a) (Z.of_nat b)) by (destruct Hwf; lia).
  reflexivity.
Qed.

Lemma advance_days_same_draws (days1 : list (nat -> spec_float)) :
  forall days2 p, wf p -> Forall2 (same_draws (_n p)) days1 days2 ->
    exists q, advance_days days1 p = Ok q /\ advance_days days2 p = Ok q.
Proof.
  induction days1 as [|d1 days1 IH]; intros days2 p Hwf Hall.
  - apply Forall2_nil_inv_l in Hall as ->. exists p. auto.
  - apply Forall2_cons_inv_l in Hall as (d2 & rest & Hd & Hrest & ->).
    destruct (Update_total d1 p Hwf) as (p1 & Hrun1 & Hwf1).
    pose proof (Update_same_draws d1 d2 p Hwf Hd) as Heq.
    destruct (Update_frame d1 p p1 Hwf Hrun1) as (_ & Hn1 & _).
    rewrite <- Hn1 in Hrest.
    destruct (IH rest p1 Hwf1 Hrest) as (q & Hq1 & Hq2).
    exists q. cbn [advance_days]. rewrite <- Heq, Hrun1. auto.
Qed.

(** C8. Determinism under fixed draws: two runs from the same population
    (grid, parameters and day) whose draws agree cell by cell on every day
    (the cell [(i, j)] takes draw number [i * n + j] of its day) reach, after
    every number of days, the same population, hence the same tallies. *)
Theorem advance_deterministic (days1 days2 : list (nat -> spec_float))
    (p : t) (k : nat) :
  wf p -> Forall2 (same_draws (_n p)) days1 days2 ->
  exists q c,
    advance_days (take k days1) p = Ok q /\
    advance_days (take k days2) p = Ok q /\
    countStates q = Ok c.
Proof.
  intros Hwf Hall.
  destruct (advance_days_same_draws (take k days1) (take k days2) p Hwf
              (Forall2_take _ _ _ k Hall)) as (q & Hq1 & Hq2).
  assert (wf q) as Hwfq.
  { clear Hq2 Hall. revert p Hwf Hq1.
    induction (take k days1) as [|d l IH]; intros p Hwf Hq1.
    - injection Hq1 as <-. exact Hwf.
    - cbn [advance_days] in Hq1.
      destruct (Update_total d p Hwf) as (p1 & Hrun1 & Hwf1).
      rewrite Hrun1 in Hq1. exact (IH p1 Hwf1 Hq1). }
  destruct (countStates_total q Hwfq) as [c Hc]. eauto.
Qed.

Lemma advance_deterministic_witness :
  wf corner_199 /\
  Forall2 (same_draws 2)
    [const_draws d_eighth; const_draws d_half]
    [draws_then_half; const_draws d_half] /\
  exists q c,
    advance_days (take 2 [const_draws d_eighth; const_draws d_half]) corner_199
      = Ok q /\
    advance_days (take 2 [draws_then_half; const_draws d_half]) corner_199
      = Ok q /\
    countStates q = Ok c.
Proof.
  assert (wf corner_199) as Hwf by solve_wf.
  assert (Forall2 (same_draws 2)
            [const_draws d_eighth; const_draws d_half]
            [draws_then_half; const_draws d_half]) as Hall.
  { constructor; [| constructor; [| constructor]].
    - intros i j Hi Hj.
      assert (i = 0 \/ i = 1) as [-> | ->] by lia;
        assert (j = 0 \/ j = 1) as [-> | ->] by lia; reflexivity.
    - intros i j _ _. reflexivity. }
  split; [exact Hwf |]. split; [exact Hall |].
  exact (advance_deterministic _ _ corner_199 2 Hwf Hall).
Defined.

(** ** The day counter and the frame of an override *)

Lemma Update_t (draws : nat -> spec_float) (p p' : t) :
  Update draws p = Ok p' -> _t p' = Int.incr (_t p).
Proof.
  unfold Update.
  destruct (countStates _) as [c| |]; try discriminate. cbn [bind].
  destruct (for_loop _ _ _) as [st| |]; try discriminate. cbn [bind].
  intros [= <-]. reflexivity.
Qed.

Lemma forceState_frame (p p' : t) (i j : Z) (st : state) :
  wf p -> forceState p i j st = Ok p' ->
  wf p' /\
  _t p' = _t p /\ _n p' = _n p /\ _tv p' = _tv p /\ _ri p' = _ri p /\
  _rr p' = _rr p /\ _rm p' = _rm p /\ _rv p' = _rv p /\ _rvh p' = _rvh p /\
  getState p' i j = Ok (state_name st) /\
  forall i' j', (i', j') <> (i, j) -> getState p' i' j' = getState p i' j'.
Proof.
  intros Hwf Hrun.
  destruct (forceState_Ok_inv p p' i j st Hwf Hrun) as [Hi Hj].
  destruct (forceState_in_range p i j st Hwf Hi Hj)
    as (m' & Hrun' & Hd' & Hij & Hother).
  rewrite Hrun in Hrun'. injection Hrun' as ->.
  split; [split; [apply Hwf | exact Hd'] |].
  do 8 (split; [reflexivity |]). split.
  - rewrite <- (Z2Nat.id i), <- (Z2Nat.id j) by lia.
    now rewrite (getState_at2 (with_m p m') _ _ _ Hij).
  - intros i' j' Hne. rewrite !getState_unfold. cbn [_m with_m].
    destruct (Z.leb_spec 0 i'); [| reflexivity].
    destruct (Z.leb_spec 0 j'); [| reflexivity]. cbn [andb].
    rewrite Hother; [reflexivity |].
    intros [= Ei Ej]. apply Hne. f_equal; lia.
Qed.

Lemma run_t (ops : list op) : forall p p',
  wf p -> run ops p = Ok p' ->
  Int.INT_MIN <= _t p -> _t p + count_advances ops <= Int.INT_MAX ->
  _t p' = _t p + count_advances ops.
Proof.
  unfold count_advances.
  induction ops as [|o ops IH]; intros p p' Hwf Hrun Hlo Hhi.
  - injection Hrun as <-. cbn. lia.
  - cbn [run] in Hrun.
    destruct (apply_op o p) as [p1| |] eqn:Hop; try discriminate.
    cbn [bind] in Hrun. rewrite filter_cons in Hhi |- *.
    destruct o as [i j st|draws]; cbn [apply_op is_advance] in *.
    + destruct (forceState_frame p p1 i j st Hwf Hop) as (Hwf1 & Ht & _).
      destruct (decide (false = true)); [discriminate |].
      rewrite <- Ht. apply (IH p1 p' Hwf1 Hrun); rewrite Ht; assumption.
    + destruct (Update_frame draws p p1 Hwf Hop) as (Hwf1 & _ & Ht & _).
      destruct (decide (true = true)); [| congruence].
      cbn [length] in Hhi |- *.
      rewrite incr_in_range in Ht by lia.
      rewrite (IH p1 p' Hwf1 Hrun); rewrite Ht; lia.
Qed.

(** C9. The day counter is 0 after construction; after a sequence of
    overrides and days it is the number of days advanced; a day adds exactly
    1 (below [INT_MAX], the largest [int]); an override leaves the day
    counter, the size and every parameter as they were, puts the cell in the
    state asked for, and leaves every other cell as it was. *)
Theorem day_counter_and_frame (n : Z) (ops : list op) (p0 p : t) :
  ctor n = Ok p0 -> run ops p0 = Ok p ->
  count_advances ops <= Int.INT_MAX ->
  _t p0 = 0 /\
  _t p = count_advances ops /\
  (forall draws p', Update draws p = Ok p' -> _t p < Int.INT_MAX ->
     _t p' = _t p + 1) /\
  (forall i j st p', forceState p i j st = Ok p' ->
     _t p' = _t p /\ _n p' = _n p /\ _tv p' = _tv p /\ _ri p' = _ri p /\
     _rr p' = _rr p /\ _rm p' = _rm p /\ _rv p' = _rv p /\ _rvh p' = _rvh p /\
     getState p' i j = Ok (state_name st) /\
     forall i' j', (i', j') <> (i, j) -> getState p' i' j' = getState p i' j').
Proof.
  intros Hctor Hrun Hmax.
  assert (0 <= n) as Hn.
  { destruct (Z_lt_dec n 0) as [Hneg|]; [| lia].
    rewrite (ctor_negative n Hneg) in Hctor. discriminate. }
  destruct (ctor_Ok n Hn) as (q & Hq & Hwf0 & Hk0 & _ & Ht0 & _).
  rewrite Hctor in Hq. injection Hq as <-.
  destruct (run_inv ops p0 p (conj Hwf0 Hk0) Hrun) as [[Hwf _] _].
  assert (_t p = count_advances ops) as Ht.
  { rewrite (run_t ops p0 p Hwf0 Hrun); rewrite Ht0; unfold Int.INT_MIN; lia. }
  split; [exact Ht0 |]. split; [exact Ht |]. split.
  - intros draws p' Hup Hlt. rewrite (Update_t draws p p' Hup).
    apply incr_in_range. unfold count_advances in Ht. unfold Int.INT_MIN. lia.
  - intros i j st p' Hforce.
    destruct (forceState_frame p p' i j st Hwf Hforce) as (_ & H).
    exact H.
Qed.

Lemma day_counter_and_frame_witness :
  ctor 2 = Ok (sample 2 [[sus; sus]; [sus; sus]] 0) /\
  run [Force 0 0 Infected; Advance (const_draws d_eighth);
       Force 1 1 Vaccinated; Advance (const_draws d_half)]
      (sample 2 [[sus; sus]; [sus; sus]] 0)
    = Ok (sample 2 [[inf; inf]; [inf; vac]] 2) /\
  _t (sample 2 [[inf; inf]; [inf; vac]] 2) = 2.
Proof.
  assert (ctor 2 = Ok (sample 2 [[sus; sus]; [sus; sus]] 0)) as Hctor
    by reflexivity.
  assert (run [Force 0 0 Infected; Advance (const_draws d_eighth);
               Force 1 1 Vaccinated; Advance (const_draws d_half)]
              (sample 2 [[sus; sus]; [sus; sus]] 0)
          = Ok (sample 2 [[inf; inf]; [inf; vac]] 2)) as Hrun
    by (vm_compute; reflexivity).
  split; [exact Hctor |]. split; [exact Hrun |].
  destruct (day_counter_and_frame 2 _ _ _ Hctor Hrun) as (_ & Ht & _).
  - vm_compute. discriminate.
  - rewrite Ht. reflexivity.
Defined.

(** ** Construction *)

(** C6, amended. For every size [n >= 0] the constructor returns a
    population of side [n] with [n * n] cells, all susceptible, and day
    counter 0 (for [n = 0] the empty grid); it fails exactly for [n < 0], the
    size error of the vector, and then returns no population. *)
Theorem ctor_grid (n : Z) :
  (0 <= n ->
     exists p, ctor n = Ok p /\ wf p /\ _n p = n /\ _t p = 0 /\
       Z.of_nat (length (_m p)) = n /\
       Z.of_nat (length (concat (_m p))) = n * n /\
       forall i j, 0 <= i < n -> 0 <= j < n ->
         getState p i j = Ok "susceptible"%string) /\
  ((exists e, ctor n = Throws e) <-> n < 0) /\
  ctor n <> Undefined.
Proof.
  split; [| split].
  - intros Hn.
    destruct (ctor_Ok n Hn) as (p & Hp & Hwf & _ & Hnp & Ht & Hcells).
    exists p. split; [exact Hp |]. split; [exact Hwf |].
    split; [exact Hnp |]. split; [exact Ht |]. split; [| split].
    + destruct Hwf as [_ [Hlen _]]. rewrite Hlen, Hnp. lia.
    + rewrite (length_concat_dims _ _ (proj2 Hwf)), Hnp. lia.
    + intros i j Hi Hj.
      rewrite <- (Z2Nat.id i), <- (Z2Nat.id j) by lia.
      rewrite (getState_at2 p _ _ Person.ctor); [reflexivity |].
      apply Hcells; lia.
  - split.
    + intros [e He]. destruct (Z_lt_dec n 0) as [|Hn]; [assumption |].
      destruct (ctor_Ok n ltac:(lia)) as (p & Hp & _).
      rewrite Hp in He. discriminate.
    + intros Hn. exists length_error. now apply ctor_negative.
  - destruct (Z_lt_dec n 0) as [Hn|Hn].
    + rewrite (ctor_negative n Hn). discriminate.
    + destruct (ctor_Ok n ltac:(lia)) as (p & Hp & _). rewrite Hp. discriminate.
Qed.

Lemma ctor_grid_witness :
  0 <= 3 /\
  exists p, ctor 3 = Ok p /\ _t p = 0 /\
    Z.of_nat (length (concat (_m p))) = 3 * 3 /\
    getState p 2 2 = Ok "susceptible"%string.
Proof.
  split; [lia |].
  destruct (proj1 (ctor_grid 3) ltac:(lia))
    as (p & Hp & _ & _ & Ht & _ & Hlen & Hcells).
  exists p. split; [exact Hp |]. split; [exact Ht |]. split; [exact Hlen |].
  apply Hcells; lia.
Defined.

(** C6 as stated fails at [n = 0]: the constructor returns the empty
    population instead of failing. *)
Lemma ctor_zero_succeeds :
  ctor 0 = Ok (sample 0 [] 0) /\ ~ spec_ctor_fails 0.
Proof.
  split; [reflexivity |].
  unfold spec_ctor_fails. intros [_ H].
  destruct (H ltac:(lia)) as [e He]. discriminate.
Qed.

(** In the earlier header the member grid is empty whatever the size. *)
Remark Legacy_ctor_grid_empty (n : Z) :
  0 <= n ->
  exists p, Legacy.ctor n = Ok p /\ Legacy._m p = [] /\ Legacy._n p = n.
Proof.
  intros Hn. unfold Legacy.ctor, Vec.make.
  destruct (Z.ltb_spec n 0); [lia |]. cbn [bind]. eauto.
Qed.

(** ** Access outside the grid *)

(** C7, amended. [getState] and the mutators make no bounds check. Inside
    the grid [getState] returns the cell's state and a mutator returns the
    population with that one cell in the state asked for, every other cell
    as it was, and takes no draw; outside the grid both are undefined
    behaviour, not a reported failure. *)
Theorem access_unchecked (p : t) (i j : Z) (st : state) :
  wf p ->
  (0 <= i < _n p /\ 0 <= j < _n p ->
     (exists s, getState p i j = Ok s) /\
     exists p', forceState p i j st = Ok p' /\
       getState p' i j = Ok (state_name st) /\
       _t p' = _t p /\
       forall i' j', (i', j') <> (i, j) ->
         getState p' i' j' = getState p i' j') /\
  (~ (0 <= i < _n p /\ 0 <= j < _n p) ->
     getState p i j = Undefined /\ forceState p i j st = Undefined).
Proof.
  intros Hwf. split.
  - intros [Hi Hj]. split; [exact (getState_in_range p i j Hwf Hi Hj) |].
    destruct (forceState_in_range p i j st Hwf Hi Hj) as (m' & Hrun & _).
    exists (with_m p m'). split; [exact Hrun |].
    destruct (forceState_frame p _ i j st Hwf Hrun)
      as (_ & Ht & _ & _ & _ & _ & _ & _ & _ & Hij & Hother).
    auto.
  - intros Hout. split.
    + apply getState_out_of_range; [exact Hwf | lia].
    + apply forceState_out_of_range; [exact Hwf | lia].
Qed.

Lemma access_unchecked_witness :
  wf fresh_199 /\
  (exists s, getState fresh_199 1 0 = Ok s) /\
  (exists p', forceState fresh_199 1 0 Infected = Ok p' /\
     getState p' 1 0 = Ok "infected"%string /\
     _t p' = 199 /\
     forall i' j', (i', j') <> (1, 0) ->
       getState p' i' j' = getState fresh_199 i' j') /\
  getState fresh_199 2 0 = Undefined /\
  forceState fresh_199 2 0 Infected = Undefined.
Proof.
  assert (wf fresh_199) as Hwf by solve_wf.
  split; [exact Hwf |].
  destruct (access_unchecked fresh_199 1 0 Infected Hwf) as [Hin _].
  destruct (access_unchecked fresh_199 2 0 Infected Hwf) as [_ Hout].
  destruct (Hin ltac:(change (_n fresh_199) with 2; lia)) as [Hget Hset].
  destruct Hout as [Hg Hf]; [change (_n fresh_199) with 2; lia |].
  split; [exact Hget |]. split; [exact Hset |]. split; [exact Hg | exact Hf].
Defined.

(** C7 as stated fails: on the two by two grid, reading or overriding the
    cell [(2, 0)] or [(0, -1)] is undefined behaviour of the unchecked
    vector access, not a failure that reports the index. *)
Lemma access_outside_not_reported :
  getState fresh_199 2 0 = Undefined /\
  forceState fresh_199 0 (-1) Infected = Undefined /\
  ~ fails_out_of_bounds (getState fresh_199 2 0) /\
  ~ fails_out_of_bounds (forceState fresh_199 0 (-1) Infected) /\
  ~ (exists e, getState fresh_199 2 0 = Throws e) /\
  ~ (exists e, forceState fresh_199 0 (-1) Infected = Throws e).
Proof.
  split; [reflexivity |]. split; [reflexivity |].
  split; [unfold fails_out_of_bounds; vm_compute; discriminate |].
  split; [unfold fails_out_of_bounds; vm_compute; discriminate |].
  split; intros [e He]; vm_compute in He; discriminate.
Qed.

(** * Further properties of the step *)

(** ** The infected rule and the transitions *)

(** X1. A cell that is infected before the step is recovered after it if its
    draw is below [rr], and is still infected otherwise; neither the
    neighbours, nor the day, nor the gate matter. *)
Theorem Update_infected (draws : nat -> spec_float) (p p' : t) (i j : Z) :
  wf p -> Update draws p = Ok p' ->
  getState p i j = Ok "infected"%string ->
  getState p' i j =
    Ok (if F32.ltb (seed_of draws (_n p) i j) (_rr p)
        then "recovered"%string else "infected"%string).
Proof.
  intros Hwf Hrun Hs. destruct (countStates_total p Hwf) as [c Hc].
  rewrite (Update_getState draws p p' c i j _ Hwf Hrun Hc Hs).
  now rewrite next_state_infected.
Qed.

Lemma Update_infected_witness :
  wf corner_199 /\
  Update (const_draws d_tiny) corner_199
    = Ok (sample 2 [[rec; inf]; [inf; vac]] 200) /\
  getState corner_199 0 0 = Ok "infected"%string /\
  getState (sample 2 [[rec; inf]; [inf; vac]] 200) 0 0 = Ok "recovered"%string.
Proof.
  assert (wf corner_199) as Hwf by solve_wf.
  assert (Update (const_draws d_tiny) corner_199
    = Ok (sample 2 [[rec; inf]; [inf; vac]] 200)) as Hrun
    by (vm_compute; reflexivity).
  assert (getState corner_199 0 0 = Ok "infected"%string) as Hs by reflexivity.
  repeat (split; [assumption |]).
  rewrite (Update_infected _ _ _ 0 0 Hwf Hrun Hs). vm_compute. reflexivity.
Defined.

Lemma next_state_cases p day allow k seed s :
  let s' := next_state p day allow k seed s in
  s' = s \/
  (s = "susceptible"%string /\
   (s' = "infected"%string /\
      F32.ltb seed (F32.mul (F32.of_int k) (_ri p)) = true \/
    s' = "vaccinated"%string)) \/
  (s = "infected"%string /\ s' = "recovered"%string) \/
  (s = "recovered"%string /\
   (s' = "susceptible"%string \/ s' = "vaccinated"%string)).
Proof.
  cbv zeta. unfold next_state, next_person. cbn [Person.getState Person._state].
  destruct (String.eqb_spec s "susceptible") as [->|Hs].
  - destruct (F32.ltb seed _) eqn:E; [right; left; cbn; auto |].
    destruct (_ && _); cbn; auto 6.
  - destruct (String.eqb_spec s "infected") as [->|Hi].
    + destruct (F32.ltb seed _); cbn; auto 6.
    + destruct (String.eqb_spec s "recovered") as [->|Hr]; [| now left].
      destruct (F32.ltb seed _); [cbn; auto 8 |].
      destruct (_ && _); cbn; auto 8.
Qed.

(** X2. The only changes a step makes to a cell are susceptible to infected
    or vaccinated, infected to recovered, and recovered to susceptible or
    vaccinated: a susceptible cell never recovers, an infected cell is never
    susceptible or vaccinated the next day, a recovered cell is never
    infected the next day. *)
Theorem Update_transitions (draws : nat -> spec_float) (p p' : t) (i j : Z)
    (s s' : string) :
  wf p -> Update draws p = Ok p' ->
  getState p i j = Ok s -> getState p' i j = Ok s' ->
  s' = s \/
  (s = "susceptible"%string /\
   (s' = "infected"%string \/ s' = "vaccinated"%string)) \/
  (s = "infected"%string /\ s' = "recovered"%string) \/
  (s = "recovered"%string /\
   (s' = "susceptible"%string \/ s' = "vaccinated"%string)).
Proof.
  intros Hwf Hrun Hs Hs'. destruct (countStates_total p Hwf) as [c Hc].
  rewrite (Update_getState draws p p' c i j _ Hwf Hrun Hc Hs) in Hs'.
  injection Hs' as <-.
  destruct (next_state_cases p (_t p') (allow_of p c)
              (infected_neighbours (_m p) i j) (seed_of draws (_n p) i j) s)
    as [H | [(H1 & [[H2 _] | H2]) | [H | H]]]; auto 8.
Qed.

Lemma Update_transitions_witness :
  wf corner_199 /\
  Update (const_draws d_tiny) corner_199
    = Ok (sample 2 [[rec; inf]; [inf; vac]] 200) /\
  getState corner_199 1 1 = Ok "susceptible"%string /\
  getState (sample 2 [[rec; inf]; [inf; vac]] 200) 1 1 = Ok "vaccinated"%string /\
  ("vaccinated" = "susceptible" \/
   ("susceptible" = "susceptible" /\
    ("vaccinated" = "infected" \/ "vaccinated" = "vaccinated")) \/
   ("susceptible" = "infected" /\ "vaccinated" = "recovered") \/
   ("susceptible" = "recovered" /\
    ("vaccinated" = "susceptible" \/ "vaccinated" = "vaccinated")))%string.
Proof.
  assert (wf corner_199) as Hwf by solve_wf.
  assert (Update (const_draws d_tiny) corner_199
    = Ok (sample 2 [[rec; inf]; [inf; vac]] 200)) as Hrun
    by (vm_compute; reflexivity).
  assert (getState corner_199 1 1 = Ok "susceptible"%string) as Hs
    by reflexivity.
  assert (getState (sample 2 [[rec; inf]; [inf; vac]] 200) 1 1
          = Ok "vaccinated"%string) as Hs' by reflexivity.
  repeat (split; [assumption |]).
  exact (Update_transitions _ _ _ 1 1 _ _ Hwf Hrun Hs Hs').
Defined.

(** ** Infection needs contact *)

Lemma ltb_no_neighbour (seed ri : F32.t) :
  F32.ltb seed F32.zero = false ->
  F32.ltb seed (F32.mul (F32.of_int 0) ri) = false.
Proof.
  unfold F32.ltb, F32.zero, F32.mul, F32.of_int.
  destruct ri as [sr|sr| |sr mr er], seed as [ss|ss| |ss ms es];
    cbn; try reflexivity; try (intros H; exact H); destruct sr, ss; cbn; auto.
Qed.

Lemma getState_not_infected_at (p : t) :
  (forall i j, getState p i j <> Ok "infected"%string) ->
  forall i j, infected_neighbours (_m p) i j = 0.
Proof.
  intros Hfree i j. unfold infected_neighbours.
  assert (forall a b, infected_at (_m p) a b = false) as H.
  { intros a b. destruct (infected_at (_m p) a b) eqn:E; [| reflexivity].
    apply infected_at_getState in E. now destruct (Hfree a b). }
  now rewrite !H.
Qed.

(** X3. Infection spreads by contact only. A susceptible cell none of whose
    neighbours is infected is not infected by a step whose draw for it is not
    negative; and a population without infected cells has none after any
    number of days of non-negative draws. *)
Theorem infection_needs_contact (days : list (nat -> spec_float)) (p : t) :
  wf p -> Forall nonneg_draws days ->
  (forall d p' i j, Update d p = Ok p' -> nonneg_draws d ->
     getState p i j = Ok "susceptible"%string ->
     infected_neighbours (_m p) i j = 0 ->
     getState p' i j <> Ok "infected"%string) /\
  ((forall i j, getState p i j <> Ok "infected"%string) ->
     exists q, advance_days days p = Ok q /\
       forall i j, getState q i j <> Ok "infected"%string).
Proof.
  intros Hwf Hdays. split.
  - intros d p' i j Hrun Hd Hs Hk Hinf.
    destruct (countStates_total p Hwf) as [c Hc].
    rewrite (Update_getState d p p' c i j _ Hwf Hrun Hc Hs) in Hinf.
    rewrite next_state_susceptible, Hk in Hinf. cbv zeta in Hinf.
    unfold seed_of in Hinf. rewrite (ltb_no_neighbour _ _ (Hd _)) in Hinf.
    destruct (_ && _) in Hinf; discriminate.
  - revert p Hwf. induction Hdays as [|d days Hd _ IH]; intros p Hwf Hfree.
    + exists p. split; [reflexivity | exact Hfree].
    + destruct (Update_total d p Hwf) as (p1 & Hrun & Hwf1).
      destruct (countStates_total p Hwf) as [c Hc].
      destruct (Update_frame d p p1 Hwf Hrun) as (_ & Hn1 & _).
      assert (forall i j, getState p1 i j <> Ok "infected"%string) as Hfree1.
      { intros i j Hinf.
        destruct (getState_Ok_range p1 i j _ Hwf1 Hinf) as [Hi Hj].
        rewrite Hn1 in Hi, Hj.
        destruct (getState_in_range p i j Hwf Hi Hj) as [s Hs].
        rewrite (Update_getState d p p1 c i j s Hwf Hrun Hc Hs) in Hinf.
        injection Hinf as Hinf.
        destruct (next_state_cases p (_t p1) (allow_of p c)
                    (infected_neighbours (_m p) i j) (seed_of d (_n p) i j) s)
          as [H | [(H1 & [[_ H2] | H2]) | [[H1 H2] | [H1 H2]]]].
        - rewrite Hinf in H. subst s. now destruct (Hfree i j).
        - rewrite (getState_not_infected_at p Hfree) in H2.
          unfold seed_of in H2. rewrite (ltb_no_neighbour _ _ (Hd _)) in H2.
          discriminate.
        - rewrite Hinf in H2. discriminate.
        - rewrite Hinf in H2. discriminate.
        - rewrite Hinf in H2. destruct H2; discriminate. }
      destruct (IH p1 Hwf1 Hfree1) as (q & Hq & Hfreeq).
      exists q. split; [cbn [advance_days]; now rewrite Hrun | exact Hfreeq].
Qed.

Lemma infection_needs_contact_witness :
  wf fresh_199 /\
  Forall nonneg_draws [const_draws d_tiny; const_draws d_half] /\
  (forall i j, getState fresh_199 i j <> Ok "infected"%string) /\
  exists q, advance_days [const_draws d_tiny; const_draws d_half] fresh_199
            = Ok q /\
    forall i j, getState q i j <> Ok "infected"%string.
Proof.
  assert (wf fresh_199) as Hwf by solve_wf.
  assert (Forall nonneg_draws [const_draws d_tiny; const_draws d_half]) as Hd.
  { repeat constructor; intros k; reflexivity. }
  assert (forall i j, getState fresh_199 i j <> Ok "infected"%string) as Hfree.
  { intros i j. rewrite getState_unfold.
    destruct ((0 <=? i) && (0 <=? j)); [| discriminate].
    destruct (Z.to_nat i) as [|[|a]], (Z.to_nat j) as [|[|b]];
      cbn; discriminate. }
  split; [exact Hwf |]. split; [exact Hd |]. split; [exact Hfree |].
  exact (proj2 (infection_needs_contact _ fresh_199 Hwf Hd) Hfree).
Defined.

(** ** Days on which nothing can happen *)

Lemma Update_quiet (d : nat -> spec_float) (p : t) :
  wf p -> nonneg_draws d ->
  (forall i j s, getState p i j = Ok s ->
     s = "susceptible"%string \/ s = "vaccinated"%string) ->
  Int.incr (_t p) < _tv p ->
  Update d p = Ok (with_t p (Int.incr (_t p))).
Proof.
  intros Hwf Hd Hsv Hday.
  destruct (Update_spec d p Hwf) as (m' & Hrun & Hd' & Hcells).
  rewrite Hrun. f_equal.
  assert (m' = _m p) as ->; [| reflexivity].
  apply (grid_ext _ _ _ Hd' (proj2 Hwf)). intros a b Ha Hb.
  rewrite (Hcells a b Ha Hb). unfold next_at.
  destruct (at2 (_m p) a b) as [old|] eqn:Hold; [| reflexivity]. f_equal.
  pose proof (getState_at2 p a b old Hold) as Hs.
  assert (forall i j, getState p i j <> Ok "infected"%string) as Hfree.
  { intros i j Hinf. destruct (Hsv i j _ Hinf); discriminate. }
  rewrite (getState_not_infected_at p Hfree).
  unfold next_person, seed_of.
  destruct (Hsv _ _ _ Hs) as [E | E]; rewrite E; cbn [String.eqb Ascii.eqb Bool.eqb].
  - rewrite (ltb_no_neighbour _ _ (Hd _)).
    destruct (Z.geb_spec (Int.incr (_t p)) (_tv p)); [lia | reflexivity].
  - reflexivity.
Qed.

(** X4. Without an infected or recovered cell nothing changes before the
    vaccine: on a population whose cells are all susceptible or vaccinated,
    days that end before day [tv] leave the grid as it is and only count the
    days, whatever the (non-negative) draws. *)
Theorem quiet_before_vaccine (days : list (nat -> spec_float)) :
  forall p : t,
    wf p -> Forall nonneg_draws days ->
    (forall i j s, getState p i j = Ok s ->
       s = "susceptible"%string \/ s = "vaccinated"%string) ->
    Int.INT_MIN <= _t p -> _tv p <= Int.INT_MAX ->
    _t p + Z.of_nat (length days) < _tv p ->
    advance_days days p = Ok (with_t p (_t p + Z.of_nat (length days))).
Proof.
  induction days as [|d days IH]; intros p Hwf Hdays Hsv Hlo Hhi Hlen.
  - cbn. rewrite Z.add_0_r. now destruct p.
  - apply Forall_cons in Hdays as [Hd Hdays]. cbn [length] in Hlen.
    assert (Int.incr (_t p) = _t p + 1) as Hincr by (apply incr_in_range; lia).
    cbn [advance_days].
    rewrite (Update_quiet d p Hwf Hd Hsv ltac:(lia)). cbn [bind].
    rewrite (IH (with_t p (Int.incr (_t p))) Hwf Hdays Hsv);
      cbn [_t _tv with_t]; [| lia | lia | lia].
    f_equal. unfold with_t. cbn. f_equal. lia.
Qed.

Lemma quiet_before_vaccine_witness :
  wf mixed_quiet /\
  advance_days [const_draws d_tiny; const_draws d_half; const_draws d_ri]
    mixed_quiet
  = Ok (with_t mixed_quiet (_t mixed_quiet + 3)).
Proof.
  assert (wf mixed_quiet) as Hwf by solve_wf.
  split; [exact Hwf |].
  apply (quiet_before_vaccine
           [const_draws d_tiny; const_draws d_half; const_draws d_ri]
           mixed_quiet Hwf).
  - repeat constructor; intros k; reflexivity.
  - intros i j s. rewrite getState_unfold.
    destruct ((0 <=? i) && (0 <=? j)); [| discriminate].
    destruct (Z.to_nat i) as [|[|a]], (Z.to_nat j) as [|[|b]];
      cbn; intros [= <-]; auto.
  - vm_compute. discriminate.
  - vm_compute. discriminate.
  - vm_compute. reflexivity.
Defined.

(** ** The vaccinated tally *)

Lemma countStates_fields (p : t) (c : Counts) :
  wf p -> _n p * _n p <= Int.INT_MAX -> countStates p = Ok c ->
  susceptible c = tally "susceptible" (concat (_m p)) /\
  infected c = tally "infected" (concat (_m p)) /\
  recovered c = tally "recovered" (concat (_m p)) /\
  vaccinated c = tally "vaccinated" (concat (_m p)).
Proof.
  intros Hwf Hmax Hc.
  rewrite (countStates_count_list p Hwf) in Hc. injection Hc as <-.
  destruct (count_list_tally (concat (_m p))) as (Es & Ei & Er & Ev).
  pose proof (length_concat_dims _ _ (proj2 Hwf)) as Hlen.
  assert (Z.of_nat (length (concat (_m p))) = _n p * _n p) as HlenZ.
  { rewrite Hlen, Nat2Z.inj_mul, Z2Nat.id by apply Hwf. reflexivity. }
  assert (forall s, Int.wrap (tally s (concat (_m p))) = tally s (concat (_m p)))
    as Hwrap.
  { intros s. apply wrap_in_range.
    pose proof (tally_nonneg s (concat (_m p))).
    pose proof (tally_le_length s (concat (_m p))).
    unfold Int.in_range, Int.INT_MIN, Int.INT_MAX in *. lia. }
  rewrite Es, Ei, Er, Ev, !Hwrap. auto.
Qed.

Lemma tally_Forall2_le s (l l' : list Person.t) :
  Forall2 (fun x x' => Person.getState x = s -> Person.getState x' = s) l l' ->
  tally s l <= tally s l'.
Proof.
  unfold tally. induction 1 as [|x x' l l' Hx _ IH]; [reflexivity |].
  rewrite !filter_cons.
  destruct (decide (Person.getState x = s)) as [E|E],
           (decide (Person.getState x' = s)) as [E'|E'];
    cbn [length]; try lia. tauto.
Qed.

(** X5. The vaccinated tally never goes down: after a step, [countStates]
    reports at least as many vaccinated cells as before it, whatever the
    draws. *)
Theorem vaccinated_never_decreases (draws : nat -> spec_float) (p p' : t)
    (c : Counts) :
  wf p -> _n p * _n p <= Int.INT_MAX ->
  countStates p = Ok c -> Update draws p = Ok p' ->
  exists c', countStates p' = Ok c' /\ vaccinated c <= vaccinated c'.
Proof.
  intros Hwf Hmax Hc Hrun.
  destruct (Update_frame draws p p' Hwf Hrun) as (Hwf' & Hn' & _).
  destruct (countStates_total p' Hwf') as [c' Hc']. exists c'.
  split; [exact Hc' |].
  destruct (countStates_fields p c Hwf Hmax Hc) as (_ & _ & _ & ->).
  destruct (countStates_fields p' c' Hwf' ltac:(rewrite Hn'; exact Hmax) Hc')
    as (_ & _ & _ & ->).
  apply tally_Forall2_le, Forall2_concat_rows.
  apply Forall2_same_length_lookup.
  split; [destruct Hwf as [_ [? _]], Hwf' as [_ [? _]]; congruence |].
  intros a row row' Hrow Hrow'.
  apply Forall2_same_length_lookup. split.
  - rewrite (dims_lookup _ _ _ _ (proj2 Hwf) Hrow),
      (dims_lookup _ _ _ _ (proj2 Hwf') Hrow'). now rewrite Hn'.
  - intros b x x' Hx Hx' Hv.
    assert (at2 (_m p) a b = Some x) as Hat by (unfold at2; now rewrite Hrow).
    assert (at2 (_m p') a b = Some x') as Hat' by (unfold at2; now rewrite Hrow').
    pose proof (getState_at2 p a b x Hat) as G. rewrite Hv in G.
    pose proof (Update_getState draws p p' c _ _ _ Hwf Hrun Hc G) as G'.
    rewrite next_state_vaccinated, (getState_at2 p' a b x' Hat') in G'.
    now injection G'.
Qed.

Lemma vaccinated_never_decreases_witness :
  wf mixed_3 /\ _n mixed_3 * _n mixed_3 <= Int.INT_MAX /\
  countStates mixed_3 =
    Ok {| susceptible := 6; infected := 1; recovered := 1; vaccinated := 1 |} /\
  exists p', Update (const_draws d_tiny) mixed_3 = Ok p' /\
    exists c', countStates p' = Ok c' /\ 1 <= vaccinated c'.
Proof.
  assert (wf mixed_3) as Hwf by solve_wf.
  assert (_n mixed_3 * _n mixed_3 <= Int.INT_MAX) as Hmax
    by (vm_compute; discriminate).
  assert (countStates mixed_3 =
    Ok {| susceptible := 6; infected := 1; recovered := 1; vaccinated := 1 |})
    as Hc by reflexivity.
  destruct (Update_total (const_draws d_tiny) mixed_3 Hwf) as (p' & Hrun & _).
  repeat (split; [assumption |]). exists p'. split; [exact Hrun |].
  exact (vaccinated_never_decreases _ _ _ _ Hwf Hmax Hc Hrun).
Defined.

(** ** What a driver can never change *)

Lemma known_state_name_inv (s : string) :
  known s -> exists st, s = state_name st.
Proof.
  intros [-> | [-> | [-> | ->]]];
    [exists Susceptible | exists Infected | exists Recovered | exists Vaccinated];
    reflexivity.
Qed.

Lemma run_frame (ops : list op) : forall p p',
  wf p -> run ops p = Ok p' ->
  _tv p' = _tv p /\ _ri p' = _ri p /\ _rr p' = _rr p /\ _rm p' = _rm p /\
  _rv p' = _rv p /\ _rvh p' = _rvh p.
Proof.
  induction ops as [|o ops IH]; intros p p' Hwf Hrun.
  - injection Hrun as <-. auto 10.
  - cbn [run] in Hrun.
    destruct (apply_op o p) as [p1| |] eqn:Hop; try discriminate.
    cbn [bind] in Hrun.
    assert (wf p1 /\ _tv p1 = _tv p /\ _ri p1 = _ri p /\ _rr p1 = _rr p /\
            _rm p1 = _rm p /\ _rv p1 = _rv p /\ _rvh p1 = _rvh p)
      as (Hwf1 & E1 & E2 & E3 & E4 & E5 & E6).
    { destruct o as [i j st|draws]; cbn [apply_op] in Hop.
      - destruct (forceState_frame p p1 i j st Hwf Hop)
          as (? & _ & _ & ? & ? & ? & ? & ? & ? & _). auto 10.
      - destruct (Update_frame draws p p1 Hwf Hop)
          as (? & _ & _ & ? & ? & ? & ? & ? & ?). auto 10. }
    destruct (IH p1 p' Hwf1 Hrun) as (F1 & F2 & F3 & F4 & F5 & F6).
    repeat split; congruence.
Qed.

(** X6. Whatever a driver does after constructing a population of side
    [n], [size] stays [n], the cells stay exactly those of the [n] by [n]
    grid, each in one of the four states (no fifth state string ever
    appears), and the rates, the hesitancy and the vaccine day stay at their
    initial values. *)
Theorem population_shape (n : Z) (ops : list op) (p0 p : t) :
  ctor n = Ok p0 -> run ops p0 = Ok p ->
  size p = n /\
  (forall i j, 0 <= i < n /\ 0 <= j < n ->
     exists st, getState p i j = Ok (state_name st)) /\
  (forall i j, ~ (0 <= i < n /\ 0 <= j < n) -> getState p i j = Undefined) /\
  _ri p = ri_default /\ _rr p = rr_default /\ _rm p = rm_default /\
  _rv p = rv_default /\ _rvh p = rvh_default /\ _tv p = 200.
Proof.
  intros Hctor Hrun.
  assert (0 <= n) as Hn.
  { destruct (Z_lt_dec n 0) as [Hneg|]; [| lia].
    rewrite (ctor_negative n Hneg) in Hctor. discriminate. }
  destruct (ctor_Ok n Hn) as (q & Hq & Hwf0 & Hk0 & Hn0 & _).
  rewrite Hctor in Hq. injection Hq as <-.
  destruct (run_inv ops p0 p (conj Hwf0 Hk0) Hrun) as [[Hwf Hk] Hnp].
  destruct (run_frame ops p0 p Hwf0 Hrun) as (F1 & F2 & F3 & F4 & F5 & F6).
  assert (_n p = n) as Hsize by congruence.
  split; [exact Hsize |]. split; [| split].
  - intros i j [Hi Hj]. rewrite <- Hsize in Hi, Hj.
    destruct (getState_in_range p i j Hwf Hi Hj) as [s Hs].
    pose proof Hs as Hs'. apply getState_Ok_inv in Hs' as (_ & _ & Hat).
    apply (proj1 (known_grid_at2 (_m p)) Hk) in Hat. cbn in Hat.
    destruct (known_state_name_inv s Hat) as [st ->]. eauto.
  - intros i j Hout. apply getState_out_of_range; [exact Hwf | lia].
  - rewrite F1, F2, F3, F4, F5, F6.
    unfold ctor, Vec.make in Hctor. destruct (Z.ltb_spec n 0); [lia |].
    cbn [bind] in Hctor. injection Hctor as <-. cbn. auto 10.
Qed.

Lemma population_shape_witness :
  ctor 2 = Ok (sample 2 [[sus; sus]; [sus; sus]] 0) /\
  run [Force 0 0 Infected; Advance (const_draws d_eighth);
       Force 1 1 Vaccinated; Advance (const_draws d_half)]
      (sample 2 [[sus; sus]; [sus; sus]] 0)
    = Ok (sample 2 [[inf; inf]; [inf; vac]] 2) /\
  size (sample 2 [[inf; inf]; [inf; vac]] 2) = 2 /\
  getState (sample 2 [[inf; inf]; [inf; vac]] 2) 2 2 = Undefined.
Proof.
  assert (ctor 2 = Ok (sample 2 [[sus; sus]; [sus; sus]] 0)) as Hctor
    by reflexivity.
  assert (run [Force 0 0 Infected; Advance (const_draws d_eighth);
               Force 1 1 Vaccinated; Advance (const_draws d_half)]
              (sample 2 [[sus; sus]; [sus; sus]] 0)
          = Ok (sample 2 [[inf; inf]; [inf; vac]] 2)) as Hrun
    by (vm_compute; reflexivity).
  split; [exact Hctor |]. split; [exact Hrun |].
  destruct (population_shape 2 _ _ _ Hctor Hrun) as (Hsize & _ & Hout & _).
  split; [exact Hsize |]. apply Hout. lia.
Defined.

(** ** Overrides compose *)

Lemma forceState_grid (p : t) (i j : Z) (st : state) (p' : t) :
  wf p -> forceState p i j st = Ok p' ->
  0 <= i < _n p /\ 0 <= j < _n p /\
  exists m', p' = with_m p m' /\ dims (Z.to_nat (_n p)) m' /\
    at2 m' (Z.to_nat i) (Z.to_nat j)
      = Some {| Person._state := state_name st |} /\
    forall a b, (a, b) <> (Z.to_nat i, Z.to_nat j) ->
      at2 m' a b = at2 (_m p) a b.
Proof.
  intros Hwf Hrun.
  destruct (forceState_Ok_inv p p' i j st Hwf Hrun) as [Hi Hj].
  destruct (forceState_in_range p i j st Hwf Hi Hj)
    as (m' & Hrun' & Hd' & Hij & Hother).
  rewrite Hrun in Hrun'. injection Hrun' as ->. eauto 10.
Qed.

(** X7. The last override of a cell wins: overriding a cell twice is the
    same as overriding it once with the second state. *)
Theorem forceState_overwrite (p p1 : t) (i j : Z) (a b : state) :
  wf p -> forceState p i j a = Ok p1 ->
  forceState p1 i j b = forceState p i j b.
Proof.
  intros Hwf H1.
  destruct (forceState_grid p i j a p1 Hwf H1)
    as (Hi & Hj & m1 & -> & Hd1 & Hij1 & Hother1).
  assert (wf (with_m p m1)) as Hwf1 by (split; [apply Hwf | exact Hd1]).
  destruct (forceState_in_range (with_m p m1) i j b Hwf1 Hi Hj)
    as (m2 & H2 & Hd2 & Hij2 & Hother2).
  destruct (forceState_in_range p i j b Hwf Hi Hj)
    as (m3 & H3 & Hd3 & Hij3 & Hother3).
  rewrite H2, H3. f_equal. unfold with_m. cbn. f_equal.
  apply (grid_ext _ _ _ Hd2 Hd3). intros x y _ _.
  destruct (decide ((x, y) = (Z.to_nat i, Z.to_nat j))) as [[= -> ->]|Hne].
  - now rewrite Hij2, Hij3.
  - rewrite (Hother2 x y Hne), (Hother3 x y Hne). cbn [_m with_m].
    exact (Hother1 x y Hne).
Qed.

Lemma forceState_overwrite_witness :
  wf fresh_199 /\
  forceState fresh_199 1 0 Infected = Ok (sample 2 [[sus; sus]; [inf; sus]] 199) /\
  forceState (sample 2 [[sus; sus]; [inf; sus]] 199) 1 0 Recovered
    = forceState fresh_199 1 0 Recovered.
Proof.
  assert (wf fresh_199) as Hwf by solve_wf.
  assert (forceState fresh_199 1 0 Infected
          = Ok (sample 2 [[sus; sus]; [inf; sus]] 199)) as H1 by reflexivity.
  split; [exact Hwf |]. split; [exact H1 |].
  exact (forceState_overwrite _ _ 1 0 Infected Recovered Hwf H1).
Defined.

(** X8. Overrides of two different cells commute, also when one of them is
    outside the grid (both orders are then undefined behaviour). *)
Theorem forceState_commute (p : t) (i j i' j' : Z) (a b : state) :
  wf p -> (i, j) <> (i', j') ->
  (p1 <- forceState p i j a ;; forceState p1 i' j' b) =
  (p1 <- forceState p i' j' b ;; forceState p1 i j a).
Proof.
  intros Hwf Hne.
  destruct (decide (0 <= i < _n p /\ 0 <= j < _n p)) as [[Hi Hj]|Hout];
    destruct (decide (0 <= i' < _n p /\ 0 <= j' < _n p)) as [[Hi' Hj']|Hout'].
  - destruct (forceState_in_range p i j a Hwf Hi Hj)
      as (m1 & H1 & Hd1 & Hij1 & Hother1).
    destruct (forceState_in_range p i' j' b Hwf Hi' Hj')
      as (m2 & H2 & Hd2 & Hij2 & Hother2).
    assert (wf (with_m p m1)) as Hwf1 by (split; [apply Hwf | exact Hd1]).
    assert (wf (with_m p m2)) as Hwf2 by (split; [apply Hwf | exact Hd2]).
    destruct (forceState_in_range (with_m p m1) i' j' b Hwf1 Hi' Hj')
      as (m3 & H3 & Hd3 & Hij3 & Hother3).
    destruct (forceState_in_range (with_m p m2) i j a Hwf2 Hi Hj)
      as (m4 & H4 & Hd4 & Hij4 & Hother4).
    rewrite H1, H2. cbn [bind]. rewrite H3, H4. f_equal.
    unfold with_m. cbn. f_equal.
    assert ((Z.to_nat i, Z.to_nat j) <> (Z.to_nat i', Z.to_nat j')) as Hne'.
    { intros [= E1 E2]. apply Hne. f_equal; lia. }
    apply (grid_ext _ _ _ Hd3 Hd4). intros x y _ _.
    cbn [_m with_m] in Hother3, Hother4.
    destruct (decide ((x, y) = (Z.to_nat i', Z.to_nat j'))) as [[= -> ->]|N1].
    + rewrite Hij3, (Hother4 _ _ (not_eq_sym Hne')). now rewrite Hij2.
    + rewrite (Hother3 x y N1).
      destruct (decide ((x, y) = (Z.to_nat i, Z.to_nat j))) as [[= -> ->]|N2].
      * now rewrite Hij1, Hij4.
      * now rewrite (Hother1 x y N2), (Hother4 x y N2), (Hother2 x y N1).
  - destruct (forceState_in_range p i j a Hwf Hi Hj) as (m1 & H1 & Hd1 & _).
    assert (wf (with_m p m1)) as Hwf1 by (split; [apply Hwf | exact Hd1]).
    rewrite H1. cbn [bind].
    rewrite (forceState_out_of_range p i' j' b Hwf) by lia.
    rewrite (forceState_out_of_range (with_m p m1) i' j' b Hwf1)
      by (cbn [_n with_m]; lia).
    reflexivity.
  - destruct (forceState_in_range p i' j' b Hwf Hi' Hj') as (m2 & H2 & Hd2 & _).
    assert (wf (with_m p m2)) as Hwf2 by (split; [apply Hwf | exact Hd2]).
    rewrite H2. cbn [bind].
    rewrite (forceState_out_of_range p i j a Hwf) by lia.
    rewrite (forceState_out_of_range (with_m p m2) i j a Hwf2)
      by (cbn [_n with_m]; lia).
    reflexivity.
  - rewrite (forceState_out_of_range p i j a Hwf) by lia.
    rewrite (forceState_out_of_range p i' j' b Hwf) by lia.
    reflexivity.
Qed.

Lemma forceState_commute_witness :
  wf fresh_199 /\ (0, 1) <> (1, 0) /\
  (p1 <- forceState fresh_199 0 1 Infected ;; forceState p1 1 0 Vaccinated)
  = (p1 <- forceState fresh_199 1 0 Vaccinated ;; forceState p1 0 1 Infected).
Proof.
  assert (wf fresh_199) as Hwf by solve_wf.
  assert ((0, 1) <> (1, 0)) as Hne by discriminate.
  split; [exact Hwf |]. split; [exact Hne |].
  exact (forceState_commute fresh_199 0 1 1 0 Infected Vaccinated Hwf Hne).
Defined.

(** X9. Overriding a cell with the state it already has changes nothing:
    the population returned is the one given. *)
Theorem forceState_same (p : t) (i j : Z) (st : state) :
  wf p -> getState p i j = Ok (state_name st) ->
  forceState p i j st = Ok p.
Proof.
  intros Hwf Hs.
  destruct (getState_Ok_range p i j _ Hwf Hs) as [Hi Hj].
  destruct (forceState_in_range p i j st Hwf Hi Hj)
    as (m' & Hrun & Hd' & Hij & Hother).
  rewrite Hrun. f_equal.
  assert (m' = _m p) as ->; [| now destruct p].
  apply (grid_ext _ _ _ Hd' (proj2 Hwf)). intros x y _ _.
  destruct (decide ((x, y) = (Z.to_nat i, Z.to_nat j))) as [[= -> ->]|Hne].
  - rewrite Hij. symmetry. now apply getState_Ok_inv in Hs as (_ & _ & Hs).
  - exact (Hother x y Hne).
Qed.

Lemma forceState_same_witness :
  wf corner_199 /\ getState corner_199 0 0 = Ok (state_name Infected) /\
  forceState corner_199 0 0 Infected = Ok corner_199.
Proof.
  assert (wf corner_199) as Hwf by solve_wf.
  assert (getState corner_199 0 0 = Ok (state_name Infected)) as Hs
    by reflexivity.
  split; [exact Hwf |]. split; [exact Hs |].
  exact (forceState_same corner_199 0 0 Infected Hwf Hs).
Defined.


(** ** Overrides and the tallies *)

Lemma tally_app s (l1 l2 : list Person.t) :
  tally s (l1 ++ l2) = tally s l1 + tally s l2.
Proof. unfold tally. rewrite filter_app, length_app. lia. Qed.

Lemma tally_cons s x (l : list Person.t) :
  tally s (x :: l) =
  (if decide (Person.getState x = s) then 1 else 0) + tally s l.
Proof.
  unfold tally. rewrite filter_cons.
  destruct (decide (Person.getState x = s)); cbn [length]; lia.
Qed.

Lemma tally_insert s (l : list Person.t) (b : nat) (x y : Person.t) :
  l !! b = Some x ->
  tally s (<[b := y]> l) =
  tally s l - (if decide (Person.getState x = s) then 1 else 0)
            + (if decide (Person.getState y = s) then 1 else 0).
Proof.
  intros Hx. pose proof (lookup_lt_Some _ _ _ Hx) as Hb.
  rewrite insert_take_drop by exact Hb.
  rewrite <- (take_drop_middle l b x Hx) at 3.
  rewrite !tally_app, !tally_cons. lia.
Qed.

Lemma tally_concat_insert s (m : grid) (a : nat) (row row' : list Person.t) :
  m !! a = Some row ->
  tally s (concat (<[a := row']> m)) =
  tally s (concat m) - tally s row + tally s row'.
Proof.
  intros Hrow. pose proof (lookup_lt_Some _ _ _ Hrow) as Ha.
  rewrite insert_take_drop by exact Ha.
  rewrite <- (take_drop_middle m a row Hrow) at 3.
  rewrite !concat_app. cbn [concat]. rewrite !tally_app. lia.
Qed.

Lemma set_cell_struct (m : grid) (a b : nat) (row : list Person.t)
    (x : Person.t) f :
  m !! a = Some row -> row !! b = Some x ->
  set_cell m (Z.of_nat a) (Z.of_nat b) f = Ok (<[a := <[b := f x]> row]> m).
Proof.
  intros Hrow Hx. unfold set_cell, Vec.modify.
  rewrite (index_Ok m a row Hrow). cbn [bind].
  rewrite (index_Ok row b x Hx). cbn [bind]. now rewrite !Nat2Z.id.
Qed.

Lemma tally_of_fields (p : t) (c : Counts) :
  wf p -> _n p * _n p <= Int.INT_MAX -> countStates p = Ok c ->
  forall k, tally_of c k = tally (state_name k) (concat (_m p)).
Proof.
  intros Hwf Hmax Hc k.
  destruct (countStates_fields p c Hwf Hmax Hc) as (Es & Ei & Er & Ev).
  destruct k; assumption.
Qed.

(** X10. An override moves one cell between tallies: after overriding a
    cell that was in state [s] with the state [st], [countStates] reports
    one less for [s] and one more for [st] (nothing changes if they are the
    same), and the other tallies as before. *)
Theorem forceState_counts (p p' : t) (c : Counts) (i j : Z) (s : string)
    (st : state) :
  wf p -> _n p * _n p <= Int.INT_MAX ->
  countStates p = Ok c -> getState p i j = Ok s ->
  forceState p i j st = Ok p' ->
  exists c', countStates p' = Ok c' /\
    forall k, tally_of c' k =
      tally_of c k - (if decide (s = state_name k) then 1 else 0)
                   + (if decide (state_name st = state_name k) then 1 else 0).
Proof.
  intros Hwf Hmax Hc Hs Hrun.
  destruct (forceState_frame p p' i j st Hwf Hrun) as (Hwf' & _ & Hn' & _).
  destruct (countStates_total p' Hwf') as [c' Hc']. exists c'.
  split; [exact Hc' |]. intros k.
  rewrite (tally_of_fields p c Hwf Hmax Hc k).
  rewrite (tally_of_fields p' c' Hwf' ltac:(rewrite Hn'; exact Hmax) Hc' k).
  apply getState_Ok_inv in Hs as (Hi & Hj & Hat). unfold at2 in Hat.
  destruct (_m p !! Z.to_nat i) as [row|] eqn:Hrow; [| discriminate].
  rewrite forceState_unfold in Hrun.
  rewrite <- (Z2Nat.id i), <- (Z2Nat.id j) in Hrun by lia.
  rewrite (set_cell_struct _ _ _ _ _ _ Hrow Hat) in Hrun.
  cbn [bind] in Hrun. injection Hrun as <-. cbn [_m with_m].
  rewrite (tally_concat_insert _ _ _ _ _ Hrow).
  rewrite (tally_insert _ _ _ _ _ Hat). cbn [Person.getState Person._state].
  lia.
Qed.

Lemma forceState_counts_witness :
  wf corner_199 /\ _n corner_199 * _n corner_199 <= Int.INT_MAX /\
  countStates corner_199 =
    Ok {| susceptible := 3; infected := 1; recovered := 0; vaccinated := 0 |} /\
  getState corner_199 0 0 = Ok "infected"%string /\
  forceState corner_199 0 0 Recovered
    = Ok (sample 2 [[rec; sus]; [sus; sus]] 199) /\
  exists c', countStates (sample 2 [[rec; sus]; [sus; sus]] 199) = Ok c' /\
    tally_of c' Infected = 0 /\ tally_of c' Recovered = 1 /\
    tally_of c' Susceptible = 3.
Proof.
  assert (wf corner_199) as Hwf by solve_wf.
  assert (_n corner_199 * _n corner_199 <= Int.INT_MAX) as Hmax
    by (vm_compute; discriminate).
  assert (countStates corner_199 =
    Ok {| susceptible := 3; infected := 1; recovered := 0; vaccinated := 0 |})
    as Hc by reflexivity.
  assert (getState corner_199 0 0 = Ok "infected"%string) as Hs by reflexivity.
  assert (forceState corner_199 0 0 Recovered
          = Ok (sample 2 [[rec; sus]; [sus; sus]] 199)) as Hrun by reflexivity.
  repeat (split; [assumption |]).
  destruct (forceState_counts _ _ _ 0 0 _ Recovered Hwf Hmax Hc Hs Hrun)
    as (c' & Hc' & Hk).
  exists c'. split; [exact Hc' |].
  split; [exact (Hk Infected) |]. split; [exact (Hk Recovered) |].
  exact (Hk Susceptible).
Defined.

(** ** The empty population *)

(** X11. The population of side 0, which the constructor accepts, has no
    cell to read or override; [countStates] returns four zeros on it, and
    [Update] only counts the day (the vaccination gate compares 0/0 and is
    closed). *)
Theorem empty_population (draws : nat -> spec_float) (p : t) :
  wf p -> _n p = 0 ->
  countStates p = Ok Counts_zero /\
  allow_of p Counts_zero = false /\
  Update draws p = Ok (with_t p (Int.incr (_t p))) /\
  forall i j st,
    getState p i j = Undefined /\ forceState p i j st = Undefined.
Proof.
  intros Hwf Hn.
  assert (countStates p = Ok Counts_zero) as Hc.
  { unfold countStates, for_loop. now rewrite Hn. }
  split; [exact Hc |]. split; [| split].
  - unfold allow_of, frac_vaccinated. now rewrite Hn.
  - unfold Update. rewrite countStates_with_t, Hc. cbn [bind].
    unfold for_loop. cbn [_n with_t]. rewrite Hn. cbn [Z.to_nat for_range bind].
    now destruct p.
  - intros i j st. split.
    + apply getState_out_of_range; [exact Hwf | lia].
    + apply forceState_out_of_range; [exact Hwf | lia].
Qed.

Lemma empty_population_witness :
  ctor 0 = Ok (sample 0 [] 0) /\ wf (sample 0 [] 0) /\
  Update (const_draws d_tiny) (sample 0 [] 0) = Ok (sample 0 [] 1).
Proof.
  assert (wf (sample 0 [] 0)) as Hwf by solve_wf.
  split; [reflexivity |]. split; [exact Hwf |].
  destruct (empty_population (const_draws d_tiny) (sample 0 [] 0) Hwf eq_refl)
    as (_ & _ & Hrun & _).
  exact Hrun.
Defined.

(** * Rendering *)

Lemma colorForState_gray (s : string) :
  colorForState s = gray <-> ~ known s.
Proof.
  unfold colorForState, known, gray. split.
  - string_cases s; cbn; try discriminate.
    intros _ [E | [E | [E | E]]]; congruence.
  - intros Hk. string_cases s; cbn; try reflexivity;
      exfalso; apply Hk; auto.
Qed.

(** X12. A colour identifies a state: the four states have four different
    colours, none of them the light gray that [colorForState] keeps for any
    other string, and the legend's [stateColor] gives every string the
    colour [colorForState] gives it. *)
Theorem colour_identifies_state :
  (forall a b : state,
     colorForState (state_name a) = colorForState (state_name b) -> a = b) /\
  (forall s, colorForState s = gray <-> ~ known s) /\
  (forall s, Main.stateColor s = colorForState s).
Proof.
  split; [| split].
  - intros [] []; cbn; intros H; try reflexivity; discriminate H.
  - exact colorForState_gray.
  - reflexivity.
Qed.

Lemma lookup_concat_rows {A : Type} (n : nat) (l : list (list A)) :
  Forall (fun row => length row = n) l ->
  forall a b, (b < n)%nat ->
    concat l !! (a * n + b)%nat =
    match l !! a with Some row => row !! b | None => None end.
Proof.
  induction 1 as [|row l Hrow _ IH]; intros a b Hb.
  - now rewrite !lookup_nil.
  - cbn [concat]. destruct a as [|a].
    + cbn. rewrite lookup_app_l by lia. reflexivity.
    + rewrite lookup_app_r by lia. cbn [lookup list_lookup].
      replace (S a * n + b - length row)%nat with (a * n + b)%nat by lia.
      now apply IH.
Qed.

(** The window after [draw]: what it had, the clear, and the shapes of the
    grid row by row. *)
Lemma draw_spec (p : t) (window : list render) (cellSize gap : F32.t) :
  wf p ->
  draw p window cellSize gap =
    Ok (window ++ Clear {| Color.r := 40; Color.g := 40; Color.b := 40 |}
          :: map Draw (grid_shapes cellSize gap (_m p))).
Proof.
  intros [Hn Hd]. unfold draw. cbv zeta.
  set (w0 := window ++ [Clear _]).
  destruct (for_loop_inv
    (fun i (st : list render * RectangleShape) =>
       fst st = w0 ++ map Draw (grid_shapes cellSize gap (take i (_m p))) /\
       shape_size (snd st) = (cellSize, cellSize))
    (_n p)
    (fun i st => for_loop (_n p) (fun j (st : list render * RectangleShape) =>
       let x := F32.add gap (F32.mul (F32.of_int j) (F32.add cellSize gap)) in
       let y := F32.add gap (F32.mul (F32.of_int i) (F32.add cellSize gap)) in
       let cell0 := setPosition (snd st) (x, y) in
       person <- cell (_m p) i j ;;
       let cell1 :=
         setFillColor cell0 (colorForState (Person.getState person)) in
       Ok (fst st ++ [Draw cell1], cell1)) st)
    (w0, new_cell cellSize)) as ([w sh] & Hrun & Hw & Hsh).
  - cbn [fst snd]. split; [| reflexivity].
    unfold grid_shapes. cbn. now rewrite app_nil_r.
  - intros i [w sh] Hi [Hw Hsh]. cbn [fst snd] in Hw, Hsh.
    destruct (lookup_lt_is_Some_2 (_m p) i) as [row Hrow]; [destruct Hd; lia |].
    pose proof (dims_lookup _ _ _ _ Hd Hrow) as Hlen.
    destruct (for_loop_inv
      (fun j (st : list render * RectangleShape) =>
         fst st = w ++ map Draw (row_shapes cellSize gap i (take j row)) /\
         shape_size (snd st) = (cellSize, cellSize))
      (_n p)
      (fun j (st : list render * RectangleShape) =>
         let x := F32.add gap (F32.mul (F32.of_int j) (F32.add cellSize gap)) in
         let y :=
           F32.add gap (F32.mul (F32.of_int (Z.of_nat i)) (F32.add cellSize gap)) in
         let cell0 := setPosition (snd st) (x, y) in
         person <- cell (_m p) (Z.of_nat i) j ;;
         let cell1 :=
           setFillColor cell0 (colorForState (Person.getState person)) in
         Ok (fst st ++ [Draw cell1], cell1))
      (w, sh)) as ([w1 sh1] & Hrun1 & Hw1 & Hsh1).
    + cbn [fst snd]. split; [| exact Hsh]. cbn. now rewrite app_nil_r.
    + intros j [w2 sh2] Hj [Hw2 Hsh2]. cbn [fst snd] in Hw2, Hsh2.
      destruct (lookup_lt_is_Some_2 row j) as [x Hx]; [lia |].
      eexists. split.
      * cbv zeta. rewrite (cell_Ok (_m p) i j x); [reflexivity |].
        unfold at2. now rewrite Hrow.
      * cbn [fst snd bind]. split; [| exact Hsh2].
        rewrite Hw2, (take_S_r row j x Hx). unfold row_shapes.
        rewrite imap_app, map_app, app_assoc. cbn [imap map]. f_equal.
        f_equal. f_equal. unfold setFillColor, setPosition, cell_shape.
        cbn. rewrite Hsh2. rewrite length_take_le by lia.
        now rewrite Nat.add_0_r.
    + exists (w1, sh1). split; [exact Hrun1 |]. cbn [fst snd] in Hw1, Hsh1 |- *.
      split; [| exact Hsh1].
      rewrite Hw1, Hw, (take_S_r _ _ _ Hrow). unfold grid_shapes.
      rewrite imap_app, concat_app, map_app, <- app_assoc. cbn [imap concat].
      rewrite app_nil_r, (take_ge row) by lia.
      rewrite length_take_le by (destruct Hd; lia). now rewrite Nat.add_0_r.
  - cbv zeta in Hrun. rewrite Hrun. cbn [bind fst snd] in Hw |- *. rewrite Hw.
    rewrite take_ge by (destruct Hd; lia).
    subst w0. now rewrite <- app_assoc.
Qed.

Lemma length_concat_uniform {A : Type} (n : nat) (l : list (list A)) :
  Forall (fun row => length row = n) l ->
  length (concat l) = (length l * n)%nat.
Proof.
  induction 1 as [|row rest Hrow _ IH]; [reflexivity |].
  cbn [concat length]. rewrite length_app, IH, Hrow. lia.
Qed.

Lemma Forall_concat_rows {A : Type} (P : A -> Prop) (l : list (list A)) :
  Forall (Forall P) l -> Forall P (concat l).
Proof.
  induction 1 as [|row rest Hrow _ IH]; [constructor |].
  cbn [concat]. now apply Forall_app.
Qed.

(** X13. [draw] never fails on a square grid. It clears the window to dark
    gray and then sends exactly one square per cell, row by row: the square
    of the cell [(i, j)] is number [i * n + j], has side [cellSize], sits at
    [(gap + j * (cellSize + gap), gap + i * (cellSize + gap))] and has the
    colour of the cell's state. On a grid of the four states no square has
    the fallback gray. *)
Theorem draw_cells (p : t) (window : list render) (cellSize gap : F32.t) :
  wf p ->
  exists shapes,
    draw p window cellSize gap =
      Ok (window ++ Clear {| Color.r := 40; Color.g := 40; Color.b := 40 |}
            :: map Draw shapes) /\
    Z.of_nat (length shapes) = _n p * _n p /\
    (forall i j s, getState p i j = Ok s ->
       shapes !! Z.to_nat (i * _n p + j) = Some (cell_shape cellSize gap i j s)) /\
    (known_grid (_m p) -> Forall (fun sh => shape_fill sh <> gray) shapes).
Proof.
  intros Hwf. pose proof Hwf as [Hn Hd].
  exists (grid_shapes cellSize gap (_m p)).
  split; [exact (draw_spec p window cellSize gap Hwf) |].
  assert (Forall (fun row => length row = Z.to_nat (_n p))
            (imap (row_shapes cellSize gap) (_m p))) as Hrows.
  { apply Forall_lookup. intros a r Hr.
    rewrite list_lookup_imap in Hr.
    destruct (_m p !! a) as [row|] eqn:Hrow; [| discriminate].
    injection Hr as <-. unfold row_shapes. rewrite length_imap.
    exact (dims_lookup _ _ _ _ Hd Hrow). }
  split; [| split].
  - unfold grid_shapes. rewrite (length_concat_uniform _ _ Hrows), length_imap.
    destruct Hd as [-> _]. rewrite Nat2Z.inj_mul, Z2Nat.id by exact Hn.
    reflexivity.
  - intros i j s Hs.
    destruct (getState_Ok_range p i j s Hwf Hs) as [Hi Hj].
    apply getState_Ok_inv in Hs as (_ & _ & Hat). unfold at2 in Hat.
    destruct (_m p !! Z.to_nat i) as [row|] eqn:Hrow; [| discriminate].
    replace (Z.to_nat (i * _n p + j))
      with (Z.to_nat i * Z.to_nat (_n p) + Z.to_nat j)%nat
      by (rewrite <- (draw_index (_n p)), !Z2Nat.id by lia; reflexivity).
    unfold grid_shapes. rewrite (lookup_concat_rows _ _ Hrows) by lia.
    rewrite list_lookup_imap, Hrow. cbn. unfold row_shapes.
    rewrite list_lookup_imap, Hat. cbn. now rewrite !Z2Nat.id by lia.
  - intros Hk. unfold grid_shapes. apply Forall_concat_rows, Forall_lookup.
    intros a r Hr. rewrite list_lookup_imap in Hr.
    destruct (_m p !! a) as [row|] eqn:Hrow; [| discriminate].
    injection Hr as <-. apply Forall_lookup. intros b sh Hsh.
    unfold row_shapes in Hsh. rewrite list_lookup_imap in Hsh.
    destruct (row !! b) as [x|] eqn:Hx; [| discriminate].
    injection Hsh as <-. cbn [shape_fill cell_shape].
    rewrite colorForState_gray. intros Hnot. apply Hnot.
    apply (proj1 (known_grid_at2 (_m p)) Hk a b). unfold at2. now rewrite Hrow.
Qed.

Lemma draw_cells_witness :
  wf corner_199 /\
  exists shapes,
    draw corner_199 [] Main.cellSize Main.gap =
      Ok ([] ++ Clear {| Color.r := 40; Color.g := 40; Color.b := 40 |}
             :: map Draw shapes) /\
    Z.of_nat (length shapes) = 2 * 2 /\
    shapes !! 1%nat =
      Some (cell_shape Main.cellSize Main.gap 0 1 "susceptible").
Proof.
  assert (wf corner_199) as Hwf by solve_wf.
  split; [exact Hwf |].
  destruct (draw_cells corner_199 [] Main.cellSize Main.gap Hwf)
    as (shapes & Hrun & Hlen & Hcells & _).
  exists shapes. split; [exact Hrun |]. split; [exact Hlen |].
  exact (Hcells 0 1 "susceptible"%string eq_refl).
Defined.

(** * The loop of main.cpp *)

Lemma append_assoc (s1 s2 s3 : string) :
  String.append (String.append s1 s2) s3 = String.append s1 (String.append s2 s3).
Proof.
  induction s1 as [|c s1 IH]; [reflexivity |].
  change (String c (String.append (String.append s1 s2) s3)
          = String c (String.append s1 (String.append s2 s3))).
  now rewrite IH.
Qed.

Lemma append_empty_r (s : string) : String.append s EmptyString = s.
Proof.
  induction s as [|c s IH]; [reflexivity |].
  change (String c (String.append s EmptyString) = String c s). now rewrite IH.
Qed.

Lemma text_of_snoc (pieces : list string) (x : string) :
  text_of (pieces ++ [x]) = String.append (text_of pieces) x.
Proof.
  unfold text_of. induction pieces as [|y pieces IH]; cbn [app fold_right].
  - now rewrite append_empty_r.
  - now rewrite IH, append_assoc.
Qed.

Lemma Main_start :
  exists s0, Main.start = Ok s0 /\ Main_ok s0 /\ Csv_ok s0 /\
    Main.step s0 = 0 /\ Main.shouldSaveFrame s0 = true /\ Main.frames s0 = [].
Proof.
  unfold Main.start.
  destruct (ctor_Ok Main.gridSize ltac:(vm_compute; discriminate))
    as (p0 & Hp0 & Hwf0 & Hk0 & Hn0 & Ht0 & _).
  rewrite Hp0. cbn [bind].
  assert (forall p i j, inv p -> _n p = Main.gridSize -> _t p = 0 ->
            0 <= i < Main.gridSize -> 0 <= j < Main.gridSize ->
            exists p', set_inf p i j = Ok p' /\ inv p' /\
              _n p' = Main.gridSize /\ _t p' = 0) as Hset.
  { intros p i j Hinv Hn Ht Hi Hj.
    destruct (forceState_in_range p i j Infected (proj1 Hinv))
      as (m' & Hrun & _); [lia | lia |].
    exists (with_m p m'). split; [exact Hrun |].
    destruct (forceState_inv p _ i j Infected Hinv Hrun) as [Hinv' Hn'].
    split; [exact Hinv' |]. split; [congruence | exact Ht]. }
  unfold Main.gridSize in Hset.
  destruct (Hset p0 15 15 (conj Hwf0 Hk0) Hn0 Ht0 ltac:(lia) ltac:(lia))
    as (p1 & H1 & Hinv1 & Hn1 & Ht1).
  rewrite H1. cbn [bind].
  destruct (Hset p1 15 16 Hinv1 Hn1 Ht1 ltac:(lia) ltac:(lia))
    as (p2 & H2 & Hinv2 & Hn2 & Ht2).
  rewrite H2. cbn [bind].
  destruct (Hset p2 16 15 Hinv2 Hn2 Ht2 ltac:(lia) ltac:(lia))
    as (p3 & H3 & Hinv3 & Hn3 & Ht3).
  rewrite H3. cbn [bind].
  destruct (countStates_tally p3 Hinv3
              ltac:(rewrite Hn3; vm_compute; discriminate))
    as (c & Hc & Es & Ei & Er & Ev & Hsum).
  rewrite Hc. cbn [bind]. eexists. split; [reflexivity |].
  cbn [Main.pop Main.step Main.csv Main.shouldSaveFrame Main.frames].
  split; [| split; [| auto]].
  - unfold Main_ok. cbn [Main.pop Main.step].
    split; [exact Hinv3 |]. split; [exact Hn3 |].
    split; [vm_compute; split; discriminate | exact Ht3].
  - exists [c]. cbn [Main.pop Main.step Main.csv length imap text_of fold_right].
    split; [reflexivity |]. split; [now rewrite append_empty_r |].
    constructor; [| constructor]. unfold row_total.
    rewrite Hn3 in Hsum. split; [exact Hsum |].
    rewrite Es, Ei, Er, Ev. repeat split; apply tally_nonneg.
Qed.

(** One iteration: whether it advances the simulation, and what it leaves
    behind. *)
Lemma Main_iteration (elapsed : bool) (draws : nat -> spec_float)
    (s : Main.sim) :
  Main_ok s -> Csv_ok s ->
  let tick := (Main.step s <? Main.maxSteps) && elapsed in
  exists s', Main.iteration elapsed draws s = Ok s' /\ Main_ok s' /\ Csv_ok s' /\
    Main.step s' = (if tick then Main.step s + 1 else Main.step s) /\
    Main.shouldSaveFrame s' = false /\
    Main.frames s' =
      (if tick || Main.shouldSaveFrame s
       then Main.frames s ++ [Main.frame_name (Main.step s')]
       else Main.frames s).
Proof.
  intros (Hinv & Hn & Hstep & Ht) (cs & Hlen & Hcsv & Hrows) tick.
  unfold Main.iteration. fold tick.
  assert (forall s1, Main_ok s1 ->
    exists s', (_ <- draw (Main.pop s1) [] Main.cellSize Main.gap ;;
                _ <- countStates (Main.pop s1) ;;
                if Main.shouldSaveFrame s1 then
                  Ok {| Main.pop := Main.pop s1; Main.step := Main.step s1;
                        Main.csv := Main.csv s1;
                        Main.shouldSaveFrame := false;
                        Main.frames :=
                          Main.frames s1 ++ [Main.frame_name (Main.step s1)] |}
                else Ok s1) = Ok s' /\
      Main.pop s' = Main.pop s1 /\ Main.step s' = Main.step s1 /\
      Main.csv s' = Main.csv s1 /\
      Main.shouldSaveFrame s' = false /\
      Main.frames s' =
        (if Main.shouldSaveFrame s1
         then Main.frames s1 ++ [Main.frame_name (Main.step s1)]
         else Main.frames s1)) as Hrest.
  { intros s1 (Hinv1 & _).
    rewrite (draw_spec _ [] Main.cellSize Main.gap (proj1 Hinv1)). cbn [bind].
    destruct (countStates_total _ (proj1 Hinv1)) as [c1 Hc1].
    rewrite Hc1. cbn [bind].
    destruct (Main.shouldSaveFrame s1) eqn:Hflag.
    - eexists. split; [reflexivity |]. cbn. auto.
    - exists s1. rewrite Hflag. auto 10. }
  destruct tick eqn:Htick.
  - apply andb_prop in Htick as [Hlt _]. apply Z.ltb_lt in Hlt.
    destruct (Update_total draws (Main.pop s) (proj1 Hinv)) as (p' & Hrun & _).
    destruct (Update_inv draws (Main.pop s) p' Hinv Hrun) as [Hinv' Hn'].
    destruct (Update_frame draws (Main.pop s) p' (proj1 Hinv) Hrun)
      as (_ & _ & Ht' & _).
    assert (Int.incr (Main.step s) = Main.step s + 1) as Hincr.
    { apply incr_in_range. unfold Int.INT_MIN, Int.INT_MAX, Main.maxSteps in *.
      lia. }
    destruct (countStates_tally p' Hinv'
                ltac:(rewrite Hn', Hn; vm_compute; discriminate))
      as (c & Hc & Es & Ei & Er & Ev & Hsum).
    rewrite Hrun. cbn [bind]. rewrite Hc. cbn [bind]. rewrite Hincr.
    set (s1 := {| Main.pop := p'; Main.step := Main.step s + 1;
                  Main.csv := _; Main.shouldSaveFrame := true;
                  Main.frames := Main.frames s |}).
    assert (Main_ok s1) as Hok1.
    { unfold Main_ok. cbn [Main.pop Main.step s1].
      split; [exact Hinv' |]. split; [congruence |].
      split; [lia |]. rewrite Ht', Ht. exact Hincr. }
    destruct (Hrest s1 Hok1) as (s' & Hs' & Hpop & Hst & Hcsv' & Hflag & Hfr).
    exists s'. split; [exact Hs' |]. cbn [s1 Main.shouldSaveFrame Main.frames
      Main.pop Main.step Main.csv] in Hpop, Hst, Hcsv', Hfr.
    split; [| split; [| split; [exact Hst | split; [exact Hflag |]]]].
    + unfold Main_ok. rewrite Hpop, Hst. exact Hok1.
    + exists (cs ++ [c]). rewrite Hst, Hcsv', length_app. cbn [length].
      split; [lia |]. split.
      * rewrite Hcsv, imap_app. cbn [imap]. rewrite text_of_snoc, append_assoc.
        do 3 f_equal. unfold compose. lia.
      * apply Forall_app. split; [exact Hrows |]. constructor; [| constructor].
        unfold row_total. rewrite Hn', Hn in Hsum. split; [exact Hsum |].
        rewrite Es, Ei, Er, Ev. repeat split; apply tally_nonneg.
    + rewrite Hfr, Hst. reflexivity.
  - cbn [bind].
    destruct (Hrest s (conj Hinv (conj Hn (conj Hstep Ht))))
      as (s' & Hs' & Hpop & Hst & Hcsv' & Hflag & Hfr).
    exists s'. split; [exact Hs' |].
    split; [| split; [| split; [exact Hst | split; [exact Hflag |]]]].
    + unfold Main_ok. rewrite Hpop, Hst. auto.
    + exists cs. rewrite Hst, Hcsv'. auto.
    + rewrite Hfr, Hst. reflexivity.
Qed.

Lemma elapsed_count_cons (it : bool * (nat -> spec_float)) its :
  elapsed_count (it :: its) = (if fst it then 1 else 0) + elapsed_count its.
Proof.
  unfold elapsed_count. rewrite filter_cons.
  destruct (decide (fst it = true)) as [E|E].
  - rewrite E. cbn [length]. lia.
  - destruct (fst it); [congruence |]. lia.
Qed.

Lemma elapsed_count_nonneg its : 0 <= elapsed_count its.
Proof. unfold elapsed_count. lia. Qed.

Lemma Frames_ok_iteration (elapsed : bool) (s s' : Main.sim) (first : Z) :
  Frames_ok first s ->
  0 <= first ->
  Main.step s' =
    (if (Main.step s <? Main.maxSteps) && elapsed
     then Main.step s + 1 else Main.step s) ->
  Main.shouldSaveFrame s' = false ->
  Main.frames s' =
    (if (Main.step s <? Main.maxSteps) && elapsed || Main.shouldSaveFrame s
     then Main.frames s ++ [Main.frame_name (Main.step s')]
     else Main.frames s) ->
  Frames_ok first s'.
Proof.
  intros (Hflag & Hfirst & Hfr) H0 Hst Hflag' Hfr'. unfold Frames_ok.
  rewrite Hflag in Hfr'. split; [exact Hflag' |].
  destruct ((Main.step s <? Main.maxSteps) && elapsed); cbn [orb] in Hfr'.
  - split; [lia |]. rewrite Hfr', Hfr, Hst.
    replace (Main.step s + 1 - first + 1) with ((Main.step s - first + 1) + 1)
      by lia.
    rewrite (seqZ_app first (Main.step s - first + 1) 1) by lia.
    rewrite map_app. f_equal.
    rewrite seqZ_cons by lia. rewrite seqZ_nil by lia. cbn. do 2 f_equal. lia.
  - rewrite Hst, Hfr'. auto.
Qed.

Lemma Main_iterations (its : list (bool * (nat -> spec_float))) :
  forall s, Main_ok s -> Csv_ok s ->
    exists s', Main.iterations its s = Ok s' /\ Main_ok s' /\ Csv_ok s' /\
      Main.step s' = Z.min Main.maxSteps (Main.step s + elapsed_count its) /\
      (forall first, 0 <= first -> Frames_ok first s -> Frames_ok first s').
Proof.
  induction its as [|[elapsed draws] its IH]; intros s Hok Hcsv.
  - exists s. split; [reflexivity |]. split; [exact Hok |].
    split; [exact Hcsv |]. split; [| auto].
    destruct Hok as (_ & _ & Hstep & _). unfold elapsed_count. cbn. lia.
  - destruct (Main_iteration elapsed draws s Hok Hcsv)
      as (s1 & Hrun1 & Hok1 & Hcsv1 & Hst1 & Hflag1 & Hfr1).
    destruct (IH s1 Hok1 Hcsv1) as (s' & Hrun' & Hok' & Hcsv' & Hst' & Hfr').
    exists s'. cbn [Main.iterations]. rewrite Hrun1. cbn [bind].
    split; [exact Hrun' |]. split; [exact Hok' |]. split; [exact Hcsv' |].
    split.
    + rewrite Hst', Hst1, elapsed_count_cons. cbn [fst].
      pose proof (elapsed_count_nonneg its).
      destruct Hok as (_ & _ & Hstep & _).
      destruct (Z.ltb_spec (Main.step s) Main.maxSteps), elapsed;
        cbn [andb]; lia.
    + intros first H0 Hf. apply Hfr'; [exact H0 |].
      exact (Frames_ok_iteration elapsed s s1 first Hf H0 Hst1 Hflag1 Hfr1).
Qed.

(** X14. The loop of [main] never runs into undefined behaviour, whatever
    the clock readings and the draws: after any number of iterations the
    population is still 30 by 30, the step is the number of iterations whose
    clock had run out, but at most [maxSteps = 1000], and the day counter of
    the population equals the step. *)
Theorem main_loop_steps (its : list (bool * (nat -> spec_float))) :
  exists s0 s,
    Main.start = Ok s0 /\ Main.iterations its s0 = Ok s /\
    Main.step s = Z.min Main.maxSteps (elapsed_count its) /\
    _t (Main.pop s) = Main.step s /\
    size (Main.pop s) = Main.gridSize /\
    exists c, countStates (Main.pop s) = Ok c.
Proof.
  destruct Main_start as (s0 & Hs0 & Hok0 & Hcsv0 & Hst0 & _).
  destruct (Main_iterations its s0 Hok0 Hcsv0)
    as (s & Hrun & (Hinv & Hn & Hstep & Ht) & _ & Hst & _).
  exists s0, s. split; [exact Hs0 |]. split; [exact Hrun |].
  split; [now rewrite Hst, Hst0 |]. split; [exact Ht |]. split; [exact Hn |].
  exact (countStates_total _ (proj1 Hinv)).
Qed.

(** X15. The text written to the CSV stream is the header followed by one
    row per step, from step 0 to the current step in order, each row
    starting with its step; the four tallies of every row are not negative
    and sum to 900, the number of cells. *)
Theorem main_loop_csv (its : list (bool * (nat -> spec_float))) :
  exists s0 s (cs : list Counts),
    Main.start = Ok s0 /\ Main.iterations its s0 = Ok s /\
    Z.of_nat (length cs) = Main.step s + 1 /\
    Main.csv s =
      String.append Main.csv_header
        (text_of (imap (fun k c => Main.csv_row (Z.of_nat k) c) cs)) /\
    Forall (fun c => row_total c = 900 /\
                     0 <= susceptible c /\ 0 <= infected c /\
                     0 <= recovered c /\ 0 <= vaccinated c) cs.
Proof.
  destruct Main_start as (s0 & Hs0 & Hok0 & Hcsv0 & _).
  destruct (Main_iterations its s0 Hok0 Hcsv0)
    as (s & Hrun & _ & (cs & Hlen & Hcsv & Hrows) & _).
  exists s0, s, cs. auto.
Qed.

(** X16. After the first iteration the frames saved are those of
    consecutive steps up to the current one, once each and in order, and no
    frame is pending. They start at step 0, unless the clock has already run
    out in the first iteration: then the frame of step 0 is never saved and
    they start at step 1. *)
Theorem main_loop_frames (elapsed : bool) (draws : nat -> spec_float)
    (its : list (bool * (nat -> spec_float))) :
  exists s0 s,
    Main.start = Ok s0 /\
    Main.iterations ((elapsed, draws) :: its) s0 = Ok s /\
    Main.shouldSaveFrame s = false /\
    let first := if elapsed then 1 else 0 in
    first <= Main.step s /\
    Main.frames s = map Main.frame_name (seqZ first (Main.step s - first + 1)).
Proof.
  destruct Main_start as (s0 & Hs0 & Hok0 & Hcsv0 & Hst0 & Hflag0 & Hfr0).
  destruct (Main_iteration elapsed draws s0 Hok0 Hcsv0)
    as (s1 & Hrun1 & Hok1 & Hcsv1 & Hst1 & Hflag1 & Hfr1).
  destruct (Main_iterations its s1 Hok1 Hcsv1)
    as (s & Hrun & _ & _ & _ & Hfr).
  exists s0, s. split; [exact Hs0 |]. cbn [Main.iterations].
  rewrite Hrun1. cbn [bind]. split; [exact Hrun |].
  cbv zeta in Hst1, Hfr1. rewrite Hst0, Hflag0, Hfr0, orb_true_r in *.
  change (0 <? Main.maxSteps) with true in *. cbn [andb app] in *.
  assert (Frames_ok (if elapsed then 1 else 0) s1) as Hf1.
  { unfold Frames_ok. rewrite Hflag1, Hfr1, Hst1.
    destruct elapsed; cbn; auto with lia. }
  destruct (Hfr (if elapsed then 1 else 0) ltac:(destruct elapsed; lia) Hf1)
    as (Hflag & Hfirst & Hframes).
  auto.
Qed.

(** ** Frame names *)

Lemma string_ltb_nle (a b : string) :
  String.ltb a b = true <-> ~ String.le b a.
Proof.
  unfold String.le, String.leb, String.ltb.
  rewrite (String.compare_antisym a b).
  destruct (String.compare b a); cbn; split; intros H.
  - discriminate.
  - exfalso. apply H. exact I.
  - discriminate.
  - exfalso. apply H. exact I.
  - intros H'. exact H'.
  - reflexivity.
Qed.

Lemma string_ltb_trans (a b c : string) :
  String.ltb a b = true -> String.ltb b c = true -> String.ltb a c = true.
Proof.
  rewrite !string_ltb_nle. intros Hab Hbc Hca.
  destruct (total String.le a b) as [Hle | Hle]; [| contradiction].
  apply Hbc. now transitivity a.
Qed.

Lemma increasing_lookup (l : list string) :
  increasing l = true ->
  forall i j a b, (i < j)%nat -> l !! i = Some a -> l !! j = Some b ->
    String.ltb a b = true.
Proof.
  induction l as [|x l IH]; intros Hinc i j a b Hij Ha Hb.
  - rewrite lookup_nil in Ha. discriminate.
  - assert (increasing l = true) as Hl.
    { destruct l as [|y l]; [reflexivity |]. cbn [increasing] in Hinc.
      now apply andb_prop in Hinc as [_ Hinc]. }
    assert (forall k y, l !! k = Some y -> String.ltb x y = true) as Hhead.
    { intros k. induction k as [|k IHk]; intros y Hy.
      - destruct l as [|z l]; [discriminate |]. cbn in Hy. injection Hy as <-.
        cbn [increasing] in Hinc. now apply andb_prop in Hinc as [Hxz _].
      - destruct (lookup_lt_is_Some_2 l k) as [z Hz];
          [apply lookup_lt_Some in Hy; lia |].
        apply (string_ltb_trans x z y); [exact (IHk z Hz) |].
        exact (IH Hl k (S k) z y ltac:(lia) Hz Hy). }
    destruct i as [|i], j as [|j]; try lia.
    + cbn in Ha. injection Ha as <-. exact (Hhead j b Hb).
    + exact (IH Hl i j a b ltac:(lia) Ha Hb).
Qed.

(** X17. Frame names sort like their steps: for steps from 0 to 9999,
    which covers the 1000 steps the loop can reach, the name of an earlier
    step is below the name of a later step in the order of strings (so the
    names are distinct and a sorted directory listing is the timelapse).
    From step 10000 on this fails: its name is below that of step 9999. *)
Theorem frame_names_sorted :
  (forall a b, 0 <= a -> a < b -> b <= 9999 ->
     String.ltb (Main.frame_name a) (Main.frame_name b) = true) /\
  Main.maxSteps <= 9999 /\
  String.ltb (Main.frame_name 10000) (Main.frame_name 9999) = true.
Proof.
  split; [| split; [vm_compute; discriminate | vm_compute; reflexivity]].
  intros a b Ha Hab Hb.
  assert (increasing (map Main.frame_name (seqZ 0 10000)) = true) as Hinc
    by (vm_compute; reflexivity).
  apply (increasing_lookup _ Hinc (Z.to_nat a) (Z.to_nat b)); [lia | |].
  - rewrite list_lookup_fmap, lookup_seqZ_lt by lia. cbn. do 2 f_equal. lia.
  - rewrite list_lookup_fmap, lookup_seqZ_lt by lia. cbn. do 2 f_equal. lia.
Qed.

Lemma frame_names_sorted_witness :
  0 <= 9 /\ 9 < 10 /\ 10 <= 9999 /\
  Main.frame_name 9 = "frame_0009.png"%string /\
  Main.frame_name 10 = "frame_0010.png"%string /\
  String.ltb (Main.frame_name 9) (Main.frame_name 10) = true.
Proof.
  repeat (split; [lia || reflexivity |]).
  apply (proj1 frame_names_sorted 9 10); lia.
Defined.

(** * The random outbreak *)

Lemma marked_step start end_ draws (a b i j : Z) :
  0 <= a < end_ - start -> 0 <= b < end_ - start ->
  Outbreak.marked start end_ draws a (b + 1) i j =
  if decide ((i, j) = (start + a, start + b))
  then F32.ltb (Outbreak.draw_of start end_ draws i j)
         Outbreak.infectionProbability
  else Outbreak.marked start end_ draws a b i j.
Proof.
  intros Ha Hb. unfold Outbreak.marked, Outbreak.in_block.
  destruct (decide ((i, j) = (start + a, start + b))) as [[= -> ->]|Hne].
  - destruct (Z.leb_spec start (start + a)); [| lia].
    destruct (Z.ltb_spec (start + a) end_); [| lia].
    destruct (Z.leb_spec start (start + b)); [| lia].
    destruct (Z.ltb_spec (start + b) end_); [| lia].
    destruct (Z.ltb_spec (start + a - start) a); [lia |].
    destruct (Z.eqb_spec (start + a - start) a); [| lia].
    destruct (Z.ltb_spec (start + b - start) (b + 1)); [| lia].
    reflexivity.
  - f_equal. f_equal.
    destruct (Z.ltb_spec (i - start) a); [reflexivity |]. cbn [orb].
    destruct (Z.eqb_spec (i - start) a); [| reflexivity]. cbn [andb].
    destruct (Z.ltb_spec (j - start) (b + 1)), (Z.ltb_spec (j - start) b);
      try reflexivity; try lia.
    exfalso. apply Hne. f_equal; lia.
Qed.

Lemma marked_row_end start end_ draws (a i j : Z) :
  0 <= a ->
  Outbreak.marked start end_ draws a (end_ - start) i j =
  Outbreak.marked start end_ draws (a + 1) 0 i j.
Proof.
  intros Ha. unfold Outbreak.marked, Outbreak.in_block.
  destruct (Z.leb_spec start i), (Z.ltb_spec i end_), (Z.leb_spec start j),
    (Z.ltb_spec j end_); cbn [andb]; try reflexivity.
  f_equal.
  destruct (Z.ltb_spec (i - start) a), (Z.ltb_spec (i - start) (a + 1)),
    (Z.eqb_spec (i - start) a), (Z.eqb_spec (i - start) (a + 1)),
    (Z.ltb_spec (j - start) (end_ - start)), (Z.ltb_spec (j - start) 0);
    cbn; try reflexivity; lia.
Qed.

Lemma marked_none start end_ draws (i j : Z) :
  Outbreak.marked start end_ draws 0 0 i j = false.
Proof.
  unfold Outbreak.marked, Outbreak.in_block.
  destruct (Z.leb_spec start i), (Z.ltb_spec i end_), (Z.leb_spec start j),
    (Z.ltb_spec j end_); cbn [andb]; try reflexivity.
  destruct (Z.ltb_spec (i - start) 0), (Z.eqb_spec (i - start) 0),
    (Z.ltb_spec (j - start) 0); cbn; try reflexivity; lia.
Qed.

Lemma marked_all start end_ draws (i j : Z) :
  Outbreak.marked start end_ draws (end_ - start) 0 i j =
  Outbreak.in_block start end_ i j
  && F32.ltb (Outbreak.draw_of start end_ draws i j)
       Outbreak.infectionProbability.
Proof.
  unfold Outbreak.marked, Outbreak.in_block.
  destruct (Z.leb_spec start i), (Z.ltb_spec i end_), (Z.leb_spec start j),
    (Z.ltb_spec j end_); cbn [andb]; try reflexivity.
  destruct (Z.ltb_spec (i - start) (end_ - start)); [reflexivity | lia].
Qed.

(** The two loops of the seeding on a block inside the grid. *)
Lemma seed_block_spec (start end_ : Z) (draws : nat -> F32.t) (p : t) :
  wf p -> 0 <= start -> end_ <= _n p ->
  exists p' k, Outbreak.seed_block start end_ draws p = Ok (p', k) /\
    wf p' /\ _n p' = _n p /\ _t p' = _t p /\
    forall i j,
      getState p' i j =
        if Outbreak.in_block start end_ i j
           && F32.ltb (Outbreak.draw_of start end_ draws i j)
                Outbreak.infectionProbability
        then Ok "infected"%string else getState p i j.
Proof.
  intros Hwf Hstart Hend. unfold Outbreak.seed_block.
  set (w := Z.to_nat (end_ - start)).
  set (Inv := fun (a b : Z) (st : t * nat) =>
    snd st = Z.to_nat (a * (end_ - start) + b) /\
    wf (fst st) /\ _n (fst st) = _n p /\ _t (fst st) = _t p /\
    forall i j, getState (fst st) i j =
      if Outbreak.marked start end_ draws a b i j
      then Ok "infected"%string else getState p i j).
  destruct (for_range_inv (fun a st => Inv (Z.of_nat a) 0 st) w start
    (fun i st => for_range start w (fun j (st : t * nat) =>
       if F32.ltb (draws (snd st)) Outbreak.infectionProbability then
         pop <- set_inf (fst st) i j ;; Ok (pop, S (snd st))
       else Ok (fst st, S (snd st))) st)
    (p, 0%nat)) as ([p' k] & Hrun & Hk & Hwf' & Hn' & Ht' & Hcells).
  - unfold Inv. cbn [fst snd]. split; [reflexivity |].
    split; [exact Hwf |]. split; [reflexivity |]. split; [reflexivity |].
    intros i j. now rewrite marked_none.
  - intros a st Ha HI.
    destruct (for_range_inv (fun b st => Inv (Z.of_nat a) (Z.of_nat b) st)
      w start
      (fun j (st : t * nat) =>
         if F32.ltb (draws (snd st)) Outbreak.infectionProbability then
           pop <- set_inf (fst st) (start + Z.of_nat a) j ;;
           Ok (pop, S (snd st))
         else Ok (fst st, S (snd st)))
      st) as (st' & Hrun' & HI').
    + exact HI.
    + intros b [q k] Hb (Hk & Hwfq & Hnq & Htq & Hq).
      cbn [fst snd] in Hk, Hwfq, Hnq, Htq, Hq |- *.
      assert (0 <= Z.of_nat a < end_ - start) as Ha' by lia.
      assert (0 <= Z.of_nat b < end_ - start) as Hb' by lia.
      assert (draws k = Outbreak.draw_of start end_ draws
                          (start + Z.of_nat a) (start + Z.of_nat b)) as Hdraw.
      { unfold Outbreak.draw_of. rewrite Hk. do 2 f_equal. lia. }
      assert (S k = Z.to_nat (Z.of_nat a * (end_ - start) + Z.of_nat (S b)))
        as Hk' by (rewrite Hk; nia).
      destruct (F32.ltb (draws k) Outbreak.infectionProbability) eqn:Hlt.
      * destruct (forceState_in_range q (start + Z.of_nat a)
                    (start + Z.of_nat b) Infected Hwfq ltac:(lia) ltac:(lia))
          as (m' & Hset & _).
        change (forceState q (start + Z.of_nat a) (start + Z.of_nat b) Infected)
          with (set_inf q (start + Z.of_nat a) (start + Z.of_nat b)) in Hset.
        rewrite Hset. cbn [bind]. eexists. split; [reflexivity |].
        destruct (forceState_frame q _ _ _ Infected Hwfq Hset)
          as (Hwf1 & Ht1 & Hn1 & _ & _ & _ & _ & _ & _ & Hij & Hother).
        unfold Inv. cbn [fst snd].
        split; [exact Hk' |]. split; [exact Hwf1 |].
        split; [congruence |]. split; [congruence |].
        intros i j. rewrite Nat2Z.inj_succ, <- Z.add_1_r.
        rewrite (marked_step _ _ _ _ _ _ _ Ha' Hb').
        destruct (decide ((i, j) = (start + Z.of_nat a, start + Z.of_nat b)))
          as [[= -> ->]|Hne].
        -- rewrite <- Hdraw, Hlt. exact Hij.
        -- rewrite (Hother i j Hne). apply Hq.
      * eexists. split; [reflexivity |]. unfold Inv. cbn [fst snd].
        split; [exact Hk' |]. split; [exact Hwfq |].
        split; [exact Hnq |]. split; [exact Htq |].
        intros i j. rewrite Nat2Z.inj_succ, <- Z.add_1_r.
        rewrite (marked_step _ _ _ _ _ _ _ Ha' Hb').
        destruct (decide ((i, j) = (start + Z.of_nat a, start + Z.of_nat b)))
          as [[= -> ->]|Hne].
        -- rewrite <- Hdraw, Hlt. rewrite Hq.
           unfold Outbreak.marked.
           destruct (Z.ltb_spec (start + Z.of_nat a - start) (Z.of_nat a));
             [lia |].
           destruct (Z.ltb_spec (start + Z.of_nat b - start) (Z.of_nat b));
             [lia |].
           now rewrite andb_false_r, orb_false_r, andb_false_r.
        -- apply Hq.
    + exists st'. split; [exact Hrun' |].
      destruct HI' as (Hk' & Hwf' & Hn' & Ht' & Hcells').
      unfold Inv. split; [| split; [exact Hwf' | split; [exact Hn' |
        split; [exact Ht' |]]]].
      * rewrite Hk'. f_equal. subst w. lia.
      * intros i j. rewrite Hcells'. subst w.
        destruct (Z_le_dec 0 (end_ - start)) as [Hpos|Hneg].
        -- rewrite Z2Nat.id by exact Hpos.
           rewrite (marked_row_end start end_ draws (Z.of_nat a) i j
                      ltac:(lia)).
           now rewrite Nat2Z.inj_succ, <- Z.add_1_r.
        -- lia.
  - exists p', k. split; [exact Hrun |]. cbn [fst snd] in *.
    split; [exact Hwf' |]. split; [exact Hn' |]. split; [exact Ht' |].
    intros i j. rewrite Hcells. subst w.
    destruct (Z_le_dec 0 (end_ - start)) as [Hpos|Hneg].
    + rewrite Z2Nat.id by exact Hpos. now rewrite marked_all.
    + replace (Z.to_nat (end_ - start)) with 0%nat by lia. cbn [Z.of_nat].
      rewrite marked_none. unfold Outbreak.in_block.
      destruct (Z.leb_spec start i), (Z.ltb_spec i end_); cbn [andb];
        try reflexivity. lia.
Qed.

(** X18. The random outbreak never leaves the grid: on the 100 by 100
    population the seeding returns, whatever the draws, with the day counter
    still 0; a cell of rows and columns 25 to 74 is infected exactly when
    its draw, number [(i - 25) * 50 + (j - 25)], is below 0.75, and every
    other cell is susceptible. *)
Theorem outbreak_seeding (draws : nat -> F32.t) :
  exists p, Outbreak.seeded draws = Ok p /\
    size p = 100 /\ _t p = 0 /\
    forall i j, 0 <= i < 100 -> 0 <= j < 100 ->
      getState p i j =
        Ok (if Outbreak.in_block 25 75 i j
               && F32.ltb (Outbreak.draw_of 25 75 draws i j)
                    Outbreak.infectionProbability
            then "infected"%string else "susceptible"%string).
Proof.
  unfold Outbreak.seeded.
  destruct (ctor_Ok Outbreak.gridSize ltac:(vm_compute; discriminate))
    as (p0 & Hp0 & Hwf0 & _ & Hn0 & Ht0 & Hcells0).
  rewrite Hp0. cbn [bind].
  destruct (seed_block_spec 25 75 draws p0 Hwf0 ltac:(lia)
              ltac:(rewrite Hn0; vm_compute; discriminate))
    as (p & k & Hrun & Hwf & Hn & Ht & Hcells).
  rewrite Hrun. cbn [bind fst]. exists p. split; [reflexivity |].
  split; [unfold size; rewrite Hn, Hn0; reflexivity |].
  split; [congruence |].
  intros i j Hi Hj. rewrite Hcells.
  destruct (_ && _); [reflexivity |].
  rewrite <- (Z2Nat.id i), <- (Z2Nat.id j) by lia.
  rewrite (getState_at2 p0 _ _ Person.ctor); [reflexivity |].
  apply Hcells0; unfold Outbreak.gridSize; lia.
Qed.

(** * The earlier header *)

(** X19. A population built by the constructor of the earlier header cannot
    be used: for every size [n > 0] the member grid is empty, so reading or
    overriding any cell and calling [Update], whatever the draws, are
    undefined behaviour; only for [n = 0] does [Update] return, with the
    population as it was. *)
Theorem Legacy_population_unusable (n : Z) (draws : nat -> spec_float) :
  (0 < n ->
     exists p, Legacy.ctor n = Ok p /\ Legacy.size p = n /\
       Legacy.Update draws p = Undefined /\
       forall i j,
         Legacy.getState p i j = Undefined /\
         Legacy.set_sus p i j = Undefined /\
         Legacy.set_inf p i j = Undefined /\
         Legacy.set_rec p i j = Undefined /\
         Legacy.set_vac p i j = Undefined) /\
  (n = 0 ->
     exists p, Legacy.ctor n = Ok p /\ Legacy.Update draws p = Ok p).
Proof.
  split.
  - intros Hn. unfold Legacy.ctor, Vec.make.
    destruct (Z.ltb_spec n 0); [lia |]. cbn [bind].
    eexists. split; [reflexivity |]. split; [reflexivity |]. split.
    + unfold Legacy.Update, for_loop. cbn [Legacy._n Legacy._m].
      destruct (Z.to_nat n) as [|c] eqn:Hc; [lia |]. reflexivity.
    + intros i j.
      assert (cell [] i j = Undefined) as Hcell.
      { unfold cell, Vec.index. destruct (0 <=? i); [| reflexivity].
        now rewrite lookup_nil. }
      assert (forall f, set_cell [] i j f = Undefined) as Hset.
      { intros f. unfold set_cell, Vec.modify, Vec.index.
        destruct (0 <=? i); [| reflexivity]. now rewrite lookup_nil. }
      unfold Legacy.getState, Legacy.set_sus, Legacy.set_inf, Legacy.set_rec,
        Legacy.set_vac. cbn [Legacy._m]. rewrite Hcell, !Hset. auto.
  - intros ->. eexists. split; reflexivity.
Qed.

Lemma Legacy_population_unusable_witness :
  0 < 3 /\
  exists p, Legacy.ctor 3 = Ok p /\
    Legacy.Update (const_draws d_half) p = Undefined /\
    Legacy.set_inf p 1 1 = Undefined.
Proof.
  split; [lia |].
  destruct (proj1 (Legacy_population_unusable 3 (const_draws d_half))
              ltac:(lia)) as (p & Hp & _ & Hrun & Hcells).
  exists p. split; [exact Hp |]. split; [exact Hrun |].
  exact (proj1 (proj2 (proj2 (Hcells 1 1)))).
Defined.
